(** * Matisse laser controller: wavelength seeking and stabilization

    A shallow embedding of the control core of [matisse/matisse.py]
    (class [Matisse]) and of [matisse/stabilization_thread.py]
    (class [StabilizationThread]), with the properties of its scans, its
    motor positioner, its limit checker and its stabilization loop.

    Conventions of the embedding.
    - Python [float]s are exact rationals ([Q]); [int]s are [Z].
    - The instrument (pyvisa), the wavemeter, [float(str)], the formatting
      of a float in an f-string and scipy's [savgol_filter] are external to
      the repository: they are the fields of the class [Lab].
    - The class constants ([Matisse.X], module [matisse.constants]) and the
      configuration ([cfg.get]) are the records [Constants] and [Config].
    - A method is a function [state -> result A * state]: Python mutates the
      controller object and talks to hardware, and an exception keeps what
      was done before it was raised.  The field [trace] of the state records
      every external call, in order.
    - Loops that wait on hardware ([while not ... : pass]) and the recursion
      of [query] take a [fuel]; running out of it is the result [Timeout]. *)

From Stdlib Require Import ZArith QArith Qround Qabs Qreduction.
From Stdlib Require Import List Sorted String Ascii Bool Lia Lqa DecimalString.
Import ListNotations.

Local Open Scope string_scope.
Local Open Scope list_scope.
Local Open Scope Z_scope.

(** ** Python built-ins used by the controller *)

Module Py.

(** [str.isspace] on an ASCII character: TAB..CR, FS..US and the space. *)
Definition isspace (c : ascii) : bool :=
  let n := nat_of_ascii c in
  ((9 <=? n) && (n <=? 13) || (28 <=? n) && (n <=? 32))%nat.

Definition is_empty (s : string) : bool :=
  match s with EmptyString => true | String _ _ => false end.

Fixpoint lstrip (s : string) : string :=
  match s with
  | EmptyString => EmptyString
  | String c s' => if isspace c then lstrip s' else s
  end.

Fixpoint rstrip (s : string) : string :=
  match s with
  | EmptyString => EmptyString
  | String c s' =>
      let r := rstrip s' in
      if isspace c && is_empty r then EmptyString else String c r
  end.

(** [s.strip()] *)
Definition strip (s : string) : string := rstrip (lstrip s).

(** [s.split()]: the maximal runs of non-whitespace characters. [cur] is
    the token being read. *)
Fixpoint split_from (cur s : string) : list string :=
  match s with
  | EmptyString => if is_empty cur then [] else [cur]
  | String c s' =>
      if isspace c
      then (if is_empty cur then split_from "" s' else cur :: split_from "" s')
      else split_from (cur ++ String c "")%string s'
  end.

Definition split (s : string) : list string := split_from "" s.

(** [s.startswith(p)] *)
Definition startswith (s p : string) : bool := String.prefix p s.

(** [str(n)] and [f"{n}"] for an [int]. *)
Definition str_int (n : Z) : string := NilZero.string_of_int (Z.to_int n).

(** [int(x)] for a float: truncation towards zero. *)
Definition int_of_float (x : Q) : Z :=
  if Qle_bool 0 x then Qfloor x else Qceiling x.

(** Comparisons of floats. *)
Definition Qltb (x y : Q) : bool := negb (Qle_bool y x).

(** [10 ** n] as a rational, for any integer [n]. *)
Definition pow10 (n : Z) : Q :=
  match n with
  | Z0 => 1
  | Zpos p => inject_Z (10 ^ Zpos p)
  | Zneg p => Qmake 1 (Pos.pow 10 p)
  end%Q.

(** Round half to even of a rational to an integer. *)
Definition round_half_even (x : Q) : Z :=
  let f := Qfloor x in
  let twice := Qfloor (x * 2) in
  (* twice - 2 f is 0 when the fractional part is below one half *)
  if (twice - 2 * f =? 0)%Z then f
  else if Qeq_bool (x * 2) (inject_Z twice) && Z.even f then f
  else (f + 1)%Z.

(** [round(x, ndigits)]: the multiple of [10 ** -ndigits] nearest to [x],
    ties going to the even multiple. *)
Definition round (x : Q) (ndigits : Z) : Q :=
  Qred (inject_Z (round_half_even (x * pow10 ndigits)) / pow10 ndigits).

(** [range(start, stop, step)], [None] for [step = 0] ([ValueError]). *)
Fixpoint range_up (n : nat) (start step : Z) : list Z :=
  match n with
  | O => []
  | S n' => start :: range_up n' (start + step) step
  end.

Definition range_len (start stop step : Z) : Z :=
  if 0 <? step then
    (if start <? stop then (stop - start - 1) / step + 1 else 0)
  else
    (if stop <? start then (start - stop - 1) / (- step) + 1 else 0).

Definition range (start stop step : Z) : option (list Z) :=
  if step =? 0 then None
  else Some (range_up (Z.to_nat (range_len start stop step)) start step).

End Py.

(** ** numpy and scipy functions used by the scans *)

Module Np.

(** [data.take(i, mode='clip')]: an index outside the array is moved to
    the nearest end. *)
Definition clip (n : nat) (i : Z) : nat :=
  Z.to_nat (Z.max 0 (Z.min i (Z.of_nat n - 1))).

Definition take_clip (data : list Q) (i : Z) : Q :=
  nth (clip (List.length data) i) data 0%Q.

(** [np.greater] and [np.less] *)
Definition greater (x y : Q) : bool := Py.Qltb y x.
Definition less (x y : Q) : bool := Py.Qltb x y.

(** scipy's [_boolrelextrema(data, comparator, order=order, mode='clip')]
    at index [i]: for every shift from 1 to [order], the sample is compared
    with the one [shift] places after it and the one [shift] places before
    it. *)
Definition relextremum (comparator : Q -> Q -> bool) (order : nat)
    (data : list Q) (i : nat) : bool :=
  forallb
    (fun shift =>
       comparator (take_clip data (Z.of_nat i))
                  (take_clip data (Z.of_nat i + Z.of_nat shift))
       && comparator (take_clip data (Z.of_nat i))
                     (take_clip data (Z.of_nat i - Z.of_nat shift)))
    (seq 1 order).

(** [argrelextrema(data, comparator, order=order)]: the indices, in
    increasing order, where [_boolrelextrema] is true. *)
Definition argrelextrema (data : list Q) (comparator : Q -> Q -> bool)
    (order : nat) : list nat :=
  filter (relextremum comparator order data) (seq 0 (List.length data)).

(** [np.argmin]: the first index of the least element; [None] stands for
    the [ValueError] on an empty array. *)
Fixpoint argmin_from (best : nat) (least : Q) (i : nat) (l : list Q) : nat :=
  match l with
  | [] => best
  | x :: l' =>
      if Py.Qltb x least then argmin_from i x (S i) l'
      else argmin_from best least (S i) l'
  end.

Definition argmin (l : list Q) : option nat :=
  match l with
  | [] => None
  | x :: l' => Some (argmin_from 0 x 1 l')
  end.

(** [a[idx]] for an array of indices: [None] stands for [IndexError]. *)
Fixpoint index_all {A : Type} (a : list A) (idx : list nat) : option (list A) :=
  match idx with
  | [] => Some []
  | i :: idx' =>
      match nth_error a i, index_all a idx' with
      | Some x, Some xs => Some (x :: xs)
      | _, _ => None
      end
  end.

End Np.

(** scipy's Savitzky-Golay filter, [savgol_filter(x, window_length,
    polyorder)] with its defaults ([deriv=0], [mode='interp']), in exact
    arithmetic: every output sample is the value of the least-squares
    polynomial of degree [polyorder] fitted to a window of [window_length]
    input samples: the window centred on the sample, or, for the first and
    last [window_length // 2] samples, the first and the last window. *)
Module Scipy.

Definition dot (u v : list Q) : Q :=
  fold_left (fun acc p => Qred (acc + fst p * snd p)%Q) (combine u v) 0%Q.

(** A polynomial by its values on the window points [0 .. n-1] and its
    value at the point of evaluation. *)
Record poly := { on_window : list Q; at_point : Q }.

Definition monomial (n : nat) (t : Z) (k : nat) : poly :=
  {| on_window := map (fun j => inject_Z (Z.of_nat j ^ Z.of_nat k)) (seq 0 n);
     at_point := inject_Z (t ^ Z.of_nat k) |}.

(** [p - c b] *)
Definition sub_scaled (c : Q) (b p : poly) : poly :=
  {| on_window := map (fun xy => Qred (snd xy - c * fst xy)%Q)
                      (combine (on_window b) (on_window p));
     at_point := Qred (at_point p - c * at_point b)%Q |}.

(** Gram-Schmidt: [m] made orthogonal to the polynomials of [basis]. *)
Definition orthogonalise (basis : list poly) (m : poly) : poly :=
  fold_left
    (fun p b =>
       sub_scaled (Qred (dot (on_window p) (on_window b)
                         / dot (on_window b) (on_window b))%Q) b p)
    basis m.

Fixpoint orthogonal_basis (n : nat) (t : Z) (degree : nat) : list poly :=
  match degree with
  | O => [monomial n t 0]
  | S d =>
      let basis := orthogonal_basis n t d in
      basis ++ [orthogonalise basis (monomial n t (S d))]
  end.

(** The weights [w] with [fit(t) = sum_j w_j y_j] for the least-squares
    polynomial of degree [degree] through [(j, y_j)], [j = 0 .. n-1]. *)
Definition fit_weights (n : nat) (degree : nat) (t : Z) : list Q :=
  let basis := orthogonal_basis n t degree in
  let scaled :=
    map (fun b => (on_window b,
                   Qred (at_point b / dot (on_window b) (on_window b))%Q))
        basis in
  map (fun j =>
         fold_left
           (fun acc bs => Qred (acc + nth j (fst bs) 0%Q * snd bs)%Q)
           scaled 0%Q)
      (seq 0 n).

Definition savgol_filter (x : list Q) (window_length polyorder : Z)
    : option (list Q) :=
  let n := Z.of_nat (List.length x) in
  if (window_length <=? 0) || Z.even window_length
     || (polyorder <? 0) || (window_length <=? polyorder)
     || (n <? window_length)
  then None
  else
    let halflen := window_length / 2 in
    let wl := Z.to_nat window_length in
    let deg := Z.to_nat polyorder in
    let coeffs := fit_weights wl deg halflen in
    Some (map
      (fun i =>
         let i := Z.of_nat i in
         if i <? halflen then
           dot (fit_weights wl deg i) (firstn wl x)
         else if n - halflen <=? i then
           dot (fit_weights wl deg (i - (n - window_length)))
               (skipn (Z.to_nat (n - window_length)) x)
         else
           dot coeffs (firstn wl (skipn (Z.to_nat (i - halflen)) x)))
      (seq 0 (List.length x))).

End Scipy.

(** ** The laboratory: what the controller talks to *)

(** Exceptions. *)
Inductive exn :=
| IOError
| RuntimeError (msg : string)
| AssertionError (msg : string)
| ValueError
| IndexError
| TypeError.

(** External collaborators.  [instrument_query] is pyvisa's
    [instrument.query] ([None]: a [VisaIOError]); [get_wavelength] is the
    wavemeter driver; [scan_control] is the hardware side of the
    controller's [start_scan (Some direction)] and [stop_scan] ([None]),
    which may raise; [float_of_str] is Python's
    [float(s)] ([None]: a [ValueError]); [str_of_float] formats a float in an
    f-string; [savgol_filter x window_length polyorder] is scipy's
    ([None]: a [ValueError]). *)
Class Lab := {
  World : Type;
  instrument_query : string -> World -> option string * World;
  get_wavelength : World -> Q * World;
  scan_control : option Z -> World -> option exn * World;
  float_of_str : string -> option Q;
  str_of_float : Q -> string;
  savgol_filter : list Q -> Z -> Z -> option (list Q)
}.

(** The class attributes the controller reads ([Matisse.X], [self.X]). *)
Record Constants := {
  BIREFRINGENT_SCAN_RANGE : Z;
  BIREFRINGENT_SCAN_STEP : Z;
  BIREFRINGENT_FILTER_UPPER_LIMIT : Z;
  THIN_ETALON_SCAN_RANGE : Z;
  THIN_ETALON_SCAN_STEP : Z;
  THIN_ETALON_UPPER_LIMIT : Z;
  THIN_ETALON_NUDGE : Z;
  MOTOR_STATUS_IDLE : Z;
  REFERENCE_CELL_LOWER_LIMIT : Q;
  REFERENCE_CELL_UPPER_LIMIT : Q;
  SLOW_PIEZO_LOWER_LIMIT : Q;
  SLOW_PIEZO_UPPER_LIMIT : Q;
  PIEZO_ETALON_LOWER_LIMIT : Q;
  PIEZO_ETALON_UPPER_LIMIT : Q;
  PIEZO_ETALON_CORRECTION_POS : Q;
  SLOW_PIEZO_CORRECTION_POS : Q;
  REFCELL_CORRECTION_POS : Q;
  SCAN_MODE_UP : Z;
  SCAN_MODE_DOWN : Z
}.

(** The configuration values the stabilization thread reads with [cfg.get]. *)
Record Config := {
  WAVEMETER_PRECISION : Z;
  STABILIZATION_TOLERANCE : Q;
  STABILIZATION_DELAY : Q;
  STABILIZATION_RISING_SPEED : Q;
  STABILIZATION_FALLING_SPEED : Q;
  REPORT_EVENTS : bool
}.

(** External calls, as the trace records them. *)
Inductive event :=
| Query (command : string)          (* instrument.query(command) *)
| Wavelength                        (* wavemeter.get_wavelength() *)
| StartScan (direction : Z)         (* matisse.start_scan(direction) *)
| StopScan                          (* matisse.stop_scan() *)
| LogEvent (name : string)          (* log_event(name, ...) *)
| Sleep (seconds : Q)               (* time.sleep(seconds) *)
| StartThread.                      (* stabilization_thread.start() *)

(** A value returned by [query]: a [str] or a [float]. *)
Inductive pyval :=
| Str (s : string)
| Num (x : Q).

Inductive result (A : Type) :=
| Ok (a : A)
| Raise (e : exn)
| Timeout.
Arguments Ok {A} a.
Arguments Raise {A} e.
Arguments Timeout {A}.

(** The local variables of a scan, which it hands to the plot. *)
Record scan_data := {
  positions : list Z;
  voltages : list Q;
  smoothed_data : list Q;
  extrema : list nat;
  wavelength_differences : list Q;
  best_pos : Z
}.

Section Controller.

Context {L : Lab} (K : Constants) (cfg : Config).

(** The controller object, the stabilization thread it owns and the
    world around them. [stabilization_thread] is [None] or
    [Some is_alive]; [messages] is the thread's queue. *)
Record state := {
  world : World;
  target_wavelength : option Q;
  stabilization_thread : option bool;
  messages : list string;
  stabilization_auto_corrections : Z;
  trace : list event
}.

Definition with_world (w : World) (st : state) : state :=
  {| world := w; target_wavelength := target_wavelength st;
     stabilization_thread := stabilization_thread st; messages := messages st;
     stabilization_auto_corrections := stabilization_auto_corrections st;
     trace := trace st |}.

Definition with_target (t : option Q) (st : state) : state :=
  {| world := world st; target_wavelength := t;
     stabilization_thread := stabilization_thread st; messages := messages st;
     stabilization_auto_corrections := stabilization_auto_corrections st;
     trace := trace st |}.

Definition with_thread (t : option bool) (st : state) : state :=
  {| world := world st; target_wavelength := target_wavelength st;
     stabilization_thread := t; messages := messages st;
     stabilization_auto_corrections := stabilization_auto_corrections st;
     trace := trace st |}.

Definition with_messages (m : list string) (st : state) : state :=
  {| world := world st; target_wavelength := target_wavelength st;
     stabilization_thread := stabilization_thread st; messages := m;
     stabilization_auto_corrections := stabilization_auto_corrections st;
     trace := trace st |}.

Definition with_corrections (n : Z) (st : state) : state :=
  {| world := world st; target_wavelength := target_wavelength st;
     stabilization_thread := stabilization_thread st; messages := messages st;
     stabilization_auto_corrections := n;
     trace := trace st |}.

Definition with_trace (t : list event) (st : state) : state :=
  {| world := world st; target_wavelength := target_wavelength st;
     stabilization_thread := stabilization_thread st; messages := messages st;
     stabilization_auto_corrections := stabilization_auto_corrections st;
     trace := t |}.

(** *** The monad of methods *)

Definition M (A : Type) : Type := state -> result A * state.

Definition ret {A} (a : A) : M A := fun st => (Ok a, st).

Definition bind {A B} (m : M A) (k : A -> M B) : M B :=
  fun st =>
    match m st with
    | (Ok a, st') => k a st'
    | (Raise e, st') => (Raise e, st')
    | (Timeout, st') => (Timeout, st')
    end.

Definition raise {A} (e : exn) : M A := fun st => (Raise e, st).
Definition timeout {A} : M A := fun st => (Timeout, st).

Notation "x <- m ;; k" := (bind m (fun x => k))
  (at level 61, m at next level, right associativity).
Notation "m ;; k" := (bind m (fun _ => k))
  (at level 61, right associativity).

(** [assert c, msg] *)
Definition assert (c : bool) (msg : string) : M unit :=
  if c then ret tt else raise (AssertionError msg).

Definition emit (e : event) : M unit :=
  fun st => (Ok tt, with_trace (trace st ++ [e]) st).

Definition get_target : M (option Q) := fun st => (Ok (target_wavelength st), st).
Definition set_target (t : Q) : M unit := fun st => (Ok tt, with_target (Some t) st).

(** [self.instrument.query(command)] inside [query]: a [VisaIOError]
    becomes an [IOError]. *)
Definition visa_query (command : string) : M string :=
  fun st =>
    let (r, w) := instrument_query command (world st) in
    let st' := with_trace (trace st ++ [Query command]) (with_world w st) in
    match r with
    | Some s => (Ok s, st')
    | None => (Raise IOError, st')
    end.

(** A float where the code needs one. *)
Definition as_float (v : pyval) : M Q :=
  match v with
  | Num x => ret x
  | Str _ => raise TypeError
  end.

(** [Matisse.query] *)
Fixpoint query (fuel : nat) (command : string)
    (numeric_result raise_on_error : bool) : M pyval :=
  match fuel with
  | O => timeout
  | S fuel' =>
      r <- visa_query command ;;
      let result := Py.strip r in
      if Py.startswith result "!ERROR" then
        if raise_on_error then
          err_codes <- query fuel' "ERROR:CODE?" false true ;;
          query fuel' "ERROR:CLEAR" false true ;;
          match err_codes with
          | Str codes =>
              raise (RuntimeError ("Error executing Matisse command '"
                                   ++ command ++ "' " ++ codes)%string)
          | Num _ => raise TypeError
          end
        else ret (Str result)
      else if numeric_result then
        match nth_error (Py.split result) 1 with
        | None => raise IndexError
        | Some token =>
            match float_of_str token with
            | None => raise ValueError
            | Some x => ret (Num x)
            end
        end
      else ret (Str result)
  end.

(** [Matisse.wavemeter_wavelength] *)
Definition wavemeter_wavelength : M Q :=
  fun st =>
    let (x, w) := get_wavelength (world st) in
    (Ok x, with_trace (trace st ++ [Wavelength]) (with_world w st)).

(** *** Motor positioner *)

(** [Matisse.bifi_motor_status] and [Matisse.thin_etalon_motor_status] *)
Definition bifi_motor_status (fuel : nat) : M Z :=
  v <- query fuel "MOTBI:STATUS?" true true ;;
  x <- as_float v ;;
  ret (Z.land (Py.int_of_float x) 255).

Definition thin_etalon_motor_status (fuel : nat) : M Z :=
  v <- query fuel "MOTTE:STATUS?" true true ;;
  x <- as_float v ;;
  ret (Z.land (Py.int_of_float x) 255).

(** [while not status() == Matisse.MOTOR_STATUS_IDLE: pass] *)
Fixpoint wait_until_idle (status : M Z) (n : nat) : M unit :=
  match n with
  | O => timeout
  | S n' =>
      s <- status ;;
      if s =? MOTOR_STATUS_IDLE K then ret tt else wait_until_idle status n'
  end.

(** [Matisse.set_bifi_motor_pos] *)
Definition set_bifi_motor_pos (fuel : nat) (pos : Z) : M unit :=
  assert ((0 <? pos) && (pos <? BIREFRINGENT_FILTER_UPPER_LIMIT K))
         "Target motor position out of range." ;;
  wait_until_idle (bifi_motor_status fuel) fuel ;;
  query fuel ("MOTBI:POS " ++ Py.str_int pos)%string false true ;;
  wait_until_idle (bifi_motor_status fuel) fuel.

(** [Matisse.set_thin_etalon_motor_pos] *)
Definition set_thin_etalon_motor_pos (fuel : nat) (pos : Z) : M unit :=
  assert ((0 <? pos) && (pos <? THIN_ETALON_UPPER_LIMIT K))
         "Target motor position out of range." ;;
  wait_until_idle (thin_etalon_motor_status fuel) fuel ;;
  query fuel ("MOTTE:POS " ++ Py.str_int pos)%string false true ;;
  wait_until_idle (thin_etalon_motor_status fuel) fuel.

(** [Matisse.set_bifi_wavelength] *)
Definition set_bifi_wavelength (fuel : nat) (value : Q) : M unit :=
  assert (Py.Qltb 720 value && Py.Qltb value 800)
         "Target wavelength out of range." ;;
  wait_until_idle (bifi_motor_status fuel) fuel ;;
  query fuel ("MOTBI:WAVELENGTH " ++ str_of_float value)%string false true ;;
  wait_until_idle (bifi_motor_status fuel) fuel.

(** *** Extremum scans *)

(** [if self.target_wavelength is None:
        self.target_wavelength = self.wavemeter_wavelength()] *)
Definition ensure_target : M unit :=
  t <- get_target ;;
  match t with
  | None => w <- wavemeter_wavelength ;; set_target w
  | Some _ => ret tt
  end.

(** The sampling loop of a scan:
    [for pos in positions: move(pos); voltages = np.append(voltages, read)] *)
Fixpoint sample_scan (move : Z -> M unit) (read : M pyval)
    (ps : list Z) (voltages : list Q) : M (list Q) :=
  match ps with
  | [] => ret voltages
  | pos :: ps' =>
      move pos ;;
      v <- read ;;
      x <- as_float v ;;
      sample_scan move read ps' (voltages ++ [x])
  end.

(** The loop over the extrema:
    [for pos in positions[extrema]: move(pos);
       wavelength_differences = np.append(wavelength_differences,
           abs(self.wavemeter_wavelength() - self.target_wavelength))] *)
Fixpoint measure_extrema (move : Z -> M unit) (ps : list Z)
    (wavelength_differences : list Q) : M (list Q) :=
  match ps with
  | [] => ret wavelength_differences
  | pos :: ps' =>
      move pos ;;
      w <- wavemeter_wavelength ;;
      t <- get_target ;;
      match t with
      | None => raise TypeError
      | Some target =>
          measure_extrema move ps' (wavelength_differences ++ [Qabs (w - target)])
      end
  end.

(** [Matisse.birefringent_filter_scan] (the plot calls left out) *)
Definition birefringent_filter_scan (fuel : nat) : M scan_data :=
  ensure_target ;;
  v <- query fuel "MOTBI:POS?" true true ;;
  x <- as_float v ;;
  let center_pos := Py.int_of_float x in
  let lower_limit := center_pos - BIREFRINGENT_SCAN_RANGE K in
  let upper_limit := center_pos + BIREFRINGENT_SCAN_RANGE K in
  assert ((0 <? lower_limit) && (lower_limit <? BIREFRINGENT_FILTER_UPPER_LIMIT K)
          && ((0 <? upper_limit) && (upper_limit <? BIREFRINGENT_FILTER_UPPER_LIMIT K))
          && (lower_limit <? upper_limit))
         ("Conditions for BiFi scan invalid. Motor position must be between "
          ++ Py.str_int (BIREFRINGENT_SCAN_RANGE K) ++ " and "
          ++ Py.str_int (BIREFRINGENT_FILTER_UPPER_LIMIT K - BIREFRINGENT_SCAN_RANGE K))%string ;;
  match Py.range lower_limit upper_limit (BIREFRINGENT_SCAN_STEP K) with
  | None => raise ValueError
  | Some positions =>
      voltages <- sample_scan (set_bifi_motor_pos fuel)
                    (query fuel "DPOW:DC?" true true) positions [] ;;
      set_bifi_motor_pos fuel center_pos ;;
      match savgol_filter voltages 31 3 with
      | None => raise ValueError
      | Some smoothed_data =>
          let maxima := Np.argrelextrema smoothed_data Np.greater 5 in
          match Np.index_all positions maxima with
          | None => raise IndexError
          | Some candidates =>
              wavelength_differences <-
                measure_extrema (set_bifi_motor_pos fuel) candidates [] ;;
              match Np.argmin wavelength_differences with
              | None => raise ValueError
              | Some i =>
                  match nth_error candidates i with
                  | None => raise IndexError
                  | Some chosen =>
                      let best_pos := chosen in
                      set_bifi_motor_pos fuel best_pos ;;
                      ret {| positions := positions; voltages := voltages;
                             smoothed_data := smoothed_data; extrema := maxima;
                             wavelength_differences := wavelength_differences;
                             best_pos := best_pos |}
                  end
              end
          end
      end
  end.

(** [Matisse.thin_etalon_scan] (the plot calls left out) *)
Definition thin_etalon_scan (fuel : nat) : M scan_data :=
  ensure_target ;;
  v <- query fuel "MOTTE:POS?" true true ;;
  x <- as_float v ;;
  let center_pos := Py.int_of_float x in
  let lower_limit := center_pos - THIN_ETALON_SCAN_RANGE K in
  let upper_limit := center_pos + THIN_ETALON_SCAN_RANGE K in
  assert ((0 <? lower_limit) && (lower_limit <? THIN_ETALON_UPPER_LIMIT K)
          && ((0 <? upper_limit) && (upper_limit <? THIN_ETALON_UPPER_LIMIT K))
          && (lower_limit <? upper_limit))
         ("Conditions for thin etalon scan invalid. Motor position must be between "
          ++ Py.str_int (THIN_ETALON_SCAN_RANGE K) ++ " and "
          ++ Py.str_int (THIN_ETALON_UPPER_LIMIT K - THIN_ETALON_SCAN_RANGE K))%string ;;
  match Py.range lower_limit upper_limit (THIN_ETALON_SCAN_STEP K) with
  | None => raise ValueError
  | Some positions =>
      voltages <- sample_scan (set_thin_etalon_motor_pos fuel)
                    (query fuel "TE:DC?" true true) positions [] ;;
      set_thin_etalon_motor_pos fuel center_pos ;;
      match savgol_filter voltages 41 3 with
      | None => raise ValueError
      | Some smoothed_data =>
          let minima := Np.argrelextrema smoothed_data Np.less 5 in
          match Np.index_all positions minima with
          | None => raise IndexError
          | Some candidates =>
              wavelength_differences <-
                measure_extrema (set_thin_etalon_motor_pos fuel) candidates [] ;;
              match Np.argmin wavelength_differences with
              | None => raise ValueError
              | Some i =>
                  match nth_error candidates i with
                  | None => raise IndexError
                  | Some chosen =>
                      let best_pos := chosen + THIN_ETALON_NUDGE K in
                      set_thin_etalon_motor_pos fuel best_pos ;;
                      ret {| positions := positions; voltages := voltages;
                             smoothed_data := smoothed_data; extrema := minima;
                             wavelength_differences := wavelength_differences;
                             best_pos := best_pos |}
                  end
              end
          end
      end
  end.

(** [Matisse.set_wavelength] (the plot calls left out) *)
Definition set_wavelength (fuel : nat) (wavelength : Q) : M unit :=
  set_target wavelength ;;
  set_bifi_wavelength fuel wavelength ;;
  birefringent_filter_scan fuel ;;
  thin_etalon_scan fuel ;;
  ret tt.

(** *** Limit checker and correction *)

(** [Matisse.is_any_limit_reached] *)
Definition is_any_limit_reached (fuel : nat) : M bool :=
  a <- query fuel "SCAN:NOW?" true true ;;
  b <- query fuel "SLOWPIEZO:NOW?" true true ;;
  c <- query fuel "PIEZOETALON:BASELINE?" true true ;;
  let offset := (5 # 100)%Q in
  current_refcell_pos <- as_float a ;;
  current_slow_pz_pos <- as_float b ;;
  current_pz_eta_pos <- as_float c ;;
  ret (negb
    (Py.Qltb (REFERENCE_CELL_LOWER_LIMIT K + offset) current_refcell_pos
     && Py.Qltb current_refcell_pos (REFERENCE_CELL_UPPER_LIMIT K - offset)
     && (Py.Qltb (SLOW_PIEZO_LOWER_LIMIT K + offset) current_slow_pz_pos
         && Py.Qltb current_slow_pz_pos (SLOW_PIEZO_UPPER_LIMIT K - offset))
     && (Py.Qltb (PIEZO_ETALON_LOWER_LIMIT K + offset) current_pz_eta_pos
         && Py.Qltb current_pz_eta_pos (PIEZO_ETALON_UPPER_LIMIT K - offset)))).

(** [Matisse.reset_stabilization_piezos] *)
Definition reset_stabilization_piezos (fuel : nat) : M unit :=
  query fuel ("PIEZOETALON:BASELINE " ++ str_of_float (PIEZO_ETALON_CORRECTION_POS K))%string
        false true ;;
  query fuel ("SLOWPIEZO:NOW " ++ str_of_float (SLOW_PIEZO_CORRECTION_POS K))%string
        false true ;;
  query fuel ("SCAN:NOW " ++ str_of_float (REFCELL_CORRECTION_POS K))%string
        false true ;;
  ret tt.

(** *** Stabilization thread *)

(** Modelled from the spec: [Matisse.start_scan] and [Matisse.stop_scan]
    are called by the thread but their bodies are not among the sources.
    The spec (4.4) has them start the continuous scan actuator in a
    direction and stop it: each is one call on the hardware, recorded in
    the trace, which may raise like any other. *)
Definition scan_action (a : option Z) (e : event) : M unit :=
  fun st =>
    let (r, w) := scan_control a (world st) in
    let st' := with_trace (trace st ++ [e]) (with_world w st) in
    match r with
    | None => (Ok tt, st')
    | Some x => (Raise x, st')
    end.

Definition start_scan (direction : Z) : M unit :=
  scan_action (Some direction) (StartScan direction).

Definition stop_scan : M unit := scan_action None StopScan.

(** [if cfg.get(cfg.REPORT_EVENTS): log_event(name, ...)] *)
Definition report_event (name : string) : M unit :=
  if REPORT_EVENTS cfg then emit (LogEvent name) else ret tt.

(** [StabilizationThread.__init__], lines 26 to 28: what the constructor
    does once [super().__init__] has returned *)
Definition thread_init (fuel : nat) : M unit :=
  stop_scan ;;
  query fuel ("SCAN:RISINGSPEED " ++ str_of_float (STABILIZATION_RISING_SPEED cfg))%string
        false true ;;
  query fuel ("SCAN:FALLINGSPEED " ++ str_of_float (STABILIZATION_FALLING_SPEED cfg))%string
        false true ;;
  ret tt.

(** [StabilizationThread.do_stabilization_correction] *)
Definition do_stabilization_correction (fuel : nat) (wavelength drift : Q) : M unit :=
  stop_scan ;;
  report_event "stabilization_correction" ;;
  reset_stabilization_piezos fuel ;;
  fun st =>
    (Ok tt, with_corrections (stabilization_auto_corrections st + 1) st).

(** One turn of the [while True] loop of [StabilizationThread.run]:
    [true] to go round again, [false] after [break]. *)
Definition run_iteration (fuel : nat) : M bool :=
  fun st =>
    if (List.length (messages st) =? 0)%nat then
      (current_wavelength <- wavemeter_wavelength ;;
       t <- get_target ;;
       match t with
       | None => raise TypeError
       | Some target =>
           let drift := (target - current_wavelength)%Q in
           let drift := Py.round drift (WAVEMETER_PRECISION cfg) in
           (if Py.Qltb (STABILIZATION_TOLERANCE cfg) (Qabs drift) then
              if Py.Qltb drift 0 then
                limit <- is_any_limit_reached fuel ;;
                if negb limit then
                  report_event "wavelength_drift" ;;
                  start_scan (SCAN_MODE_DOWN K)
                else do_stabilization_correction fuel current_wavelength drift
              else
                limit <- is_any_limit_reached fuel ;;
                if negb limit then
                  report_event "wavelength_drift" ;;
                  start_scan (SCAN_MODE_UP K)
                else do_stabilization_correction fuel current_wavelength drift
            else stop_scan) ;;
           emit (Sleep (STABILIZATION_DELAY cfg)) ;;
           ret true
       end) st
    else
      (stop_scan ;; ret false) st.

(** [StabilizationThread.run]: at most [n] turns of the loop. *)
Fixpoint run (fuel : nat) (n : nat) : M unit :=
  match n with
  | O => timeout
  | S n' =>
      again <- run_iteration fuel ;;
      if again then run fuel n' else ret tt
  end.

(** [Matisse.is_stabilizing] *)
Definition is_stabilizing (st : state) : bool :=
  match stabilization_thread st with
  | Some is_alive => is_alive
  | None => false
  end.




(** [Matisse.stabilize_off]: ['stop'] is put in the queue and the caller
    joins the thread. The thread looks at its queue once a turn, at line
    37. [in_flight] says whether it was past that test, in a turn begun on
    an empty queue, when ['stop'] arrived: it then goes through that turn to
    its end first, and finds the message at the test of the next. An
    exception ends the thread, and [join] returns all the same. *)
Definition stabilize_off (fuel : nat) (in_flight : bool) : M unit :=
  fun st =>
    if is_stabilizing st then
      let put (s : state) := with_messages (messages st ++ ["stop"]) s in
      let joined :=
        if in_flight then
          match run_iteration fuel (with_messages [] st) with
          | (Ok true, s1) => run fuel fuel (put s1)
          | (Ok false, s1) => (Ok tt, put s1)
          | (Raise e, s1) => (Raise e, put s1)
          | (Timeout, s1) => (Timeout, put s1)
          end
        else run fuel fuel (put st) in
      match joined with
      | (Timeout, st') => (Timeout, st')
      | (_, st') => (Ok tt, with_thread (Some false) st')
      end
    else (Ok tt, st).

End Controller.

Notation "x <- m ;; k" := (bind m (fun x => k))
  (at level 61, m at next level, right associativity).
Notation "m ;; k" := (bind m (fun _ => k))
  (at level 61, right associativity).

Arguments assert {L} c msg _.
Arguments emit {L} e _.
Arguments visa_query {L} command _.
Arguments wavemeter_wavelength {L} _.
Arguments get_target {L} _.
Arguments set_target {L} t _.
Arguments ensure_target {L} _.
Arguments as_float {L} v.
Arguments scan_action {L} a e _.
Arguments start_scan {L} direction.
Arguments stop_scan {L}.

(** ** Relations between the state before and after a method *)

Section Frames.

Context {L : Lab}.

(** A relation between the states before and after that every step of a
    method keeps holds of the whole method. *)
Definition keeps {A} (P : state -> state -> Prop) (m : M A) : Prop :=
  forall st r st', m st = (r, st') -> P st st'.

(** The method leaves the thread, its queue and the counter alone, and
    a target that is set stays as it is. *)
Definition frame (st st' : state) : Prop :=
  stabilization_thread st' = stabilization_thread st
  /\ messages st' = messages st
  /\ stabilization_auto_corrections st' = stabilization_auto_corrections st
  /\ (forall t, target_wavelength st = Some t -> target_wavelength st' = Some t).

(** The method leaves the thread alone and keeps a target that is set. *)
Definition target_kept (st st' : state) : Prop :=
  stabilization_thread st' = stabilization_thread st
  /\ (forall t, target_wavelength st = Some t -> target_wavelength st' = Some t).

(** The method leaves every field of the controller alone. *)
Definition untouched (st st' : state) : Prop :=
  stabilization_thread st' = stabilization_thread st
  /\ messages st' = messages st
  /\ stabilization_auto_corrections st' = stabilization_auto_corrections st
  /\ target_wavelength st' = target_wavelength st.

(** The method only adds to the trace. *)
Definition trace_grows (st st' : state) : Prop :=
  exists evs, trace st' = trace st ++ evs.

(** The instrument answered [r] to [command]: one exchange, which changes
    the world and the trace only. *)
Definition answered (command r : string) (st st' : state) : Prop :=
  exists w,
    instrument_query command (world st) = (Some r, w)
    /\ st' = with_trace (trace st ++ [Query command]) (with_world w st).

(** The instrument answered [command] with a response that is not an
    error and whose second token is the float [x]. *)
Definition reads (command : string) (x : Q) (st st' : state) : Prop :=
  exists r token,
    answered command r st st'
    /\ Py.startswith (Py.strip r) "!ERROR" = false
    /\ nth_error (Py.split (Py.strip r)) 1 = Some token
    /\ float_of_str token = Some x.

End Frames.

(** ** What the two motors and the two scans have in common

    The code has one copy of the positioner and of the scan per motor.
    They are instances of the definitions below, which the proofs work
    on. *)

Section Shapes.

Context {L : Lab} (K : Constants) (cfg : Config).

(** A motor: its status query, its move command and its upper limit. *)
Record motor := {
  status_query : string;
  move_command : string;
  upper_limit : Z
}.

Definition bifi_motor : motor :=
  {| status_query := "MOTBI:STATUS?"; move_command := "MOTBI:POS ";
     upper_limit := BIREFRINGENT_FILTER_UPPER_LIMIT K |}.

Definition thin_etalon_motor : motor :=
  {| status_query := "MOTTE:STATUS?"; move_command := "MOTTE:POS ";
     upper_limit := THIN_ETALON_UPPER_LIMIT K |}.

Definition motor_status (m : motor) (fuel : nat) : M Z :=
  v <- query fuel (status_query m) true true ;;
  x <- as_float v ;;
  ret (Z.land (Py.int_of_float x) 255).

Definition set_motor_pos (m : motor) (fuel : nat) (pos : Z) : M unit :=
  assert ((0 <? pos) && (pos <? upper_limit m))
         "Target motor position out of range." ;;
  wait_until_idle K (motor_status m fuel) fuel ;;
  query fuel (move_command m ++ Py.str_int pos)%string false true ;;
  wait_until_idle K (motor_status m fuel) fuel.

(** The motor answers idle at the [n]-th poll from [st] and not before;
    [st'] is the state after that poll. *)
Inductive idle_after (m : motor) (fuel : nat) : nat -> state -> state -> Prop :=
| idle_now st st' s :
    motor_status m fuel st = (Ok s, st') ->
    s = MOTOR_STATUS_IDLE K ->
    idle_after m fuel 1 st st'
| idle_later st st1 st' s n :
    motor_status m fuel st = (Ok s, st1) ->
    s <> MOTOR_STATUS_IDLE K ->
    idle_after m fuel n st1 st' ->
    idle_after m fuel (S n) st st'.

(** The motor was moved to [pos] between [st] and [st']: it was polled
    until idle ([n1] polls), the move command was sent and answered without
    error, and the motor was polled until idle again ([n2] polls). *)
Definition moved (m : motor) (fuel : nat) (pos : Z) (n1 n2 : nat)
    (st st' : state) : Prop :=
  exists s1 s2 r,
    idle_after m fuel n1 st s1
    /\ answered (move_command m ++ Py.str_int pos)%string r s1 s2
    /\ Py.startswith (Py.strip r) "!ERROR" = false
    /\ idle_after m fuel n2 s2 st'.

(** A scan: its motor, the queries for the position and the signal, its
    range and step, the message of its assertion, the window of its
    smoothing filter, the comparator of its extrema and what it adds to
    the chosen position. *)
Record scan_kind := {
  scan_motor : motor;
  pos_query : string;
  signal_query : string;
  scan_range : Z;
  scan_step : Z;
  invalid : string;
  window_length : Z;
  comparator : Q -> Q -> bool;
  nudged : Z -> Z
}.

Definition bifi_kind : scan_kind :=
  {| scan_motor := bifi_motor; pos_query := "MOTBI:POS?";
     signal_query := "DPOW:DC?";
     scan_range := BIREFRINGENT_SCAN_RANGE K;
     scan_step := BIREFRINGENT_SCAN_STEP K;
     invalid :=
       ("Conditions for BiFi scan invalid. Motor position must be between "
        ++ Py.str_int (BIREFRINGENT_SCAN_RANGE K) ++ " and "
        ++ Py.str_int (BIREFRINGENT_FILTER_UPPER_LIMIT K - BIREFRINGENT_SCAN_RANGE K))%string;
     window_length := 31; comparator := Np.greater;
     nudged := fun p => p |}.

Definition thin_etalon_kind : scan_kind :=
  {| scan_motor := thin_etalon_motor; pos_query := "MOTTE:POS?";
     signal_query := "TE:DC?";
     scan_range := THIN_ETALON_SCAN_RANGE K;
     scan_step := THIN_ETALON_SCAN_STEP K;
     invalid :=
       ("Conditions for thin etalon scan invalid. Motor position must be between "
        ++ Py.str_int (THIN_ETALON_SCAN_RANGE K) ++ " and "
        ++ Py.str_int (THIN_ETALON_UPPER_LIMIT K - THIN_ETALON_SCAN_RANGE K))%string;
     window_length := 41; comparator := Np.less;
     nudged := fun p => p + THIN_ETALON_NUDGE K |}.

(** The window test of a scan around [center_pos]. *)
Definition window_ok (k : scan_kind) (center_pos : Z) : bool :=
  let lower_limit := center_pos - scan_range k in
  let upper_limit' := center_pos + scan_range k in
  (0 <? lower_limit) && (lower_limit <? upper_limit (scan_motor k))
  && ((0 <? upper_limit') && (upper_limit' <? upper_limit (scan_motor k)))
  && (lower_limit <? upper_limit').

(** The analysis and selection of a scan, once the samples are taken and
    the motor is back at the centre. *)
Definition select_extremum (k : scan_kind) (fuel : nat)
    (positions : list Z) (voltages : list Q) : M scan_data :=
  match savgol_filter voltages (window_length k) 3 with
  | None => raise ValueError
  | Some smoothed_data =>
      let extrema := Np.argrelextrema smoothed_data (comparator k) 5 in
      match Np.index_all positions extrema with
      | None => raise IndexError
      | Some candidates =>
          wavelength_differences <-
            measure_extrema (set_motor_pos (scan_motor k) fuel) candidates [] ;;
          match Np.argmin wavelength_differences with
          | None => raise ValueError
          | Some i =>
              match nth_error candidates i with
              | None => raise IndexError
              | Some chosen =>
                  set_motor_pos (scan_motor k) fuel (nudged k chosen) ;;
                  ret {| positions := positions; voltages := voltages;
                         smoothed_data := smoothed_data; extrema := extrema;
                         wavelength_differences := wavelength_differences;
                         best_pos := nudged k chosen |}
              end
          end
      end
  end.

(** The sampling of a scan around [center_pos], which ends with the motor
    back at [center_pos]. *)
Definition sample_window (k : scan_kind) (fuel : nat) (center_pos : Z)
    : M (list Z * list Q) :=
  assert (window_ok k center_pos) (invalid k) ;;
  match Py.range (center_pos - scan_range k) (center_pos + scan_range k)
                 (scan_step k) with
  | None => raise ValueError
  | Some positions =>
      voltages <- sample_scan (set_motor_pos (scan_motor k) fuel)
                    (query fuel (signal_query k) true true) positions [] ;;
      set_motor_pos (scan_motor k) fuel center_pos ;;
      ret (positions, voltages)
  end.

(** The position read at the start of a scan. *)
Definition read_center (k : scan_kind) (fuel : nat) : M Z :=
  v <- query fuel (pos_query k) true true ;;
  x <- as_float v ;;
  ret (Py.int_of_float x).

Definition extremum_scan (k : scan_kind) (fuel : nat) : M scan_data :=
  ensure_target ;;
  center_pos <- read_center k fuel ;;
  pv <- sample_window k fuel center_pos ;;
  select_extremum k fuel (fst pv) (snd pv).

(** A scan up to its choice, before the last move: the centre, the
    position of the extremum chosen and the data of the scan. *)
Definition choose_extremum (k : scan_kind) (fuel : nat)
    (positions : list Z) (voltages : list Q) : M (Z * scan_data) :=
  match savgol_filter voltages (window_length k) 3 with
  | None => raise ValueError
  | Some smoothed_data =>
      let extrema := Np.argrelextrema smoothed_data (comparator k) 5 in
      match Np.index_all positions extrema with
      | None => raise IndexError
      | Some candidates =>
          wavelength_differences <-
            measure_extrema (set_motor_pos (scan_motor k) fuel) candidates [] ;;
          match Np.argmin wavelength_differences with
          | None => raise ValueError
          | Some i =>
              match nth_error candidates i with
              | None => raise IndexError
              | Some chosen =>
                  ret (chosen,
                       {| positions := positions; voltages := voltages;
                          smoothed_data := smoothed_data; extrema := extrema;
                          wavelength_differences := wavelength_differences;
                          best_pos := nudged k chosen |})
              end
          end
      end
  end.

Definition scan_choice (k : scan_kind) (fuel : nat) : M (Z * Z * scan_data) :=
  ensure_target ;;
  center_pos <- read_center k fuel ;;
  pv <- sample_window k fuel center_pos ;;
  cd <- choose_extremum k fuel (fst pv) (snd pv) ;;
  ret (center_pos, fst cd, snd cd).

(** The wavelengths [ws] read at the positions [ps], visited in order
    from [st] to [st']. *)
Inductive measured (move : Z -> M unit) : list Z -> state -> list Q -> state -> Prop :=
| measured_nil st : measured move [] st [] st
| measured_cons pos ps st st1 st2 st' w ws :
    move pos st = (Ok tt, st1) ->
    wavemeter_wavelength st1 = (Ok w, st2) ->
    measured move ps st2 ws st' ->
    measured move (pos :: ps) st (w :: ws) st'.

(** A scan of kind [k] that returns [d] went through these steps, from
    [st] to [st']: the centre was read at [s1], the window sampled up to
    [s2], the motor put back at the centre at [s3], the extrema measured up
    to [s4] and the motor moved to the position chosen. *)
Definition scanned (k : scan_kind) (fuel : nat) (st : state) (d : scan_data)
    (st' : state) (center_pos : Z) (candidates : list Z) (i : nat) (chosen : Z)
    (s3 s4 : state) : Prop :=
  exists s0 x s1 s2,
    ensure_target st = (Ok tt, s0)
    /\ reads (pos_query k) x s0 s1
    /\ center_pos = Py.int_of_float x
    /\ window_ok k center_pos = true
    /\ Py.range (center_pos - scan_range k) (center_pos + scan_range k)
                (scan_step k) = Some (positions d)
    /\ sample_scan (set_motor_pos (scan_motor k) fuel)
         (query fuel (signal_query k) true true) (positions d) [] s1
       = (Ok (voltages d), s2)
    /\ set_motor_pos (scan_motor k) fuel center_pos s2 = (Ok tt, s3)
    /\ savgol_filter (voltages d) (window_length k) 3 = Some (smoothed_data d)
    /\ extrema d = Np.argrelextrema (smoothed_data d) (comparator k) 5
    /\ Np.index_all (positions d) (extrema d) = Some candidates
    /\ measure_extrema (set_motor_pos (scan_motor k) fuel) candidates [] s3
       = (Ok (wavelength_differences d), s4)
    /\ Np.argmin (wavelength_differences d) = Some i
    /\ nth_error candidates i = Some chosen
    /\ best_pos d = nudged k chosen
    /\ set_motor_pos (scan_motor k) fuel (nudged k chosen) s4 = (Ok tt, st').

(** The spec's local extremum: sample [i] has five samples on each side
    at most, at least one on each, and is [better] than every other sample
    at most five places away. *)
Definition local_extremum (better : Q -> Q -> Prop) (data : list Q) (i : nat)
    : Prop :=
  (0 < i)%nat /\ (i + 1 < List.length data)%nat
  /\ forall j, (j < List.length data)%nat -> j <> i ->
               (i <= j + 5)%nat -> (j <= i + 5)%nat ->
               better (nth i data 0%Q) (nth j data 0%Q).

(** The [i]-th of the wavelengths [ws] is as close to [target] as any. *)
Definition closest (target : Q) (ws : list Q) (i : nat) : Prop :=
  exists w,
    nth_error ws i = Some w
    /\ forall w', In w' ws -> (Qabs (w - target) <= Qabs (w' - target))%Q.

(** A piezo at [position] is at a limit: within [offset] of the lower or
    the upper bound, or beyond it. *)
Definition at_limit (lower upper offset position : Q) : Prop :=
  (position <= lower + offset \/ upper - offset <= position)%Q.

(** The state right after the wavemeter was read in [st]. *)
Definition after_reading (st : state) : state :=
  with_trace (trace st ++ [Wavelength])
    (with_world (snd (get_wavelength (world st))) st).

(** The events of [report_event name]. *)
Definition reported (name : string) : list event :=
  if REPORT_EVENTS cfg then [LogEvent name] else [].

(** The drift the stabilization loop computes. *)
Definition drift_of (target current : Q) : Q :=
  Py.round (target - current) (WAVEMETER_PRECISION cfg).

(** The state [Matisse.__init__] leaves. *)
Definition initial (w : World) : state :=
  {| world := w; target_wavelength := None; stabilization_thread := None;
     messages := []; stabilization_auto_corrections := 0; trace := [] |}.

End Shapes.

(** ** A simulated laboratory

    A bench instrument to run the controller on: two motors that take a
    few status polls to settle, a power diode and a reflex diode whose
    signals are functions of the motor positions, three piezo read-outs,
    a wavemeter, and the exact Savitzky-Golay filter. *)

Module Sim.

Record rig := {
  motbi : Z;                       (* position of the birefringent filter *)
  motte : Z;                       (* position of the thin etalon *)
  busy : nat;                      (* polls before the motors are idle *)
  settle : nat;                    (* polls a move takes *)
  power : Z -> Z;                  (* DPOW:DC, by birefringent position *)
  reflex : Z -> Z;                 (* TE:DC, by thin etalon position *)
  refcell : string;                (* SCAN:NOW *)
  slowpiezo : string;              (* SLOWPIEZO:NOW *)
  piezoetalon : string;            (* PIEZOETALON:BASELINE *)
  wavemeter : Z -> Z -> Q;         (* wavelength, by motor positions *)
  faulty : string -> bool;         (* commands answered by an error *)
  scanning : option Z              (* direction of the continuous scan *)
}.

Definition with_busy (n : nat) (w : rig) : rig :=
  {| motbi := motbi w; motte := motte w; busy := n; settle := settle w;
     power := power w; reflex := reflex w; refcell := refcell w;
     slowpiezo := slowpiezo w; piezoetalon := piezoetalon w;
     wavemeter := wavemeter w; faulty := faulty w; scanning := scanning w |}.

Definition move_bifi (p : Z) (w : rig) : rig :=
  {| motbi := p; motte := motte w; busy := settle w; settle := settle w;
     power := power w; reflex := reflex w; refcell := refcell w;
     slowpiezo := slowpiezo w; piezoetalon := piezoetalon w;
     wavemeter := wavemeter w; faulty := faulty w; scanning := scanning w |}.

Definition move_te (p : Z) (w : rig) : rig :=
  {| motbi := motbi w; motte := p; busy := settle w; settle := settle w;
     power := power w; reflex := reflex w; refcell := refcell w;
     slowpiezo := slowpiezo w; piezoetalon := piezoetalon w;
     wavemeter := wavemeter w; faulty := faulty w; scanning := scanning w |}.

Definition with_scanning (d : option Z) (w : rig) : rig :=
  {| motbi := motbi w; motte := motte w; busy := busy w; settle := settle w;
     power := power w; reflex := reflex w; refcell := refcell w;
     slowpiezo := slowpiezo w; piezoetalon := piezoetalon w;
     wavemeter := wavemeter w; faulty := faulty w; scanning := d |}.

(** The argument of a command such as [MOTBI:POS 600]. *)
Fixpoint after_prefix (p s : string) : option string :=
  match p, s with
  | EmptyString, _ => Some s
  | String a p', String b s' => if Ascii.eqb a b then after_prefix p' s' else None
  | String _ _, EmptyString => None
  end.

Definition int_argument (p s : string) : option Z :=
  match after_prefix p s with
  | Some a => option_map Z.of_int (NilZero.int_of_string a)
  | None => None
  end.

(** The status register: 258 when idle and 259 when moving, so that the
    low byte is 2 or 3. *)
Definition status (w : rig) : string * rig :=
  match busy w with
  | O => (":STA: 258", w)
  | S n => (":STA: 259", with_busy n w)
  end.

Definition respond (command : string) (w : rig) : option string * rig :=
  if faulty w command then (Some "!ERROR 5", w)
  else if String.eqb command "MOTBI:STATUS?" then
    let (r, w') := status w in (Some r, w')
  else if String.eqb command "MOTTE:STATUS?" then
    let (r, w') := status w in (Some r, w')
  else if String.eqb command "MOTBI:POS?" then
    (Some (":MOTBI:POS: " ++ Py.str_int (motbi w))%string, w)
  else if String.eqb command "MOTTE:POS?" then
    (Some (":MOTTE:POS: " ++ Py.str_int (motte w))%string, w)
  else if String.eqb command "DPOW:DC?" then
    (Some (":DPOW:DC: " ++ Py.str_int (power w (motbi w)))%string, w)
  else if String.eqb command "TE:DC?" then
    (Some (":TE:DC: " ++ Py.str_int (reflex w (motte w)))%string, w)
  else if String.eqb command "SCAN:NOW?" then
    (Some (":SCAN:NOW: " ++ refcell w)%string, w)
  else if String.eqb command "SLOWPIEZO:NOW?" then
    (Some (":SLOWPIEZO:NOW: " ++ slowpiezo w)%string, w)
  else if String.eqb command "PIEZOETALON:BASELINE?" then
    (Some (":PIEZOETALON:BASELINE: " ++ piezoetalon w)%string, w)
  else
    match int_argument "MOTBI:POS " command, int_argument "MOTTE:POS " command with
    | Some p, _ => (Some "OK", move_bifi p w)
    | None, Some p => (Some "OK", move_te p w)
    | None, None => (Some "OK", w)
    end.

(** Decimal numerals: an optional sign, digits, an optional point and
    digits. *)
Fixpoint split_point (s : string) : string * option string :=
  match s with
  | EmptyString => (EmptyString, None)
  | String c s' =>
      if Ascii.eqb c "." then (EmptyString, Some s')
      else let (a, b) := split_point s' in (String c a, b)
  end.

Definition unsigned_decimal (s : string) : option Q :=
  let (ip, fp) := split_point s in
  let fp := match fp with Some f => f | None => EmptyString end in
  if Py.is_empty ip && Py.is_empty fp then None
  else
    match NilEmpty.uint_of_string ip, NilEmpty.uint_of_string fp with
    | Some i, Some f =>
        Some (Qred (inject_Z (Z.of_uint i)
                    + inject_Z (Z.of_uint f) / inject_Z (10 ^ Z.of_nat (String.length fp))))
    | _, _ => None
    end.

Definition parse_float (s : string) : option Q :=
  match s with
  | String "-" s' => option_map Qopp (unsigned_decimal s')
  | String "+" s' => unsigned_decimal s'
  | _ => unsigned_decimal s
  end.

(** Up to [n] decimals of a fraction in [0, 1). *)
Fixpoint decimals (n : nat) (x : Q) : string :=
  match n with
  | O => EmptyString
  | S n' =>
      let y := Qred (x * 10) in
      let d := Qfloor y in
      let r := Qred (y - inject_Z d) in
      (Py.str_int d ++ (if Qeq_bool r 0 then EmptyString else decimals n' r))%string
  end.

Definition format_float (x : Q) : string :=
  let a := Qabs x in
  let i := Qfloor a in
  ((if Py.Qltb x 0 then "-" else "") ++ Py.str_int i ++ "."
   ++ decimals 17 (Qred (a - inject_Z i)))%string.

#[export] Instance lab : Lab := {|
  World := rig;
  instrument_query := respond;
  get_wavelength := fun w => (wavemeter w (motbi w) (motte w), w);
  scan_control := fun d w => (None, with_scanning d w);
  float_of_str := parse_float;
  str_of_float := format_float;
  savgol_filter := Scipy.savgol_filter
|}.

(** The same rig behind a link that ends every answer with a line feed,
    as a device does when no read termination is set. *)
Definition line_lab : Lab := {|
  World := rig;
  instrument_query := fun command w =>
    let (r, w') := respond command w in
    (option_map (fun answer => answer ++ String (ascii_of_nat 10) "")%string r, w');
  get_wavelength := fun w => (wavemeter w (motbi w) (motte w), w);
  scan_control := fun d w => (None, with_scanning d w);
  float_of_str := parse_float;
  str_of_float := format_float;
  savgol_filter := Scipy.savgol_filter
|}.

(** The constants of a bench: the scan parameters are those of the
    default configuration ([configuration.DEFAULTS]); motors with 50000
    positions; piezos between 0 and 1, reset to the middle. *)
Definition constants : Constants := {|
  BIREFRINGENT_SCAN_RANGE := 400;
  BIREFRINGENT_SCAN_STEP := 4;
  BIREFRINGENT_FILTER_UPPER_LIMIT := 50000;
  THIN_ETALON_SCAN_RANGE := 2000;
  THIN_ETALON_SCAN_STEP := 20;
  THIN_ETALON_UPPER_LIMIT := 50000;
  THIN_ETALON_NUDGE := 50;
  MOTOR_STATUS_IDLE := 2;
  REFERENCE_CELL_LOWER_LIMIT := 0;
  REFERENCE_CELL_UPPER_LIMIT := 1;
  SLOW_PIEZO_LOWER_LIMIT := 0;
  SLOW_PIEZO_UPPER_LIMIT := 1;
  PIEZO_ETALON_LOWER_LIMIT := 0;
  PIEZO_ETALON_UPPER_LIMIT := 1;
  PIEZO_ETALON_CORRECTION_POS := 1 # 2;
  SLOW_PIEZO_CORRECTION_POS := 1 # 2;
  REFCELL_CORRECTION_POS := 1 # 2;
  SCAN_MODE_UP := 0;
  SCAN_MODE_DOWN := 1
|}.

(** The stabilization settings of the default configuration. *)
Definition config : Config := {|
  WAVEMETER_PRECISION := 3;
  STABILIZATION_TOLERANCE := 5 # 10000;
  STABILIZATION_DELAY := 1 # 2;
  STABILIZATION_RISING_SPEED := 5 # 1000;
  STABILIZATION_FALLING_SPEED := 5 # 1000;
  REPORT_EVENTS := false
|}.

(** A bench at rest: motors in the middle, all piezos at mid-range, a
    wavemeter that reads 750 nm plus a picometre per motor step. *)
Definition bench : rig := {|
  motbi := 25000;
  motte := 25000;
  busy := 1;
  settle := 2;
  power := fun p => 1000000 - (p - 25100) * (p - 25100);
  reflex := fun p => (p - 24600) * (p - 24600);
  refcell := "0.5";
  slowpiezo := "0.5";
  piezoetalon := "0.5";
  wavemeter := fun b t => (750 + inject_Z (b - 25000) / 1000)%Q;
  faulty := fun _ => false;
  scanning := None
|}.

(** The bench with the thin etalon one step short of the highest centre
    a scan accepts, and the reflex lowest near the top of the window. *)
Definition edge_bench : rig := {|
  motbi := 25000;
  motte := 47999;
  busy := 1;
  settle := 2;
  power := fun p => 1000000 - (p - 25100) * (p - 25100);
  reflex := fun p => (p - 49959) * (p - 49959);
  refcell := "0.5";
  slowpiezo := "0.5";
  piezoetalon := "0.5";
  wavemeter := fun b t => (750 + inject_Z (b - 25000) / 1000)%Q;
  faulty := fun _ => false;
  scanning := None
|}.

(** The bench with the reference cell close to its upper limit. *)
Definition saturated_bench : rig := {|
  motbi := 25000;
  motte := 25000;
  busy := 1;
  settle := 2;
  power := fun p => 1000000 - (p - 25100) * (p - 25100);
  reflex := fun p => (p - 24600) * (p - 24600);
  refcell := "0.98";
  slowpiezo := "0.5";
  piezoetalon := "0.5";
  wavemeter := fun b t => (750 + inject_Z (b - 25000) / 1000)%Q;
  faulty := fun _ => false;
  scanning := None
|}.

(** The bench with the reference cell driven past its upper limit. *)
Definition overshot_bench : rig := {|
  motbi := 25000;
  motte := 25000;
  busy := 1;
  settle := 2;
  power := fun p => 1000000 - (p - 25100) * (p - 25100);
  reflex := fun p => (p - 24600) * (p - 24600);
  refcell := "1.5";
  slowpiezo := "0.5";
  piezoetalon := "0.5";
  wavemeter := fun b t => (750 + inject_Z (b - 25000) / 1000)%Q;
  faulty := fun _ => false;
  scanning := None
|}.

(** The bench with an instrument that refuses to tell the position of
    the birefringent filter. *)
Definition faulty_bench : rig := {|
  motbi := 25000;
  motte := 25000;
  busy := 1;
  settle := 2;
  power := fun p => 1000000 - (p - 25100) * (p - 25100);
  reflex := fun p => (p - 24600) * (p - 24600);
  refcell := "0.5";
  slowpiezo := "0.5";
  piezoetalon := "0.5";
  wavemeter := fun b t => (750 + inject_Z (b - 25000) / 1000)%Q;
  faulty := String.eqb "MOTBI:POS?";
  scanning := None
|}.

(** A controller fresh from [__init__] on a given rig, and one whose
    target has been set. *)
Definition fresh (w : rig) : state := initial w.

Definition aimed (target : Q) (w : rig) : state :=
  with_target (Some target) (initial w).

(** The value a run has returned, [default] if it has not. *)
Definition returned {A} (default : A) (run : result A * state) : A :=
  match fst run with
  | Ok a => a
  | _ => default
  end.

(** Whether a run has returned. *)
Definition is_ok {A} (run : result A * state) : bool :=
  match fst run with
  | Ok _ => true
  | _ => false
  end.

(** The bench with the thin etalon too low for a scan. *)
Definition low_bench : rig := {|
  motbi := 25000;
  motte := 1500;
  busy := 1;
  settle := 2;
  power := fun p => 1000000 - (p - 25100) * (p - 25100);
  reflex := fun p => (p - 24600) * (p - 24600);
  refcell := "0.5";
  slowpiezo := "0.5";
  piezoetalon := "0.5";
  wavemeter := fun b t => (750 + inject_Z (b - 25000) / 1000)%Q;
  faulty := fun _ => false;
  scanning := None
|}.

Definition no_scan : scan_data :=
  {| positions := []; voltages := []; smoothed_data := []; extrema := [];
     wavelength_differences := []; best_pos := 0 |}.

End Sim.

(** ** The rest of the controller: control loops and lock *)

(** More of Python's [str]: [sub in s], [s.split(sep)] for a separator of
    one character, and [sep.join(parts)]. *)
Module PyStr.

(** [sub in s] *)
Fixpoint contains (sub s : string) : bool :=
  String.prefix sub s
  || match s with
     | EmptyString => false
     | String _ s' => contains sub s'
     end.

(** [s.split(sep)]: the pieces between the separators, empty ones kept;
    never an empty list. *)
Fixpoint split_on (sep : ascii) (s : string) : list string :=
  match s with
  | EmptyString => [EmptyString]
  | String c s' =>
      if Ascii.eqb c sep then EmptyString :: split_on sep s'
      else
        match split_on sep s' with
        | piece :: pieces => String c piece :: pieces
        | [] => [String c EmptyString]
        end
  end.

(** [sep.join(parts)] *)
Fixpoint join (sep : ascii) (parts : list string) : string :=
  match parts with
  | [] => EmptyString
  | [piece] => piece
  | piece :: parts' => (piece ++ String sep (join sep parts'))%string
  end.

End PyStr.

Section ControlLoops.

Context {L : Lab}.

(** ['RUN' in result] and the like, for what [query] has returned. *)
Definition found_in (word : string) (v : pyval) : M bool :=
  match v with
  | Str s => ret (PyStr.contains word s)
  | Num _ => raise TypeError
  end.

(** [Matisse.set_slow_piezo_control] and its three siblings *)
Definition set_slow_piezo_control (fuel : nat) (enable : bool) : M unit :=
  query fuel ("SLOWPIEZO:CONTROLSTATUS " ++ (if enable then "RUN" else "STOP"))%string
        false true ;;
  ret tt.

Definition set_fast_piezo_control (fuel : nat) (enable : bool) : M unit :=
  query fuel ("FASTPIEZO:CONTROLSTATUS " ++ (if enable then "RUN" else "STOP"))%string
        false true ;;
  ret tt.

Definition set_thin_etalon_control (fuel : nat) (enable : bool) : M unit :=
  query fuel ("THINETALON:CONTROLSTATUS " ++ (if enable then "RUN" else "STOP"))%string
        false true ;;
  ret tt.

Definition set_piezo_etalon_control (fuel : nat) (enable : bool) : M unit :=
  query fuel ("PIEZOETALON:CONTROLSTATUS " ++ (if enable then "RUN" else "STOP"))%string
        false true ;;
  ret tt.

(** [Matisse.all_control_loops_on]: a chain of [and], which asks the next
    loop only if the one before runs. *)
Definition all_control_loops_on (fuel : nat) : M bool :=
  a <- query fuel "SLOWPIEZO:CONTROLSTATUS?" false true ;;
  slow <- found_in "RUN" a ;;
  if negb slow then ret false
  else
    b <- query fuel "THINETALON:CONTROLSTATUS?" false true ;;
    thin <- found_in "RUN" b ;;
    if negb thin then ret false
    else
      c <- query fuel "PIEZOETALON:CONTROLSTATUS?" false true ;;
      piezo <- found_in "RUN" c ;;
      if negb piezo then ret false
      else
        d <- query fuel "FASTPIEZO:CONTROLSTATUS?" false true ;;
        found_in "RUN" d.

(** [Matisse.fast_piezo_locked] *)
Definition fast_piezo_locked (fuel : nat) : M bool :=
  v <- query fuel "FASTPIEZO:LOCK?" false true ;;
  found_in "TRUE" v.

(** [Matisse.laser_locked] *)
Definition laser_locked (fuel : nat) : M bool :=
  loops <- all_control_loops_on fuel ;;
  if loops then fast_piezo_locked fuel else ret false.

(** The control loop whose status query is [command] was found running
    between [st] and [st']: one exchange, answered without error by a
    response that contains ['RUN']. *)
Definition runs (command : string) (st st' : state) : Prop :=
  exists r,
    answered command r st st'
    /\ Py.startswith (Py.strip r) "!ERROR" = false
    /\ PyStr.contains "RUN" (Py.strip r) = true.

(** It was found not running. *)
Definition halted (command : string) (st st' : state) : Prop :=
  exists r,
    answered command r st st'
    /\ Py.startswith (Py.strip r) "!ERROR" = false
    /\ PyStr.contains "RUN" (Py.strip r) = false.

End ControlLoops.

(** ** What a method may raise *)

Section Outcomes.

Context {L : Lab}.

(** Every exception the method raises satisfies [P]. *)
Definition raises_only {A} (P : exn -> Prop) (m : M A) : Prop :=
  forall st e st', m st = (Raise e, st') -> P e.

(** The exception is not a failed assertion. *)
Definition not_assertion (e : exn) : Prop := forall msg, e <> AssertionError msg.

(** What a turn of the stabilization loop keeps: the queue is as it
    was, and the counter of corrections is as it was or one more. *)
Definition turn_kept (st st' : state) : Prop :=
  messages st' = messages st
  /\ (stabilization_auto_corrections st' = stabilization_auto_corrections st
      \/ stabilization_auto_corrections st' = stabilization_auto_corrections st + 1).

(** The message of the [RuntimeError] that [query] raises for [command]
    when the instrument reports [codes]. *)
Definition error_message (command codes : string) : string :=
  ("Error executing Matisse command '" ++ command ++ "' " ++ codes)%string.

End Outcomes.

(** ** The configuration ([config/configuration.py])

    The configuration is a tree of dictionaries, as [json.load] and
    [copy.deepcopy] build it: no dictionary is shared between two places.
    A dictionary is the list of its items in insertion order. Numbers,
    whether [int] or [float], are rationals. *)

Module Configuration.

#[local] Unset Elimination Schemes.

Inductive value :=
| Null                                   (* None *)
| Bool (b : bool)
| Num (x : Q)
| Text (s : string)
| Array (items : list value)
| Dict (items : list (string * value)).

#[local] Set Elimination Schemes.

Inductive error :=
| KeyError (key : string)
| TypeError
| AttributeError.

(** [d[key]] and [d.get(key)] on the items of a dictionary. *)
Fixpoint lookup (key : string) (items : list (string * value)) : option value :=
  match items with
  | [] => None
  | (k, v) :: items' => if String.eqb key k then Some v else lookup key items'
  end.

(** [d[key] = v] on the items of a dictionary: a key that is there keeps
    its place, a new one goes to the end. *)
Fixpoint store (key : string) (v : value) (items : list (string * value))
    : list (string * value) :=
  match items with
  | [] => [(key, v)]
  | (k, old) :: items' =>
      if String.eqb key k then (k, v) :: items'
      else (k, old) :: store key v items'
  end.

(** [operator.getitem(node, key)] for a [str] key: only a dictionary can
    be indexed by one. *)
Definition getitem (node : value) (key : string) : error + value :=
  match node with
  | Dict items =>
      match lookup key items with
      | Some v => inr v
      | None => inl (KeyError key)
      end
  | _ => inl TypeError
  end.

(** [reduce(operator.getitem, keys, node)] *)
Fixpoint reduce_getitem (keys : list string) (node : value) : error + value :=
  match keys with
  | [] => inr node
  | key :: keys' =>
      match getitem node key with
      | inr child => reduce_getitem keys' child
      | inl e => inl e
      end
  end.

(** [get(name)], on the configuration [conf] *)
Definition get (name : string) (conf : value) : error + value :=
  reduce_getitem (PyStr.split_on "." name) conf.

(** The loop and the assignment of [set], from the node [cfg] stands
    for: [for key in keys: cfg = cfg.get(key)], then [cfg[last] = v]. The
    result is the node after the assignment, which Python makes in place.
    Only a dictionary has [get]; a missing key gives [None], on which the
    next step fails. *)
Fixpoint assign (keys : list string) (last : string) (v : value) (node : value)
    : error + value :=
  match keys with
  | [] =>
      match node with
      | Dict items => inr (Dict (store last v items))
      | _ => inl TypeError
      end
  | key :: keys' =>
      match node with
      | Dict items =>
          let child := match lookup key items with
                       | Some c => c
                       | None => Null
                       end in
          match assign keys' last v child with
          | inr child' => inr (Dict (store key child' items))
          | inl e => inl e
          end
      | _ => inl AttributeError
      end
  end.

(** [set(name, value)], on the configuration [conf]: the configuration
    after it, or the exception, which leaves the configuration as it was. *)
Definition set (name : string) (v : value) (conf : value) : error + value :=
  let keys := PyStr.split_on "." name in
  assign (removelast keys) (last keys EmptyString) v conf.

(** [DEFAULTS] *)
Definition DEFAULTS : value :=
  Dict [
    ("matisse", Dict [
      ("device_id", Text "USB0::0x17E7::0x0102::07-40-01::INSTR");
      ("wavelength", Dict [
        ("lower_limit", Num 700);
        ("upper_limit", Num 800)]);
      ("scanning", Dict [
        ("birefringent_filter", Dict [
          ("range", Num 400);
          ("range_small", Num 200);
          ("step", Num 4);
          ("show_plots", Bool true);
          ("smoothing_filter", Dict [
            ("window", Num 31);
            ("polyorder", Num 3)])]);
        ("thin_etalon", Dict [
          ("range", Num 2000);
          ("range_small", Num 1000);
          ("step", Num 20);
          ("nudge", Num 50);
          ("show_plots", Bool true);
          ("smoothing_filter", Dict [
            ("window", Num 21);
            ("polyorder", Num 3)])]);
        ("refcell", Dict [
          ("rising_speed", Num (5 # 1000));
          ("falling_speed", Num (5 # 1000))]);
        ("wavelength_drift", Dict [
          ("large", Num (3 # 10));
          ("medium", Num (1 # 10));
          ("small", Num (2 # 100))])]);
      ("locking", Dict [
        ("timeout", Num 7)]);
      ("stabilization", Dict [
        ("rising_speed", Num (5 # 1000));
        ("falling_speed", Num (5 # 1000));
        ("delay", Num (5 # 10));
        ("tolerance", Num (5 # 10000))]);
      ("correction", Dict [
        ("piezo_etalon_pos_upper", Num (8 # 10));
        ("slow_piezo_pos_upper", Num (5 # 10));
        ("refcell_pos_upper", Num (5 # 10));
        ("piezo_etalon_pos_mid", Num 0);
        ("slow_piezo_pos_mid", Num (35 # 100));
        ("refcell_pos_mid", Num (35 # 100));
        ("piezo_etalon_pos_lower", Num (-8 # 10));
        ("slow_piezo_pos_lower", Num (2 # 10));
        ("refcell_pos_lower", Num (2 # 10))])]);
    ("wavemeter", Dict [
      ("port", Text "COM5");
      ("precision", Num 3)]);
    ("gui", Dict [])].

(** [restore_defaults()]: the configuration is a copy of the defaults. *)
Definition restore_defaults (conf : value) : value := DEFAULTS.

End Configuration.

(** ** Instruments for the examples *)

Module Script.

(** An instrument that reads its answers from a script, whatever it is
    asked, and is out of reach when the script is over. *)
Definition lab : Lab := {|
  World := list string;
  instrument_query := fun _ script =>
    match script with
    | answer :: script' => (Some answer, script')
    | [] => (None, [])
    end;
  get_wavelength := fun script => (750%Q, script);
  scan_control := fun _ script => (None, script);
  float_of_str := Sim.parse_float;
  str_of_float := Sim.format_float;
  savgol_filter := Scipy.savgol_filter
|}.

(** An instrument that answers everything with an error. *)
Definition deaf : Lab := {|
  World := unit;
  instrument_query := fun _ w => (Some "!ERROR 9", w);
  get_wavelength := fun w => (750%Q, w);
  scan_control := fun _ w => (None, w);
  float_of_str := Sim.parse_float;
  str_of_float := Sim.format_float;
  savgol_filter := Scipy.savgol_filter
|}.

(** The constants of the bench with shorter scans: 62 positions of the
    birefringent filter and 42 of the thin etalon, enough for the windows
    of the smoothing filters. *)
Definition short_scans : Constants := {|
  BIREFRINGENT_SCAN_RANGE := 124;
  BIREFRINGENT_SCAN_STEP := 4;
  BIREFRINGENT_FILTER_UPPER_LIMIT := 50000;
  THIN_ETALON_SCAN_RANGE := 420;
  THIN_ETALON_SCAN_STEP := 20;
  THIN_ETALON_UPPER_LIMIT := 50000;
  THIN_ETALON_NUDGE := 50;
  MOTOR_STATUS_IDLE := 2;
  REFERENCE_CELL_LOWER_LIMIT := 0;
  REFERENCE_CELL_UPPER_LIMIT := 1;
  SLOW_PIEZO_LOWER_LIMIT := 0;
  SLOW_PIEZO_UPPER_LIMIT := 1;
  PIEZO_ETALON_LOWER_LIMIT := 0;
  PIEZO_ETALON_UPPER_LIMIT := 1;
  PIEZO_ETALON_CORRECTION_POS := 1 # 2;
  SLOW_PIEZO_CORRECTION_POS := 1 # 2;
  REFCELL_CORRECTION_POS := 1 # 2;
  SCAN_MODE_UP := 0;
  SCAN_MODE_DOWN := 1
|}.

(** A bench whose reflex falls steadily as the thin etalon moves up: no
    minimum inside any window. *)
Definition ramp_bench : Sim.rig := {|
  Sim.motbi := 25000;
  Sim.motte := 25000;
  Sim.busy := 1;
  Sim.settle := 2;
  Sim.power := fun p => 1000000 - (p - 25100) * (p - 25100);
  Sim.reflex := fun p => 60000 - p;
  Sim.refcell := "0.5";
  Sim.slowpiezo := "0.5";
  Sim.piezoetalon := "0.5";
  Sim.wavemeter := fun b t => (750 + inject_Z (b - 25000) / 1000)%Q;
  Sim.faulty := fun _ => false;
  Sim.scanning := None
|}.

End Script.

(** * Properties *)

(** ** The built-ins on examples *)

Example strip_ex :
  Py.strip (" !ERROR 5" ++ String (ascii_of_nat 10) "")%string = "!ERROR 5".
Proof. reflexivity. Qed.

Example split_ex : Py.split ":MOTBI:POS:  1000 " = [":MOTBI:POS:"; "1000"].
Proof. reflexivity. Qed.

Example str_int_ex :
  Py.str_int 600 = "600" /\ Py.str_int (-5) = "-5" /\ Py.str_int 0 = "0".
Proof. repeat split; reflexivity. Qed.

Example round_ex :
  Py.round (-7 # 2000) 3 = (-1 # 250)%Q /\ Py.round (5 # 2000) 3 = (1 # 500)%Q.
Proof. split; reflexivity. Qed.

Example range_ex :
  Py.range 3 10 3 = Some [3; 6; 9] /\ Py.range 10 3 (-3) = Some [10; 7; 4]
  /\ Py.range 3 3 1 = Some [].
Proof. repeat split; reflexivity. Qed.

(** The example of scipy's documentation of [savgol_filter]. *)
Example savgol_ex :
  Scipy.savgol_filter (map inject_Z [2; 2; 5; 2; 1; 0; 1; 4; 9]) 5 2
  = Some [58 # 35; 111 # 35; 124 # 35; 20 # 7; 23 # 35; 6 # 35; 1; 4; 9]%Q.
Proof. vm_compute. reflexivity. Qed.

(** ** The monad *)

Section MonadFacts.

Context {L : Lab}.

Lemma bind_Ok {A B} (m : M A) (k : A -> M B) st b st' :
  (x <- m ;; k x) st = (Ok b, st') ->
  exists a s1, m st = (Ok a, s1) /\ k a s1 = (Ok b, st').
Proof.
  unfold bind. destruct (m st) as [[a | e |] s1]; intros H; try discriminate.
  exists a, s1. split; [reflexivity | exact H].
Qed.

Lemma bind_cases {A B} (m : M A) (k : A -> M B) st r st' :
  (x <- m ;; k x) st = (r, st') ->
  (exists a s1, m st = (Ok a, s1) /\ k a s1 = (r, st'))
  \/ (exists e, m st = (Raise e, st') /\ r = Raise e)
  \/ (m st = (Timeout, st') /\ r = Timeout).
Proof.
  unfold bind. destruct (m st) as [[a | e |] s1]; intros H.
  - left. exists a, s1. split; [reflexivity | exact H].
  - right. left. exists e. inversion H. subst. split; reflexivity.
  - right. right. inversion H. subst. split; reflexivity.
Qed.

Lemma bind_run {A B} (m : M A) (k : A -> M B) st a s1 :
  m st = (Ok a, s1) -> (x <- m ;; k x) st = k a s1.
Proof. unfold bind. intros ->. reflexivity. Qed.

Lemma bind_assoc {A B C} (m : M A) (f : A -> M B) (g : B -> M C) st :
  (y <- (x <- m ;; f x) ;; g y) st = (x <- m ;; y <- f x ;; g y) st.
Proof. unfold bind. destruct (m st) as [[a | e |] s1]; reflexivity. Qed.

Lemma bind_ret_l {A B} (a : A) (f : A -> M B) st :
  (x <- ret a ;; f x) st = f a st.
Proof. reflexivity. Qed.

Lemma bind_raise_l {A B} (e : exn) (f : A -> M B) st :
  (x <- raise e ;; f x) st = raise e st.
Proof. reflexivity. Qed.

Lemma bind_ext {A B} (m : M A) (f g : A -> M B) st :
  (forall a s, f a s = g a s) ->
  (x <- m ;; f x) st = (x <- m ;; g x) st.
Proof.
  intros H. unfold bind. destruct (m st) as [[a | e |] s1]; auto.
Qed.

Lemma keeps_bind {A B} (P : state -> state -> Prop) (m : M A) (k : A -> M B) :
  (forall a b c, P a b -> P b c -> P a c) ->
  keeps P m -> (forall a, keeps P (k a)) -> keeps P (x <- m ;; k x).
Proof.
  intros HT Hm Hk st r st' H.
  destruct (bind_cases _ _ _ _ _ H) as [(a & s1 & H1 & H2) | [(e & H1 & _) | (H1 & _)]].
  - eapply HT; [eapply Hm, H1 | eapply Hk, H2].
  - eapply Hm, H1.
  - eapply Hm, H1.
Qed.

Lemma keeps_ret {A} (P : state -> state -> Prop) (a : A) :
  (forall s, P s s) -> keeps P (ret a).
Proof. intros HR st r st' H. inversion H. apply HR. Qed.

Lemma keeps_raise {A} (P : state -> state -> Prop) (e : exn) :
  (forall s, P s s) -> keeps P (@raise L A e).
Proof. intros HR st r st' H. inversion H. apply HR. Qed.

Lemma keeps_timeout {A} (P : state -> state -> Prop) :
  (forall s, P s s) -> keeps P (@timeout L A).
Proof. intros HR st r st' H. inversion H. apply HR. Qed.

Lemma keeps_assert (P : state -> state -> Prop) c msg :
  (forall s, P s s) -> keeps P (assert c msg).
Proof.
  intros HR. unfold assert. destruct c; [apply keeps_ret | apply keeps_raise]; exact HR.
Qed.

Lemma keeps_as_float (P : state -> state -> Prop) v :
  (forall s, P s s) -> keeps P (as_float v).
Proof.
  intros HR. destruct v; [apply keeps_raise | apply keeps_ret]; exact HR.
Qed.

End MonadFacts.

(** ** The instrument link *)

Section QueryFacts.

Context {L : Lab}.

Lemma frame_refl st : frame st st.
Proof. unfold frame. auto. Qed.

Lemma frame_trans a b c : frame a b -> frame b c -> frame a c.
Proof.
  unfold frame. intros (H1 & H2 & H3 & H4) (G1 & G2 & G3 & G4).
  repeat split; try congruence. auto.
Qed.

Lemma trace_grows_refl st : trace_grows st st.
Proof. exists []. symmetry. apply app_nil_r. Qed.

Lemma trace_grows_trans a b c : trace_grows a b -> trace_grows b c -> trace_grows a c.
Proof.
  intros [e1 H1] [e2 H2]. exists (e1 ++ e2). rewrite H2, H1. symmetry. apply app_assoc.
Qed.

Lemma answered_frame command r st st' : answered command r st st' -> frame st st'.
Proof. intros (w & _ & ->). unfold frame. simpl. auto. Qed.

Lemma answered_trace command r st st' :
  answered command r st st' -> trace st' = trace st ++ [Query command].
Proof. intros (w & _ & ->). reflexivity. Qed.

Lemma reads_frame command x st st' : reads command x st st' -> frame st st'.
Proof. intros (r & t & H & _). eapply answered_frame, H. Qed.

Lemma reads_trace command x st st' :
  reads command x st st' -> trace st' = trace st ++ [Query command].
Proof. intros (r & t & H & _). eapply answered_trace, H. Qed.

Lemma visa_query_Ok command st r st' :
  visa_query command st = (Ok r, st') <-> answered command r st st'.
Proof.
  unfold visa_query, answered. destruct (instrument_query command (world st)) as [[s |] w]; split.
  - intros H. inversion H. subst. exists w. split; reflexivity.
  - intros (w' & H & ->). inversion H. reflexivity.
  - discriminate.
  - intros (w' & H & _). discriminate.
Qed.

Lemma visa_query_frame command : keeps frame (visa_query command).
Proof.
  intros st r st'. unfold visa_query.
  destruct (instrument_query command (world st)) as [[s |] w];
    intros H; inversion H; subst; unfold frame; simpl; auto.
Qed.

Lemma visa_query_trace command st r st' :
  visa_query command st = (r, st') -> trace st' = trace st ++ [Query command].
Proof.
  unfold visa_query. destruct (instrument_query command (world st)) as [[s |] w];
    intros H; inversion H; reflexivity.
Qed.

(** With [raise_on_error] set, an error response never makes [query]
    return. *)
Lemma error_branch_not_Ok fuel (codes_k : pyval -> M pyval) st v st' :
  (forall c s a s', codes_k c s <> (Ok a, s')) ->
  (err_codes <- query fuel "ERROR:CODE?" false true ;;
   query fuel "ERROR:CLEAR" false true ;;
   codes_k err_codes) st <> (Ok v, st').
Proof.
  intros Hk H.
  apply bind_Ok in H. destruct H as (a & s1 & _ & H).
  apply bind_Ok in H. destruct H as (b & s2 & _ & H).
  exact (Hk _ _ _ _ H).
Qed.

(** What [query] returns, and after which exchange. *)
Lemma query_Ok fuel command numeric_result raise_on_error st v st' :
  query fuel command numeric_result raise_on_error st = (Ok v, st') ->
  exists r,
    answered command r st st'
    /\ (if Py.startswith (Py.strip r) "!ERROR"
        then raise_on_error = false /\ v = Str (Py.strip r)
        else if numeric_result
             then exists token x,
                 nth_error (Py.split (Py.strip r)) 1 = Some token
                 /\ float_of_str token = Some x /\ v = Num x
             else v = Str (Py.strip r)).
Proof.
  destruct fuel as [| fuel]; [discriminate |].
  cbn [query]. intros H.
  apply bind_Ok in H. destruct H as (r & s1 & Hq & H).
  apply visa_query_Ok in Hq.
  destruct (Py.startswith (Py.strip r) "!ERROR") eqn:He.
  - destruct raise_on_error.
    + exfalso. revert H. apply error_branch_not_Ok.
      intros [c | c] s a s' Hc; discriminate Hc.
    + inversion H. subst. exists r. rewrite He. auto.
  - destruct numeric_result.
    + destruct (nth_error (Py.split (Py.strip r)) 1) as [token |] eqn:Ht; [| discriminate].
      destruct (float_of_str token) as [x |] eqn:Hx; [| discriminate].
      inversion H. subst. exists r. rewrite He. split; [exact Hq |].
      exists token, x. auto.
    + inversion H. subst. exists r. rewrite He. auto.
Qed.

(** A numeric query that may raise returns a float it has read. *)
Lemma query_reads fuel command st v st' :
  query fuel command true true st = (Ok v, st') ->
  exists x, v = Num x /\ reads command x st st'.
Proof.
  intros H. apply query_Ok in H. destruct H as (r & Ha & H).
  destruct (Py.startswith (Py.strip r) "!ERROR") eqn:He.
  - destruct H. discriminate.
  - destruct H as (token & x & Ht & Hx & ->). exists x. split; [reflexivity |].
    exists r, token. auto.
Qed.

Lemma reads_query fuel command x st st' :
  reads command x st st' ->
  query (S fuel) command true true st = (Ok (Num x), st').
Proof.
  intros (r & token & Ha & He & Ht & Hx).
  apply visa_query_Ok in Ha. cbn [query].
  rewrite (bind_run _ _ _ _ _ Ha). rewrite He, Ht, Hx. reflexivity.
Qed.

(** A command that may raise returns after one exchange. *)
Lemma query_command_Ok fuel command st v st' :
  query fuel command false true st = (Ok v, st') ->
  exists r, answered command r st st'.
Proof.
  intros H. apply query_Ok in H. destruct H as (r & Ha & _). eauto.
Qed.

Lemma query_frame fuel : forall command numeric_result raise_on_error,
  keeps frame (query fuel command numeric_result raise_on_error).
Proof.
  induction fuel as [| fuel IH]; intros command numeric_result raise_on_error.
  - apply keeps_timeout, frame_refl.
  - cbn [query]. apply keeps_bind; [exact frame_trans | apply visa_query_frame |].
    intros r. destruct (Py.startswith (Py.strip r) "!ERROR").
    + destruct raise_on_error; [| apply keeps_ret, frame_refl].
      apply keeps_bind; [exact frame_trans | apply IH |]. intros c.
      apply keeps_bind; [exact frame_trans | apply IH |]. intros _.
      destruct c; apply keeps_raise, frame_refl.
    + destruct numeric_result; [| apply keeps_ret, frame_refl].
      destruct (nth_error (Py.split (Py.strip r)) 1); [| apply keeps_raise, frame_refl].
      destruct (float_of_str s); [apply keeps_ret | apply keeps_raise]; apply frame_refl.
Qed.

(** Whatever every exchange with the instrument keeps, [query] keeps. *)
Lemma query_keeps (P : state -> state -> Prop) :
  (forall s, P s s) -> (forall a b c, P a b -> P b c -> P a c) ->
  (forall command, keeps P (visa_query command)) ->
  forall fuel command numeric_result raise_on_error,
    keeps P (query fuel command numeric_result raise_on_error).
Proof.
  intros HR HT HV.
  induction fuel as [| fuel IH]; intros command numeric_result raise_on_error.
  - apply keeps_timeout, HR.
  - cbn [query]. apply keeps_bind; [exact HT | apply HV |].
    intros r. destruct (Py.startswith (Py.strip r) "!ERROR").
    + destruct raise_on_error; [| apply keeps_ret, HR].
      apply keeps_bind; [exact HT | apply IH |]. intros c.
      apply keeps_bind; [exact HT | apply IH |]. intros _.
      destruct c; apply keeps_raise, HR.
    + destruct numeric_result; [| apply keeps_ret, HR].
      destruct (nth_error (Py.split (Py.strip r)) 1); [| apply keeps_raise, HR].
      destruct (float_of_str s); [apply keeps_ret | apply keeps_raise]; apply HR.
Qed.

Lemma untouched_refl st : untouched st st.
Proof. unfold untouched. auto. Qed.

Lemma untouched_trans a b c : untouched a b -> untouched b c -> untouched a c.
Proof.
  unfold untouched. intros (H1 & H2 & H3 & H4) (G1 & G2 & G3 & G4).
  repeat split; congruence.
Qed.

Lemma query_untouched fuel command numeric_result raise_on_error :
  keeps untouched (query fuel command numeric_result raise_on_error).
Proof.
  apply query_keeps; [exact untouched_refl | exact untouched_trans |].
  clear. intros command st r st'. unfold visa_query.
  destruct (instrument_query command (world st)) as [[s |] w];
    intros H; inversion H; subst; unfold untouched; simpl; auto.
Qed.

Lemma query_trace_grows fuel : forall command numeric_result raise_on_error,
  keeps trace_grows (query fuel command numeric_result raise_on_error).
Proof.
  induction fuel as [| fuel IH]; intros command numeric_result raise_on_error.
  - apply keeps_timeout, trace_grows_refl.
  - cbn [query]. apply keeps_bind; [exact trace_grows_trans | |].
    + intros st r st' H. exists [Query command]. eapply visa_query_trace, H.
    + intros r. destruct (Py.startswith (Py.strip r) "!ERROR").
      * destruct raise_on_error; [| apply keeps_ret, trace_grows_refl].
        apply keeps_bind; [exact trace_grows_trans | apply IH |]. intros c.
        apply keeps_bind; [exact trace_grows_trans | apply IH |]. intros _.
        destruct c; apply keeps_raise, trace_grows_refl.
      * destruct numeric_result; [| apply keeps_ret, trace_grows_refl].
        destruct (nth_error (Py.split (Py.strip r)) 1); [| apply keeps_raise, trace_grows_refl].
        destruct (float_of_str s); [apply keeps_ret | apply keeps_raise]; apply trace_grows_refl.
Qed.

End QueryFacts.

Section LinkClaims.

Context {L : Lab}.

Lemma answered_unique command r1 r2 s s1 s2 :
  answered command r1 s s1 -> answered command r2 s s2 -> r1 = r2 /\ s1 = s2.
Proof.
  intros (w1 & H1 & ->) (w2 & H2 & ->). rewrite H1 in H2. inversion H2. auto.
Qed.

Lemma startswith_error_lstrip r :
  Py.startswith r "!ERROR" = true -> Py.lstrip r = r.
Proof.
  unfold Py.startswith. destruct r as [| c r]; [reflexivity |].
  cbn [String.prefix]. destruct (ascii_dec "!" c) as [<- | _]; [| discriminate].
  reflexivity.
Qed.

(** C10, amended. When the response of the instrument to a command, as [query]
    holds it (stripped of surrounding whitespace), starts with ['!ERROR'] and
    [raise_on_error] is false, [query] returns that string, whatever
    [numeric_result] is: no float is made of it. A response that starts with
    ['!ERROR'] and ends without whitespace is returned as it came. And
    whenever [query] returns a float, the response was not an error,
    [numeric_result] was set and the float is the second token of the
    response. *)
Theorem query_error_response_not_converted
    fuel command numeric_result st r st' :
  answered command r st st' ->
  (Py.startswith (Py.strip r) "!ERROR" = true ->
   query (S fuel) command numeric_result false st = (Ok (Str (Py.strip r)), st'))
  /\ (Py.startswith r "!ERROR" = true -> Py.rstrip r = r ->
      query (S fuel) command numeric_result false st = (Ok (Str r), st'))
  /\ (forall raise_on_error x st'',
        query (S fuel) command numeric_result raise_on_error st = (Ok (Num x), st'') ->
        Py.startswith (Py.strip r) "!ERROR" = false
        /\ numeric_result = true
        /\ exists token,
             nth_error (Py.split (Py.strip r)) 1 = Some token
             /\ float_of_str token = Some x).
Proof.
  intros Ha.
  assert (G : Py.startswith (Py.strip r) "!ERROR" = true ->
              query (S fuel) command numeric_result false st
              = (Ok (Str (Py.strip r)), st')).
  { intros He. pose proof (proj2 (visa_query_Ok _ _ _ _) Ha) as Hv. cbn [query].
    rewrite (bind_run _ _ _ _ _ Hv). rewrite He. reflexivity. }
  split; [exact G |]. split.
  - intros He Hr.
    assert (Es : Py.strip r = r).
    { unfold Py.strip. rewrite (startswith_error_lstrip r He). exact Hr. }
    pose proof G as G'. rewrite Es in G'. apply G'. exact He.
  - intros raise_on_error x st'' H.
    apply query_Ok in H. destruct H as (r' & Ha' & H).
    destruct (answered_unique _ _ _ _ _ _ Ha Ha') as [<- _].
    destruct (Py.startswith (Py.strip r) "!ERROR").
    + destruct H as [_ H]. discriminate.
    + destruct numeric_result; [| discriminate].
      destruct H as (token & x' & Ht & Hx & Hv). inversion Hv. subst x'.
      repeat split. exists token. auto.
Qed.

End LinkClaims.

(** ** The limit checker *)

Lemma Qltb_lt x y : Py.Qltb x y = true <-> (x < y)%Q.
Proof.
  unfold Py.Qltb. rewrite negb_true_iff. split.
  - intros H. apply Qnot_le_lt. intros Hle. apply Qle_bool_iff in Hle. congruence.
  - intros H. destruct (Qle_bool y x) eqn:E; [| reflexivity].
    apply Qle_bool_iff in E. exfalso. exact (Qlt_not_le _ _ H E).
Qed.

Lemma Qltb_ge x y : Py.Qltb x y = false <-> (y <= x)%Q.
Proof.
  unfold Py.Qltb. rewrite negb_false_iff. apply Qle_bool_iff.
Qed.

Lemma strictly_inside_iff lower upper offset position :
  Py.Qltb (lower + offset) position && Py.Qltb position (upper - offset) = false
  <-> at_limit lower upper offset position.
Proof.
  unfold at_limit. rewrite andb_false_iff, !Qltb_ge. reflexivity.
Qed.

(** Between its bounds, a position is at a limit exactly when it is at
    most [offset] away from one of them. *)
Lemma at_limit_distance lower upper offset position :
  (0 <= offset)%Q ->
  (lower <= position <= upper)%Q ->
  at_limit lower upper offset position
  <-> (Qabs (position - lower) <= offset \/ Qabs (position - upper) <= offset)%Q.
Proof.
  intros Ho [Hl Hu]. unfold at_limit. rewrite !Qabs_Qle_condition.
  split.
  - intros [H | H]; [left | right]; split; lra.
  - intros [[H1 H2] | [H1 H2]]; [left | right]; lra.
Qed.

Section LimitChecker.

Context {L : Lab} (K : Constants).

Lemma is_any_limit_reached_frame fuel : keeps frame (is_any_limit_reached K fuel).
Proof.
  unfold is_any_limit_reached.
  repeat (apply keeps_bind; [exact frame_trans | first [apply query_frame | apply keeps_as_float, frame_refl] | intros ?]).
  apply keeps_ret, frame_refl.
Qed.

(** What the limit checker has done when it returns. *)
Lemma is_any_limit_reached_Ok fuel st b st' :
  is_any_limit_reached K fuel st = (Ok b, st') ->
  exists refcell_pos slow_pz_pos pz_eta_pos s1 s2,
    reads "SCAN:NOW?" refcell_pos st s1
    /\ reads "SLOWPIEZO:NOW?" slow_pz_pos s1 s2
    /\ reads "PIEZOETALON:BASELINE?" pz_eta_pos s2 st'
    /\ (b = true <->
        at_limit (REFERENCE_CELL_LOWER_LIMIT K) (REFERENCE_CELL_UPPER_LIMIT K)
                 (5 # 100) refcell_pos
        \/ at_limit (SLOW_PIEZO_LOWER_LIMIT K) (SLOW_PIEZO_UPPER_LIMIT K)
                    (5 # 100) slow_pz_pos
        \/ at_limit (PIEZO_ETALON_LOWER_LIMIT K) (PIEZO_ETALON_UPPER_LIMIT K)
                    (5 # 100) pz_eta_pos)
    /\ ((REFERENCE_CELL_LOWER_LIMIT K + (5 # 100) < refcell_pos
         /\ refcell_pos < REFERENCE_CELL_UPPER_LIMIT K - (5 # 100))%Q ->
        (SLOW_PIEZO_LOWER_LIMIT K + (5 # 100) < slow_pz_pos
         /\ slow_pz_pos < SLOW_PIEZO_UPPER_LIMIT K - (5 # 100))%Q ->
        (PIEZO_ETALON_LOWER_LIMIT K + (5 # 100) < pz_eta_pos
         /\ pz_eta_pos < PIEZO_ETALON_UPPER_LIMIT K - (5 # 100))%Q ->
        b = false)
    /\ ((REFERENCE_CELL_LOWER_LIMIT K + (1 # 10) < REFERENCE_CELL_UPPER_LIMIT K
         /\ refcell_pos
            == (REFERENCE_CELL_LOWER_LIMIT K + REFERENCE_CELL_UPPER_LIMIT K) / 2)%Q ->
        (SLOW_PIEZO_LOWER_LIMIT K + (1 # 10) < SLOW_PIEZO_UPPER_LIMIT K
         /\ slow_pz_pos
            == (SLOW_PIEZO_LOWER_LIMIT K + SLOW_PIEZO_UPPER_LIMIT K) / 2)%Q ->
        (PIEZO_ETALON_LOWER_LIMIT K + (1 # 10) < PIEZO_ETALON_UPPER_LIMIT K
         /\ pz_eta_pos
            == (PIEZO_ETALON_LOWER_LIMIT K + PIEZO_ETALON_UPPER_LIMIT K) / 2)%Q ->
        b = false)
    /\ trace st' = trace st ++ [Query "SCAN:NOW?"; Query "SLOWPIEZO:NOW?";
                                Query "PIEZOETALON:BASELINE?"]
    /\ stabilization_thread st' = stabilization_thread st
    /\ messages st' = messages st
    /\ stabilization_auto_corrections st' = stabilization_auto_corrections st
    /\ target_wavelength st' = target_wavelength st.
Proof.
  intros H. unfold is_any_limit_reached in H.
  apply bind_Ok in H. destruct H as (a & s1 & Ha & H).
  apply bind_Ok in H. destruct H as (b' & s2 & Hb & H).
  apply bind_Ok in H. destruct H as (c & s3 & Hc & H).
  apply query_reads in Ha. destruct Ha as (p1 & -> & Ha).
  apply query_reads in Hb. destruct Hb as (p2 & -> & Hb).
  apply query_reads in Hc. destruct Hc as (p3 & -> & Hc).
  cbn in H. inversion H. subst st'. clear H.
  set (i1 := Py.Qltb (REFERENCE_CELL_LOWER_LIMIT K + (5 # 100)) p1
             && Py.Qltb p1 (REFERENCE_CELL_UPPER_LIMIT K - (5 # 100))) in *.
  set (i2 := Py.Qltb (SLOW_PIEZO_LOWER_LIMIT K + (5 # 100)) p2
             && Py.Qltb p2 (SLOW_PIEZO_UPPER_LIMIT K - (5 # 100))) in *.
  set (i3 := Py.Qltb (PIEZO_ETALON_LOWER_LIMIT K + (5 # 100)) p3
             && Py.Qltb p3 (PIEZO_ETALON_UPPER_LIMIT K - (5 # 100))) in *.
  assert (Hiff : negb (i1 && i2 && i3) = true <->
                 at_limit (REFERENCE_CELL_LOWER_LIMIT K) (REFERENCE_CELL_UPPER_LIMIT K)
                          (5 # 100) p1
                 \/ at_limit (SLOW_PIEZO_LOWER_LIMIT K) (SLOW_PIEZO_UPPER_LIMIT K)
                             (5 # 100) p2
                 \/ at_limit (PIEZO_ETALON_LOWER_LIMIT K) (PIEZO_ETALON_UPPER_LIMIT K)
                             (5 # 100) p3).
  { rewrite negb_true_iff, !andb_false_iff.
    unfold i1, i2, i3. rewrite !strictly_inside_iff. tauto. }
  assert (Hin : forall lower upper p,
             (lower + (5 # 100) < p /\ p < upper - (5 # 100))%Q ->
             ~ at_limit lower upper (5 # 100) p).
  { intros lower upper p [Hl Hu] [Hx | Hx]; lra. }
  assert (Hfalse :
     ~ at_limit (REFERENCE_CELL_LOWER_LIMIT K) (REFERENCE_CELL_UPPER_LIMIT K) (5 # 100) p1 ->
     ~ at_limit (SLOW_PIEZO_LOWER_LIMIT K) (SLOW_PIEZO_UPPER_LIMIT K) (5 # 100) p2 ->
     ~ at_limit (PIEZO_ETALON_LOWER_LIMIT K) (PIEZO_ETALON_UPPER_LIMIT K) (5 # 100) p3 ->
     negb (i1 && i2 && i3) = false).
  { intros N1 N2 N3. destruct (negb (i1 && i2 && i3)); [| reflexivity].
    exfalso. destruct (proj1 Hiff eq_refl) as [H | [H | H]]; tauto. }
  exists p1, p2, p3, s1, s2.
  split; [exact Ha |]. split; [exact Hb |]. split; [exact Hc |].
  split; [exact Hiff |].
  split.
  { intros G1 G2 G3. apply Hfalse; apply Hin; assumption. }
  split.
  { intros [W1 E1] [W2 E2] [W3 E3].
    apply Hfalse; apply Hin; split;
      first [rewrite E1 | rewrite E2 | rewrite E3];
      apply Qlt_shift_div_l || apply Qlt_shift_div_r || idtac; lra. }
  pose proof (reads_trace _ _ _ _ Ha) as T1.
  pose proof (reads_trace _ _ _ _ Hb) as T2.
  pose proof (reads_trace _ _ _ _ Hc) as T3.
  destruct Ha as (? & ? & (? & _ & ->) & _).
  destruct Hb as (? & ? & (? & _ & ->) & _).
  destruct Hc as (? & ? & (? & _ & ->) & _).
  simpl. rewrite <- !app_assoc. simpl. auto.
Qed.

(** C7, amended. When [is_any_limit_reached] returns, it has read the positions
    of the reference cell, the slow piezo and the piezo etalon, in three
    read queries and nothing else, and it has returned true exactly when
    one of them is within 0.05 of the lower or upper limit of its actuator:
    at most 0.05 away from it, for positions between their limits, and in
    general at most 0.05 inside it or beyond it. It returns false when each
    is strictly inside its limits by more than 0.05, as the midpoints are
    when the limits are more than 0.1 apart. The controller's own fields are
    as before. *)
Theorem limit_checker_spec fuel st b st' :
  is_any_limit_reached K fuel st = (Ok b, st') ->
  exists refcell_pos slow_pz_pos pz_eta_pos s1 s2,
    ((REFERENCE_CELL_LOWER_LIMIT K <= refcell_pos <= REFERENCE_CELL_UPPER_LIMIT K)%Q ->
     (SLOW_PIEZO_LOWER_LIMIT K <= slow_pz_pos <= SLOW_PIEZO_UPPER_LIMIT K)%Q ->
     (PIEZO_ETALON_LOWER_LIMIT K <= pz_eta_pos <= PIEZO_ETALON_UPPER_LIMIT K)%Q ->
     (b = true <->
      (Qabs (refcell_pos - REFERENCE_CELL_LOWER_LIMIT K) <= 5 # 100
       \/ Qabs (refcell_pos - REFERENCE_CELL_UPPER_LIMIT K) <= 5 # 100)%Q
      \/ (Qabs (slow_pz_pos - SLOW_PIEZO_LOWER_LIMIT K) <= 5 # 100
          \/ Qabs (slow_pz_pos - SLOW_PIEZO_UPPER_LIMIT K) <= 5 # 100)%Q
      \/ (Qabs (pz_eta_pos - PIEZO_ETALON_LOWER_LIMIT K) <= 5 # 100
          \/ Qabs (pz_eta_pos - PIEZO_ETALON_UPPER_LIMIT K) <= 5 # 100)%Q))
    /\ reads "SCAN:NOW?" refcell_pos st s1
    /\ reads "SLOWPIEZO:NOW?" slow_pz_pos s1 s2
    /\ reads "PIEZOETALON:BASELINE?" pz_eta_pos s2 st'
    /\ (b = true <->
        at_limit (REFERENCE_CELL_LOWER_LIMIT K) (REFERENCE_CELL_UPPER_LIMIT K)
                 (5 # 100) refcell_pos
        \/ at_limit (SLOW_PIEZO_LOWER_LIMIT K) (SLOW_PIEZO_UPPER_LIMIT K)
                    (5 # 100) slow_pz_pos
        \/ at_limit (PIEZO_ETALON_LOWER_LIMIT K) (PIEZO_ETALON_UPPER_LIMIT K)
                    (5 # 100) pz_eta_pos)
    /\ ((REFERENCE_CELL_LOWER_LIMIT K + (5 # 100) < refcell_pos
         /\ refcell_pos < REFERENCE_CELL_UPPER_LIMIT K - (5 # 100))%Q ->
        (SLOW_PIEZO_LOWER_LIMIT K + (5 # 100) < slow_pz_pos
         /\ slow_pz_pos < SLOW_PIEZO_UPPER_LIMIT K - (5 # 100))%Q ->
        (PIEZO_ETALON_LOWER_LIMIT K + (5 # 100) < pz_eta_pos
         /\ pz_eta_pos < PIEZO_ETALON_UPPER_LIMIT K - (5 # 100))%Q ->
        b = false)
    /\ ((REFERENCE_CELL_LOWER_LIMIT K + (1 # 10) < REFERENCE_CELL_UPPER_LIMIT K
         /\ refcell_pos
            == (REFERENCE_CELL_LOWER_LIMIT K + REFERENCE_CELL_UPPER_LIMIT K) / 2)%Q ->
        (SLOW_PIEZO_LOWER_LIMIT K + (1 # 10) < SLOW_PIEZO_UPPER_LIMIT K
         /\ slow_pz_pos
            == (SLOW_PIEZO_LOWER_LIMIT K + SLOW_PIEZO_UPPER_LIMIT K) / 2)%Q ->
        (PIEZO_ETALON_LOWER_LIMIT K + (1 # 10) < PIEZO_ETALON_UPPER_LIMIT K
         /\ pz_eta_pos
            == (PIEZO_ETALON_LOWER_LIMIT K + PIEZO_ETALON_UPPER_LIMIT K) / 2)%Q ->
        b = false)
    /\ trace st' = trace st ++ [Query "SCAN:NOW?"; Query "SLOWPIEZO:NOW?";
                                Query "PIEZOETALON:BASELINE?"]
    /\ stabilization_thread st' = stabilization_thread st
    /\ messages st' = messages st
    /\ stabilization_auto_corrections st' = stabilization_auto_corrections st
    /\ target_wavelength st' = target_wavelength st.
Proof.
  intros H.
  destruct (is_any_limit_reached_Ok _ _ _ _ H) as (p1 & p2 & p3 & s1 & s2 & R).
  exists p1, p2, p3, s1, s2. split; [| exact R].
  destruct R as (_ & _ & _ & Hiff & _). intros B1 B2 B3.
  rewrite Hiff, !at_limit_distance by (assumption || discriminate). reflexivity.
Qed.

(** The checker returns whenever the three reads succeed. *)
Lemma is_any_limit_reached_total fuel st p1 p2 p3 s1 s2 st' :
  reads "SCAN:NOW?" p1 st s1 ->
  reads "SLOWPIEZO:NOW?" p2 s1 s2 ->
  reads "PIEZOETALON:BASELINE?" p3 s2 st' ->
  exists b, is_any_limit_reached K (S fuel) st = (Ok b, st').
Proof.
  intros H1 H2 H3. unfold is_any_limit_reached.
  rewrite (bind_run _ _ _ _ _ (reads_query fuel _ _ _ _ H1)).
  rewrite (bind_run _ _ _ _ _ (reads_query fuel _ _ _ _ H2)).
  rewrite (bind_run _ _ _ _ _ (reads_query fuel _ _ _ _ H3)).
  cbn. eexists. reflexivity.
Qed.

End LimitChecker.

(** ** The motor positioner *)

Section Positioner.

Context {L : Lab} (K : Constants).

Lemma set_bifi_motor_pos_eq fuel pos :
  set_bifi_motor_pos K fuel pos = set_motor_pos K (bifi_motor K) fuel pos.
Proof. reflexivity. Qed.

Lemma set_thin_etalon_motor_pos_eq fuel pos :
  set_thin_etalon_motor_pos K fuel pos = set_motor_pos K (thin_etalon_motor K) fuel pos.
Proof. reflexivity. Qed.

Lemma motor_status_frame m fuel : keeps frame (motor_status m fuel).
Proof.
  unfold motor_status.
  apply keeps_bind; [exact frame_trans | apply query_frame | intros v].
  apply keeps_bind; [exact frame_trans | apply keeps_as_float, frame_refl | intros x].
  apply keeps_ret, frame_refl.
Qed.

Lemma motor_status_Ok m fuel st s st' :
  motor_status m fuel st = (Ok s, st') ->
  exists x, reads (status_query m) x st st' /\ s = Z.land (Py.int_of_float x) 255.
Proof.
  unfold motor_status. intros H.
  apply bind_Ok in H. destruct H as (v & s1 & Hq & H).
  apply query_reads in Hq. destruct Hq as (x & -> & Hr).
  cbn in H. inversion H. subst. exists x. auto.
Qed.

Lemma motor_status_trace m fuel st s st' :
  motor_status m fuel st = (Ok s, st') ->
  trace st' = trace st ++ [Query (status_query m)].
Proof.
  intros H. apply motor_status_Ok in H. destruct H as (x & H & _).
  eapply reads_trace, H.
Qed.

Lemma idle_after_positive m fuel n st st' :
  idle_after K m fuel n st st' -> (1 <= n)%nat.
Proof. destruct 1; lia. Qed.

Lemma idle_after_fuel m fuel n st st' :
  idle_after K m fuel n st st' -> (1 <= fuel)%nat.
Proof.
  destruct 1 as [st st' s H _ | st st1 st' s n H _ _];
    (destruct fuel; [discriminate H | lia]).
Qed.

Lemma idle_after_trace m fuel n st st' :
  idle_after K m fuel n st st' ->
  trace st' = trace st ++ repeat (Query (status_query m)) n.
Proof.
  induction 1 as [st st' s H _ | st st1 st' s n H _ _ IH].
  - eapply motor_status_trace, H.
  - rewrite IH, (motor_status_trace _ _ _ _ _ H), <- app_assoc. reflexivity.
Qed.

Lemma idle_after_frame m fuel n st st' :
  idle_after K m fuel n st st' -> frame st st'.
Proof.
  induction 1 as [st st' s H _ | st st1 st' s n H _ _ IH].
  - eapply motor_status_frame, H.
  - eapply frame_trans; [eapply motor_status_frame, H | exact IH].
Qed.

(** The wait returns exactly when the motor answers idle within the
    polls it is allowed. *)
Lemma wait_until_idle_Ok m fuel n st st' :
  wait_until_idle K (motor_status m fuel) n st = (Ok tt, st')
  <-> exists k, (k <= n)%nat /\ idle_after K m fuel k st st'.
Proof.
  split.
  - revert st. induction n as [| n IH]; intros st H; [discriminate |].
    cbn [wait_until_idle] in H.
    apply bind_Ok in H. destruct H as (s & s1 & Hs & H).
    destruct (Z.eqb_spec s (MOTOR_STATUS_IDLE K)) as [E | E].
    + inversion H. subst s1. exists 1%nat. split; [lia |].
      eapply idle_now; eauto.
    + apply IH in H. destruct H as (k & Hk & H).
      exists (S k). split; [lia |]. eapply idle_later; eauto.
  - intros (k & Hk & H). revert n Hk.
    induction H as [st st' s H E | st st1 st' s k H E _ IH]; intros n Hk.
    + destruct n as [| n]; [lia |]. cbn [wait_until_idle].
      rewrite (bind_run _ _ _ _ _ H). subst s. rewrite Z.eqb_refl. reflexivity.
    + destruct n as [| n]; [lia |]. cbn [wait_until_idle].
      rewrite (bind_run _ _ _ _ _ H).
      destruct (Z.eqb_spec s (MOTOR_STATUS_IDLE K)) as [E' | _]; [contradiction |].
      apply IH. lia.
Qed.

Lemma wait_until_idle_frame m fuel n : keeps frame (wait_until_idle K (motor_status m fuel) n).
Proof.
  induction n as [| n IH].
  - apply keeps_timeout, frame_refl.
  - cbn [wait_until_idle].
    apply keeps_bind; [exact frame_trans | apply motor_status_frame | intros s].
    destruct (s =? MOTOR_STATUS_IDLE K); [apply keeps_ret, frame_refl | exact IH].
Qed.

Lemma set_motor_pos_frame m fuel pos : keeps frame (set_motor_pos K m fuel pos).
Proof.
  unfold set_motor_pos.
  apply keeps_bind; [exact frame_trans | apply keeps_assert, frame_refl | intros _].
  apply keeps_bind; [exact frame_trans | apply wait_until_idle_frame | intros _].
  apply keeps_bind; [exact frame_trans | apply query_frame | intros _].
  apply wait_until_idle_frame.
Qed.

(** A position outside the range of the motor is refused before anything
    is sent. *)
Lemma set_motor_pos_refused m fuel pos st :
  pos <= 0 \/ upper_limit m <= pos ->
  set_motor_pos K m fuel pos st
  = (Raise (AssertionError "Target motor position out of range."), st).
Proof.
  intros H. unfold set_motor_pos.
  replace ((0 <? pos) && (pos <? upper_limit m)) with false; [reflexivity |].
  symmetry. apply andb_false_iff. rewrite !Z.ltb_ge. lia.
Qed.

(** A position in range: the move returns exactly when the motor is
    polled to idle, takes the command, and is polled to idle again. *)
Lemma set_motor_pos_Ok m fuel pos st st' :
  0 < pos < upper_limit m ->
  set_motor_pos K m fuel pos st = (Ok tt, st')
  <-> exists n1 n2, (n1 <= fuel)%nat /\ (n2 <= fuel)%nat /\ moved K m fuel pos n1 n2 st st'.
Proof.
  intros Hpos. unfold set_motor_pos.
  replace ((0 <? pos) && (pos <? upper_limit m)) with true
    by (symmetry; apply andb_true_iff; rewrite !Z.ltb_lt; lia).
  split.
  - intros H.
    apply bind_Ok in H. destruct H as ([] & s0 & H0 & H). inversion H0. subst s0.
    apply bind_Ok in H. destruct H as ([] & s1 & H1 & H).
    apply bind_Ok in H. destruct H as (v & s2 & H2 & H).
    apply wait_until_idle_Ok in H1. destruct H1 as (n1 & Hn1 & H1).
    apply wait_until_idle_Ok in H. destruct H as (n2 & Hn2 & H3).
    apply query_Ok in H2. destruct H2 as (r & Ha & H2).
    exists n1, n2. split; [exact Hn1 |]. split; [exact Hn2 |].
    exists s1, s2, r. split; [exact H1 |]. split; [exact Ha |]. split; [| exact H3].
    destruct (Py.startswith (Py.strip r) "!ERROR"); [| reflexivity].
    destruct H2. discriminate.
  - intros (n1 & n2 & Hn1 & Hn2 & s1 & s2 & r & H1 & Ha & He & H3).
    cbn [assert]. rewrite (bind_run _ _ _ tt st eq_refl).
    assert (W1 : wait_until_idle K (motor_status m fuel) fuel st = (Ok tt, s1))
      by (apply wait_until_idle_Ok; eauto).
    rewrite (bind_run _ _ _ _ _ W1).
    assert (Q : query fuel (move_command m ++ Py.str_int pos) false true s1
                = (Ok (Str (Py.strip r)), s2)).
    { pose proof (idle_after_fuel _ _ _ _ _ H1) as Hf.
      destruct fuel as [| fuel]; [lia |]. cbn [query].
      apply visa_query_Ok in Ha. rewrite (bind_run _ _ _ _ _ Ha), He. reflexivity. }
    rewrite (bind_run _ _ _ _ _ Q).
    apply wait_until_idle_Ok. eauto.
Qed.

Lemma moved_trace m fuel pos n1 n2 st st' :
  moved K m fuel pos n1 n2 st st' ->
  trace st' = trace st ++ repeat (Query (status_query m)) n1
              ++ [Query (move_command m ++ Py.str_int pos)]
              ++ repeat (Query (status_query m)) n2
  /\ (1 <= n1)%nat /\ (1 <= n2)%nat.
Proof.
  intros (s1 & s2 & r & H1 & Ha & _ & H3).
  rewrite (idle_after_trace _ _ _ _ _ H3), (answered_trace _ _ _ _ Ha),
    (idle_after_trace _ _ _ _ _ H1), <- !app_assoc.
  split; [reflexivity |].
  split; eapply idle_after_positive; eauto.
Qed.

(** C5. Both motors: a position [pos <= 0] or at or above the upper limit
    of the motor is refused by a failed assertion (the spec's RangeError),
    with nothing sent and nothing changed. For a position in range the
    operation returns exactly when the motor status was polled until idle, the
    move command was then sent, and the status was polled until idle again;
    the commands sent are those polls and that one move. *)
Theorem set_motor_position_checked fuel pos st :
  (pos <= 0 \/ BIREFRINGENT_FILTER_UPPER_LIMIT K <= pos ->
   set_bifi_motor_pos K fuel pos st
   = (Raise (AssertionError "Target motor position out of range."), st))
  /\ (pos <= 0 \/ THIN_ETALON_UPPER_LIMIT K <= pos ->
      set_thin_etalon_motor_pos K fuel pos st
      = (Raise (AssertionError "Target motor position out of range."), st))
  /\ (0 < pos < BIREFRINGENT_FILTER_UPPER_LIMIT K ->
      forall st',
        (set_bifi_motor_pos K fuel pos st = (Ok tt, st')
         <-> exists n1 n2, (n1 <= fuel)%nat /\ (n2 <= fuel)%nat
                           /\ moved K (bifi_motor K) fuel pos n1 n2 st st')
        /\ (set_bifi_motor_pos K fuel pos st = (Ok tt, st') ->
            exists n1 n2,
              trace st' = trace st ++ repeat (Query "MOTBI:STATUS?") (S n1)
                          ++ [Query ("MOTBI:POS " ++ Py.str_int pos)%string]
                          ++ repeat (Query "MOTBI:STATUS?") (S n2)))
  /\ (0 < pos < THIN_ETALON_UPPER_LIMIT K ->
      forall st',
        (set_thin_etalon_motor_pos K fuel pos st = (Ok tt, st')
         <-> exists n1 n2, (n1 <= fuel)%nat /\ (n2 <= fuel)%nat
                           /\ moved K (thin_etalon_motor K) fuel pos n1 n2 st st')
        /\ (set_thin_etalon_motor_pos K fuel pos st = (Ok tt, st') ->
            exists n1 n2,
              trace st' = trace st ++ repeat (Query "MOTTE:STATUS?") (S n1)
                          ++ [Query ("MOTTE:POS " ++ Py.str_int pos)%string]
                          ++ repeat (Query "MOTTE:STATUS?") (S n2))).
Proof.
  assert (G : forall m st',
             0 < pos < upper_limit m ->
             set_motor_pos K m fuel pos st = (Ok tt, st') ->
             exists n1 n2,
               trace st' = trace st ++ repeat (Query (status_query m)) (S n1)
                           ++ [Query (move_command m ++ Py.str_int pos)%string]
                           ++ repeat (Query (status_query m)) (S n2)).
  { intros m st' Hpos H. apply set_motor_pos_Ok in H; [| exact Hpos].
    destruct H as (n1 & n2 & _ & _ & H).
    apply moved_trace in H. destruct H as (T & P1 & P2).
    destruct n1 as [| n1]; [lia |]. destruct n2 as [| n2]; [lia |].
    exists n1, n2. exact T. }
  split; [apply (set_motor_pos_refused (bifi_motor K)) |].
  split; [apply (set_motor_pos_refused (thin_etalon_motor K)) |].
  split; intros Hpos st'; split.
  - apply (set_motor_pos_Ok (bifi_motor K)). exact Hpos.
  - exact (G (bifi_motor K) st' Hpos).
  - apply (set_motor_pos_Ok (thin_etalon_motor K)). exact Hpos.
  - exact (G (thin_etalon_motor K) st' Hpos).
Qed.

End Positioner.

(** ** The scans *)

Section ScanShape.

Context {L : Lab} (K : Constants).

Lemma extremum_scan_unfold k fuel st :
  extremum_scan K k fuel st
  = (ensure_target ;;
     v <- query fuel (pos_query k) true true ;;
     x <- as_float v ;;
     assert (window_ok k (Py.int_of_float x)) (invalid k) ;;
     match Py.range (Py.int_of_float x - scan_range k)
                    (Py.int_of_float x + scan_range k) (scan_step k) with
     | None => raise ValueError
     | Some positions =>
         voltages <- sample_scan (set_motor_pos K (scan_motor k) fuel)
                       (query fuel (signal_query k) true true) positions [] ;;
         set_motor_pos K (scan_motor k) fuel (Py.int_of_float x) ;;
         select_extremum K k fuel positions voltages
     end) st.
Proof.
  unfold extremum_scan. apply bind_ext. intros _ s1.
  unfold read_center. rewrite bind_assoc. apply bind_ext. intros v s2.
  rewrite bind_assoc. apply bind_ext. intros x s3.
  rewrite bind_ret_l. unfold sample_window.
  rewrite bind_assoc. apply bind_ext. intros _ s4.
  destruct (Py.range _ _ _) as [positions |]; [| reflexivity].
  rewrite bind_assoc. apply bind_ext. intros voltages s5.
  rewrite bind_assoc. apply bind_ext. intros _ s6.
  reflexivity.
Qed.

(** The two scans of the source are the two instances of the common
    shape. *)
Lemma birefringent_filter_scan_eq fuel st :
  birefringent_filter_scan K fuel st = extremum_scan K (bifi_kind K) fuel st.
Proof. rewrite extremum_scan_unfold. reflexivity. Qed.

Lemma thin_etalon_scan_eq fuel st :
  thin_etalon_scan K fuel st = extremum_scan K (thin_etalon_kind K) fuel st.
Proof. rewrite extremum_scan_unfold. reflexivity. Qed.

End ScanShape.

(** *** The window: [range] *)

Lemma range_up_nth n : forall start step i,
  (i < n)%nat -> nth_error (Py.range_up n start step) i = Some (start + Z.of_nat i * step).
Proof.
  induction n as [| n IH]; intros start step i Hi; [lia |].
  destruct i as [| i]; cbn [Py.range_up nth_error].
  - f_equal. lia.
  - rewrite IH by lia. f_equal. lia.
Qed.

Lemma range_up_length n start step : List.length (Py.range_up n start step) = n.
Proof.
  revert start. induction n as [| n IH]; intros start; cbn; [reflexivity |].
  rewrite IH. reflexivity.
Qed.

Lemma range_up_In n start step p :
  In p (Py.range_up n start step)
  <-> exists i, (i < n)%nat /\ p = start + Z.of_nat i * step.
Proof.
  split.
  - intros H. apply In_nth_error in H. destruct H as (i & H).
    assert (Hi : (i < n)%nat).
    { rewrite <- (range_up_length n start step). apply nth_error_Some. congruence. }
    rewrite range_up_nth in H by exact Hi. inversion H. eauto.
  - intros (i & Hi & ->). eapply nth_error_In. apply range_up_nth. exact Hi.
Qed.

Lemma range_up_sorted n : forall start step,
  0 < step -> StronglySorted Z.lt (Py.range_up n start step).
Proof.
  induction n as [| n IH]; intros start step Hs; cbn [Py.range_up]; constructor.
  - apply IH. exact Hs.
  - apply Forall_forall. intros p Hp. apply range_up_In in Hp.
    destruct Hp as (i & _ & ->). nia.
Qed.

Lemma range_len_spec start stop step i :
  0 < step ->
  (Z.of_nat i < Py.range_len start stop step <-> start + Z.of_nat i * step < stop).
Proof.
  intros Hs. unfold Py.range_len.
  destruct (Z.ltb_spec 0 step) as [_ | ?]; [| lia].
  destruct (Z.ltb_spec start stop) as [Hlt | Hge].
  - pose proof (Z.div_mod (stop - start - 1) step ltac:(lia)) as D.
    pose proof (Z.mod_pos_bound (stop - start - 1) step Hs) as B.
    split; intros H; nia.
  - split; intros H; nia.
Qed.

(** [range(start, stop, step)] for a positive step: the multiples of
    [step] from [start], as long as they are below [stop]. *)
Lemma range_positive_step start stop step :
  0 < step ->
  exists positions,
    Py.range start stop step = Some positions
    /\ (forall i p, nth_error positions i = Some p -> p = start + Z.of_nat i * step)
    /\ (forall p, In p positions <-> start <= p < stop /\ (p - start) mod step = 0)
    /\ StronglySorted Z.lt positions.
Proof.
  intros Hs. unfold Py.range.
  destruct (Z.eqb_spec step 0) as [? | _]; [lia |].
  set (n := Z.to_nat (Py.range_len start stop step)).
  assert (Hn : forall i, (i < n)%nat <-> start + Z.of_nat i * step < stop).
  { intros i. rewrite <- range_len_spec by exact Hs. unfold n. lia. }
  exists (Py.range_up n start step). split; [reflexivity |]. split; [| split].
  - intros i p H.
    assert (Hi : (i < n)%nat).
    { rewrite <- (range_up_length n start step). apply nth_error_Some. congruence. }
    rewrite range_up_nth in H by exact Hi. congruence.
  - intros p. rewrite range_up_In. split.
    + intros (i & Hi & ->). apply Hn in Hi. split; [nia |].
      replace (start + Z.of_nat i * step - start) with (Z.of_nat i * step) by lia.
      apply Z.mod_mul. lia.
    + intros ([Hlo Hhi] & Hm).
      apply Z.mod_divide in Hm; [| lia]. destruct Hm as (q & Hq).
      assert (0 <= q) by nia.
      exists (Z.to_nat q). rewrite Hn. rewrite Z2Nat.id by assumption. lia.
  - apply range_up_sorted. exact Hs.
Qed.

(** *** The extrema: [argrelextrema] *)

Lemma take_clip_inside data j :
  (j < List.length data)%nat -> Np.take_clip data (Z.of_nat j) = nth j data 0%Q.
Proof.
  intros H. unfold Np.take_clip, Np.clip. f_equal. lia.
Qed.

Lemma relextremum_spec comparator order data i :
  Np.relextremum comparator order data i = true
  <-> forall shift, (1 <= shift <= order)%nat ->
        comparator (Np.take_clip data (Z.of_nat i))
                   (Np.take_clip data (Z.of_nat i + Z.of_nat shift)) = true
        /\ comparator (Np.take_clip data (Z.of_nat i))
                      (Np.take_clip data (Z.of_nat i - Z.of_nat shift)) = true.
Proof.
  unfold Np.relextremum. rewrite forallb_forall. split.
  - intros H shift Hs. apply andb_true_iff. apply H. apply in_seq. lia.
  - intros H shift Hs. apply in_seq in Hs. apply andb_true_iff. apply H. lia.
Qed.

Lemma argrelextrema_In data comparator order i :
  In i (Np.argrelextrema data comparator order)
  <-> (i < List.length data)%nat /\ Np.relextremum comparator order data i = true.
Proof.
  unfold Np.argrelextrema. rewrite filter_In, in_seq. intuition lia.
Qed.

(** With a strict comparison, an extremum of order at least one is
    neither the first nor the last sample, and it compares with every other
    sample at most [order] places away. *)
Lemma relextremum_strict comparator order data i :
  (forall x, comparator x x = false) ->
  (1 <= order)%nat ->
  (i < List.length data)%nat ->
  (Np.relextremum comparator order data i = true
   <-> (0 < i)%nat /\ (i + 1 < List.length data)%nat
       /\ forall j, (j < List.length data)%nat -> j <> i ->
                    (i <= j + order)%nat -> (j <= i + order)%nat ->
                    comparator (nth i data 0%Q) (nth j data 0%Q) = true).
Proof.
  intros Hirr Ho Hi. rewrite relextremum_spec.
  rewrite (take_clip_inside data i Hi). split.
  - intros H.
    assert (H0 : (0 < i)%nat).
    { destruct i as [| i]; [| lia]. exfalso.
      destruct (H 1%nat ltac:(lia)) as [_ H1].
      replace (Np.take_clip data (Z.of_nat 0 - Z.of_nat 1)) with (nth 0 data 0%Q) in H1.
      - rewrite Hirr in H1. discriminate.
      - unfold Np.take_clip, Np.clip. f_equal. lia. }
    assert (H1 : (i + 1 < List.length data)%nat).
    { destruct (Nat.lt_ge_cases (i + 1) (List.length data)) as [? | Hge]; [assumption |].
      exfalso. destruct (H 1%nat ltac:(lia)) as [H1 _].
      replace (Np.take_clip data (Z.of_nat i + Z.of_nat 1)) with (nth i data 0%Q) in H1.
      - rewrite Hirr in H1. discriminate.
      - unfold Np.take_clip, Np.clip. f_equal. lia. }
    split; [exact H0 |]. split; [exact H1 |].
    intros j Hj Hne Hlo Hhi.
    destruct (Nat.lt_ge_cases i j) as [Hlt | Hge].
    + destruct (H (j - i)%nat ltac:(lia)) as [Hp _].
      replace (Z.of_nat i + Z.of_nat (j - i)) with (Z.of_nat j) in Hp by lia.
      rewrite take_clip_inside in Hp by exact Hj. exact Hp.
    + destruct (H (i - j)%nat ltac:(lia)) as [_ Hm].
      replace (Z.of_nat i - Z.of_nat (i - j)) with (Z.of_nat j) in Hm by lia.
      rewrite take_clip_inside in Hm by exact Hj. exact Hm.
  - intros (H0 & H1 & H) shift Hs. split.
    + set (j := Nat.min (i + shift) (List.length data - 1)).
      replace (Np.take_clip data (Z.of_nat i + Z.of_nat shift)) with (nth j data 0%Q).
      * apply H; unfold j; lia.
      * unfold Np.take_clip, Np.clip, j. f_equal. lia.
    + set (j := (i - shift)%nat).
      replace (Np.take_clip data (Z.of_nat i - Z.of_nat shift)) with (nth j data 0%Q).
      * apply H; unfold j; lia.
      * unfold Np.take_clip, Np.clip, j. f_equal. lia.
Qed.

Lemma greater_irrefl x : Np.greater x x = false.
Proof. apply Qltb_ge. apply Qle_refl. Qed.

Lemma less_irrefl x : Np.less x x = false.
Proof. apply Qltb_ge. apply Qle_refl. Qed.

(** *** The selection: [argmin] and indexing by an array *)

Lemma argmin_from_spec l : forall best least i,
  exists v,
    (Np.argmin_from best least i l = best /\ v = least
     \/ (i <= Np.argmin_from best least i l)%nat
        /\ nth_error l (Np.argmin_from best least i l - i) = Some v)
    /\ (v <= least)%Q
    /\ forall y, In y l -> (v <= y)%Q.
Proof.
  induction l as [| x l IH]; intros best least i; cbn [Np.argmin_from].
  - exists least. split; [left; auto |]. split; [apply Qle_refl |].
    intros y [].
  - destruct (Py.Qltb x least) eqn:E.
    + apply Qltb_lt in E.
      destruct (IH i x (S i)) as (v & Hv & Hle & Hall).
      exists v. split; [right | split].
      * destruct Hv as [[-> ->] | [Hge Hn]].
        -- split; [lia |]. rewrite Nat.sub_diag. reflexivity.
        -- split; [lia |].
           replace (Np.argmin_from i x (S i) l - i)%nat
             with (S (Np.argmin_from i x (S i) l - S i)) by lia.
           exact Hn.
      * eapply Qle_trans; [exact Hle | apply Qlt_le_weak, E].
      * intros y [<- | Hy]; [exact Hle | apply Hall, Hy].
    + apply Qltb_ge in E.
      destruct (IH best least (S i)) as (v & Hv & Hle & Hall).
      exists v. split; [| split].
      * destruct Hv as [[-> ->] | [Hge Hn]]; [left; auto | right].
        split; [lia |].
        replace (Np.argmin_from best least (S i) l - i)%nat
          with (S (Np.argmin_from best least (S i) l - S i)) by lia.
        exact Hn.
      * exact Hle.
      * intros y [<- | Hy]; [eapply Qle_trans; eassumption | apply Hall, Hy].
Qed.

Lemma argmin_spec l i :
  Np.argmin l = Some i ->
  exists v, nth_error l i = Some v /\ forall y, In y l -> (v <= y)%Q.
Proof.
  destruct l as [| x l]; [discriminate |]. cbn [Np.argmin]. intros H. inversion H. clear H.
  destruct (argmin_from_spec l 0%nat x 1%nat) as (v & Hv & Hle & Hall).
  exists v. split.
  - destruct Hv as [[-> ->] | [Hge Hn]]; [reflexivity |].
    destruct (Np.argmin_from 0 x 1 l) as [| k]; [lia |].
    cbn [nth_error]. replace (S k - 1)%nat with k in Hn by lia. exact Hn.
  - intros y [<- | Hy]; [exact Hle | apply Hall, Hy].
Qed.

Lemma index_all_spec {A} (a : list A) idx : forall xs,
  Np.index_all a idx = Some xs ->
  List.length xs = List.length idx
  /\ forall j x, nth_error xs j = Some x ->
                 exists i, nth_error idx j = Some i /\ nth_error a i = Some x.
Proof.
  induction idx as [| i idx IH]; intros xs H; cbn [Np.index_all] in H.
  - inversion H. split; [reflexivity |]. intros [| j] x Hx; discriminate.
  - destruct (nth_error a i) as [y |] eqn:Ey; [| discriminate].
    destruct (Np.index_all a idx) as [ys |]; [| discriminate].
    inversion H. subst xs. destruct (IH ys eq_refl) as [Hl Hn].
    split; [cbn; congruence |].
    intros [| j] x Hx; cbn [nth_error] in *.
    + inversion Hx. subst. eauto.
    + apply Hn. exact Hx.
Qed.

(** *** The scan, step by step *)

Section ScanFacts.

Context {L : Lab} (K : Constants).

Lemma wavemeter_wavelength_frame : keeps frame wavemeter_wavelength.
Proof.
  intros st r st'. unfold wavemeter_wavelength.
  destruct (get_wavelength (world st)) as [x w]. intros H. inversion H.
  unfold frame. simpl. auto.
Qed.

Lemma ensure_target_frame : keeps frame ensure_target.
Proof.
  intros st r st'. unfold ensure_target, bind, get_target.
  destruct (target_wavelength st) as [t |] eqn:E.
  - intros H. inversion H. apply frame_refl.
  - unfold wavemeter_wavelength, set_target.
    destruct (get_wavelength (world st)) as [x w]. intros H. inversion H.
    unfold frame. simpl. repeat split. intros t Ht. congruence.
Qed.

Lemma ensure_target_Ok st s0 :
  ensure_target st = (Ok tt, s0) -> exists t, target_wavelength s0 = Some t.
Proof.
  unfold ensure_target, bind, get_target.
  destruct (target_wavelength st) as [t |] eqn:E.
  - intros H. inversion H. subst. eauto.
  - unfold wavemeter_wavelength, set_target.
    destruct (get_wavelength (world st)) as [x w]. intros H. inversion H.
    simpl. eauto.
Qed.

(** With no target set, the target becomes the reading of the wavemeter,
    which is all that happens; with one set, nothing happens. *)
Lemma ensure_target_run st :
  match target_wavelength st with
  | Some t => ensure_target st = (Ok tt, st)
  | None =>
      ensure_target st
      = (Ok tt,
         with_target (Some (fst (get_wavelength (world st))))
           (with_trace (trace st ++ [Wavelength])
              (with_world (snd (get_wavelength (world st))) st)))
  end.
Proof.
  unfold ensure_target, bind, get_target.
  destruct (target_wavelength st) as [t |] eqn:E; [reflexivity |].
  unfold wavemeter_wavelength, set_target.
  destruct (get_wavelength (world st)) as [x w]. reflexivity.
Qed.

Lemma sample_scan_frame (move : Z -> M unit) (read : M pyval) :
  (forall pos, keeps frame (move pos)) -> keeps frame read ->
  forall ps voltages, keeps frame (sample_scan move read ps voltages).
Proof.
  intros Hm Hr. induction ps as [| pos ps IH]; intros voltages; cbn [sample_scan].
  - apply keeps_ret, frame_refl.
  - apply keeps_bind; [exact frame_trans | apply Hm | intros _].
    apply keeps_bind; [exact frame_trans | apply Hr | intros v].
    apply keeps_bind; [exact frame_trans | apply keeps_as_float, frame_refl | intros x].
    apply IH.
Qed.

Lemma get_target_frame : keeps frame get_target.
Proof. intros st r st' H. inversion H. apply frame_refl. Qed.

Lemma measure_extrema_frame (move : Z -> M unit) :
  (forall pos, keeps frame (move pos)) ->
  forall ps diffs, keeps frame (measure_extrema move ps diffs).
Proof.
  intros Hm. induction ps as [| pos ps IH]; intros diffs; cbn [measure_extrema].
  - apply keeps_ret, frame_refl.
  - apply keeps_bind; [exact frame_trans | apply Hm | intros _].
    apply keeps_bind; [exact frame_trans | apply wavemeter_wavelength_frame | intros w].
    apply keeps_bind; [exact frame_trans | apply get_target_frame | intros t].
    destruct t; [apply IH | apply keeps_raise, frame_refl].
Qed.

Lemma frame_target st st' t :
  frame st st' -> target_wavelength st = Some t -> target_wavelength st' = Some t.
Proof. intros (_ & _ & _ & H). apply H. Qed.

(** The loop over the extrema reads one wavelength at each position, in
    order, and keeps its distance to the target. *)
Lemma measure_extrema_Ok (move : Z -> M unit) target :
  (forall pos, keeps frame (move pos)) ->
  forall ps acc st diffs st',
    target_wavelength st = Some target ->
    measure_extrema move ps acc st = (Ok diffs, st') ->
    exists ws,
      measured move ps st ws st'
      /\ diffs = acc ++ map (fun w => Qabs (w - target)) ws.
Proof.
  intros Hm. induction ps as [| pos ps IH]; intros acc st diffs st' Ht H;
    cbn [measure_extrema] in H.
  - inversion H. subst. exists []. split; [constructor |].
    symmetry. apply app_nil_r.
  - apply bind_Ok in H. destruct H as ([] & s1 & H1 & H).
    apply bind_Ok in H. destruct H as (w & s2 & H2 & H).
    pose proof (frame_target _ _ _ (Hm _ _ _ _ H1) Ht) as Ht1.
    pose proof (frame_target _ _ _ (wavemeter_wavelength_frame _ _ _ H2) Ht1) as Ht2.
    unfold bind at 1, get_target in H. rewrite Ht2 in H.
    apply IH in H; [| exact Ht2]. destruct H as (ws & Hms & ->).
    exists (w :: ws). split; [econstructor; eassumption |].
    rewrite <- app_assoc. reflexivity.
Qed.

Lemma measured_length (move : Z -> M unit) ps st ws st' :
  measured move ps st ws st' -> List.length ws = List.length ps.
Proof. induction 1; cbn; congruence. Qed.

Lemma measured_frame (move : Z -> M unit) ps st ws st' :
  (forall pos, keeps frame (move pos)) ->
  measured move ps st ws st' -> frame st st'.
Proof.
  intros Hm. induction 1 as [| pos ps st st1 st2 st' w ws H1 H2 _ IH].
  - apply frame_refl.
  - eapply frame_trans; [eapply Hm, H1 |].
    eapply frame_trans; [eapply wavemeter_wavelength_frame, H2 | exact IH].
Qed.

Lemma select_extremum_frame k fuel positions voltages :
  keeps frame (select_extremum K k fuel positions voltages).
Proof.
  unfold select_extremum.
  destruct (savgol_filter voltages (window_length k) 3); [| apply keeps_raise, frame_refl].
  destruct (Np.index_all positions _); [| apply keeps_raise, frame_refl].
  apply keeps_bind; [exact frame_trans | | intros diffs].
  { apply measure_extrema_frame. intros pos. apply set_motor_pos_frame. }
  destruct (Np.argmin diffs); [| apply keeps_raise, frame_refl].
  destruct (nth_error l0 n); [| apply keeps_raise, frame_refl].
  apply keeps_bind; [exact frame_trans | apply set_motor_pos_frame | intros _].
  apply keeps_ret, frame_refl.
Qed.

Lemma extremum_scan_frame k fuel : keeps frame (extremum_scan K k fuel).
Proof.
  unfold extremum_scan.
  apply keeps_bind; [exact frame_trans | apply ensure_target_frame | intros _].
  apply keeps_bind; [exact frame_trans | | intros center].
  { unfold read_center.
    apply keeps_bind; [exact frame_trans | apply query_frame | intros v].
    apply keeps_bind; [exact frame_trans | apply keeps_as_float, frame_refl | intros x].
    apply keeps_ret, frame_refl. }
  apply keeps_bind; [exact frame_trans | | intros pv; apply select_extremum_frame].
  unfold sample_window.
  apply keeps_bind; [exact frame_trans | apply keeps_assert, frame_refl | intros _].
  destruct (Py.range _ _ _); [| apply keeps_raise, frame_refl].
  apply keeps_bind; [exact frame_trans | | intros voltages].
  { apply sample_scan_frame; [intros pos; apply set_motor_pos_frame | apply query_frame]. }
  apply keeps_bind; [exact frame_trans | apply set_motor_pos_frame | intros _].
  apply keeps_ret, frame_refl.
Qed.

(** What a scan that returns has done. *)
Lemma extremum_scan_Ok k fuel st d st' :
  extremum_scan K k fuel st = (Ok d, st') ->
  exists center_pos candidates i chosen s3 s4,
    scanned K k fuel st d st' center_pos candidates i chosen s3 s4.
Proof.
  rewrite extremum_scan_unfold. intros H.
  apply bind_Ok in H. destruct H as ([] & s0 & H0 & H).
  apply bind_Ok in H. destruct H as (v & s1 & Hq & H).
  apply query_reads in Hq. destruct Hq as (x & -> & Hr).
  cbn [as_float] in H. rewrite bind_ret_l in H.
  apply bind_Ok in H. destruct H as ([] & s1' & Hw & H).
  unfold assert in Hw.
  destruct (window_ok k (Py.int_of_float x)) eqn:Ew; [| discriminate].
  inversion Hw. subst s1'. clear Hw.
  destruct (Py.range _ _ _) as [ps |] eqn:Er; [| discriminate].
  apply bind_Ok in H. destruct H as (vs & s2 & Hs & H).
  apply bind_Ok in H. destruct H as ([] & s3 & Hc & H).
  unfold select_extremum in H.
  destruct (savgol_filter vs (window_length k) 3) as [smoothed |] eqn:Esg;
    [| discriminate].
  destruct (Np.index_all ps _) as [candidates |] eqn:Ei; [| discriminate].
  apply bind_Ok in H. destruct H as (diffs & s4 & Hm & H).
  destruct (Np.argmin diffs) as [i |] eqn:Ea; [| discriminate].
  destruct (nth_error candidates i) as [chosen |] eqn:En; [| discriminate].
  apply bind_Ok in H. destruct H as ([] & s5 & Hf & H).
  inversion H. subst. clear H.
  exists (Py.int_of_float x), candidates, i, chosen, s3, s4.
  exists s0, x, s1, s2. cbn [positions voltages smoothed_data extrema
                             wavelength_differences best_pos].
  repeat (split; [first [assumption | reflexivity] |]). assumption.
Qed.

(** The selection of a scan that returns. *)
Lemma extremum_scan_selects k fuel st d st' :
  (forall x, comparator k x x = false) ->
  extremum_scan K k fuel st = (Ok d, st') ->
  savgol_filter (voltages d) (window_length k) 3 = Some (smoothed_data d)
  /\ (forall i, In i (extrema d)
                <-> local_extremum (fun x y => comparator k x y = true)
                      (smoothed_data d) i)
  /\ exists candidates target ws s3 s4 i chosen,
       Np.index_all (positions d) (extrema d) = Some candidates
       /\ target_wavelength st' = Some target
       /\ (forall t, target_wavelength st = Some t -> t = target)
       /\ measured (set_motor_pos K (scan_motor k) fuel) candidates s3 ws s4
       /\ wavelength_differences d = map (fun w => Qabs (w - target)) ws
       /\ closest target ws i
       /\ nth_error candidates i = Some chosen
       /\ best_pos d = nudged k chosen.
Proof.
  intros Hirr H.
  pose proof (extremum_scan_frame _ _ _ _ _ H) as Hfr.
  apply extremum_scan_Ok in H.
  destruct H as (center & candidates & i & chosen & s3 & s4 & s0 & x & s1 & s2
                 & H0 & Hr & Hc & Hw & Hrange & Hs & Hback & Hsg & Hex & Hidx
                 & Hm & Ha & Hn & Hb & Hf).
  split; [exact Hsg |]. split.
  { intros j. rewrite Hex, argrelextrema_In. unfold local_extremum. split.
    - intros [Hj Hrel]. apply relextremum_strict in Hrel; auto.
    - intros (H1 & H2 & H3). split; [lia |].
      apply relextremum_strict; auto; lia. }
  destruct (ensure_target_Ok _ _ H0) as (target & Ht0).
  assert (Ht3 : target_wavelength s3 = Some target).
  { eapply frame_target; [eapply set_motor_pos_frame, Hback |].
    eapply frame_target;
      [eapply (sample_scan_frame _ _ (fun pos => set_motor_pos_frame K _ fuel pos)
                 (query_frame fuel _ _ _)), Hs |].
    eapply frame_target; [eapply reads_frame, Hr | exact Ht0]. }
  destruct (measure_extrema_Ok _ target (fun pos => set_motor_pos_frame K _ fuel pos)
              _ _ _ _ _ Ht3 Hm) as (ws & Hms & Hd).
  cbn [app] in Hd.
  assert (Ht' : target_wavelength st' = Some target).
  { eapply frame_target; [eapply set_motor_pos_frame, Hf |].
    eapply frame_target; [| exact Ht3].
    eapply measured_frame; [| exact Hms]. intros pos. apply set_motor_pos_frame. }
  exists candidates, target, ws, s3, s4, i, chosen.
  split; [exact Hidx |]. split; [exact Ht' |]. split.
  { intros t Ht. pose proof (frame_target _ _ _ Hfr Ht). congruence. }
  split; [exact Hms |]. split; [exact Hd |]. split; [| auto].
  apply argmin_spec in Ha. destruct Ha as (v & Hv & Hmin).
  rewrite Hd in Hv. rewrite nth_error_map in Hv.
  destruct (nth_error ws i) as [w |] eqn:Ew; [| discriminate].
  cbn in Hv. inversion Hv. subst v.
  exists w. split; [exact Ew |].
  intros w' Hw'. apply Hmin. rewrite Hd. apply in_map_iff. eauto.
Qed.

End ScanFacts.


Section ScanClaims.

Context {L : Lab} (K : Constants).


(** C6. A thin etalon scan that returns has chosen a candidate by the
    least wavelength difference, its final position is the position of that
    candidate plus [THIN_ETALON_NUDGE] exactly, and the last thing it did was
    to move the thin etalon motor there: polls of the status, the move
    command to that position, polls of the status. *)
Theorem thin_etalon_scan_nudges fuel st d st' :
  thin_etalon_scan K fuel st = (Ok d, st') ->
  exists candidates i chosen s4 n1 n2,
    Np.index_all (positions d) (extrema d) = Some candidates
    /\ Np.argmin (wavelength_differences d) = Some i
    /\ nth_error candidates i = Some chosen
    /\ best_pos d = chosen + THIN_ETALON_NUDGE K
    /\ 0 < best_pos d < THIN_ETALON_UPPER_LIMIT K
    /\ moved K (thin_etalon_motor K) fuel (best_pos d) (S n1) (S n2) s4 st'
    /\ trace st' = trace s4 ++ repeat (Query "MOTTE:STATUS?") (S n1)
                   ++ [Query ("MOTTE:POS " ++ Py.str_int (chosen + THIN_ETALON_NUDGE K))%string]
                   ++ repeat (Query "MOTTE:STATUS?") (S n2).
Proof.
  intros H. rewrite thin_etalon_scan_eq in H. apply extremum_scan_Ok in H.
  destruct H as (center & candidates & i & chosen & s3 & s4 & s0 & x & s1 & s2
                 & H0 & Hr & Hc & Hw & Hrange & Hs & Hback & Hsg & Hex & Hidx
                 & Hm & Ha & Hn & Hb & Hf).
  cbn [thin_etalon_kind nudged scan_motor] in Hb, Hf.
  assert (Hpos : 0 < chosen + THIN_ETALON_NUDGE K < THIN_ETALON_UPPER_LIMIT K).
  { destruct (Z_lt_le_dec 0 (chosen + THIN_ETALON_NUDGE K)) as [H1 | H1];
      [destruct (Z_lt_le_dec (chosen + THIN_ETALON_NUDGE K) (THIN_ETALON_UPPER_LIMIT K))
        as [H2 | H2]; [lia |] |];
      rewrite (set_motor_pos_refused K (thin_etalon_motor K)) in Hf
        by (cbn [thin_etalon_motor upper_limit]; lia);
      discriminate. }
  apply (set_motor_pos_Ok K (thin_etalon_motor K)) in Hf; [| exact Hpos].
  destruct Hf as (n1 & n2 & _ & _ & Hmv).
  destruct (moved_trace _ _ _ _ _ _ _ _ Hmv) as (T & P1 & P2).
  destruct n1 as [| n1]; [lia |]. destruct n2 as [| n2]; [lia |].
  exists candidates, i, chosen, s4, n1, n2. rewrite Hb.
  split; [exact Hidx |]. split; [exact Ha |]. split; [exact Hn |].
  split; [reflexivity |]. split; [exact Hpos |]. split; [exact Hmv | exact T].
Qed.

(** A scan whose window does not fit the motor fails at its assertion,
    right after reading the position. *)
Lemma extremum_scan_window_refused k fuel st s0 center s1 :
  ensure_target st = (Ok tt, s0) ->
  read_center k fuel s0 = (Ok center, s1) ->
  window_ok k center = false ->
  extremum_scan K k fuel st = (Raise (AssertionError (invalid k)), s1).
Proof.
  intros H0 Hc Hw. unfold extremum_scan.
  rewrite (bind_run _ _ _ _ _ H0), (bind_run _ _ _ _ _ Hc).
  unfold sample_window. rewrite Hw. reflexivity.
Qed.

Lemma read_center_trace k fuel st center st' :
  read_center k fuel st = (Ok center, st') ->
  trace st' = trace st ++ [Query (pos_query k)].
Proof.
  unfold read_center. intros H.
  apply bind_Ok in H. destruct H as (v & s1 & Hq & H).
  apply query_reads in Hq. destruct Hq as (x & -> & Hr).
  cbn in H. inversion H. subst. eapply reads_trace, Hr.
Qed.

Lemma ensure_target_trace st s0 :
  ensure_target st = (Ok tt, s0) ->
  trace s0 = trace st \/ trace s0 = trace st ++ [Wavelength].
Proof.
  pose proof (ensure_target_run st) as R.
  destruct (target_wavelength st); rewrite R; intros H; inversion H; auto.
Qed.

Lemma window_ok_true k center :
  window_ok k center = true ->
  0 < center - scan_range k
  /\ center + scan_range k < upper_limit (scan_motor k)
  /\ 0 < scan_range k.
Proof.
  unfold window_ok. rewrite !andb_true_iff, !Z.ltb_lt. lia.
Qed.

Lemma window_ok_false k center :
  center - scan_range k <= 0 \/ upper_limit (scan_motor k) <= center + scan_range k ->
  window_ok k center = false.
Proof.
  intros H. unfold window_ok.
  destruct (Z.ltb_spec 0 (center - scan_range k)); [| reflexivity].
  destruct (Z.ltb_spec (center + scan_range k) (upper_limit (scan_motor k))); [lia |].
  rewrite !andb_false_r. reflexivity.
Qed.

(** C3. The scan window. For a positive step, [range(center - range,
    center + range, step)] is the arithmetic sequence from [center - range]
    in steps of [step] up to but excluding [center + range]; it is strictly
    increasing, and within [(0, upper_limit)] when [0 < center - range] and
    [center + range < upper_limit]. For center 1000, range 400 and step 4 it
    is [range(600, 1400, 4)]: the positions from 600 to 1399 that are 600
    plus a multiple of 4, of which 1396 is the last. Each scan takes this
    window around the position it reads, and when the window does not fit
    [0 < center - range] and [center + range < upper_limit] the scan fails at
    its assertion (the spec's RangeError) having sent only the query for the
    position: no move. *)
Theorem scan_window_half_open :
  (forall center range step upper,
      0 < step -> 0 < center - range -> center + range < upper ->
      exists positions,
        Py.range (center - range) (center + range) step = Some positions
        /\ (forall i p, nth_error positions i = Some p ->
                        p = center - range + Z.of_nat i * step)
        /\ (forall p, In p positions
                      <-> center - range <= p < center + range
                          /\ (p - (center - range)) mod step = 0)
        /\ StronglySorted Z.lt positions
        /\ (forall p, In p positions -> 0 < p < upper))
  /\ (exists positions,
         Py.range (1000 - 400) (1000 + 400) 4 = Some positions
         /\ positions = map (fun i => 600 + 4 * Z.of_nat i) (seq 0 200)
         /\ (forall p, In p positions <-> 600 <= p <= 1399 /\ (p - 600) mod 4 = 0)
         /\ hd_error positions = Some 600
         /\ nth_error positions 199 = Some 1396)
  /\ (forall fuel st d st',
         birefringent_filter_scan K fuel st = (Ok d, st') ->
         exists center,
           0 < center - BIREFRINGENT_SCAN_RANGE K
           /\ center + BIREFRINGENT_SCAN_RANGE K < BIREFRINGENT_FILTER_UPPER_LIMIT K
           /\ Py.range (center - BIREFRINGENT_SCAN_RANGE K)
                       (center + BIREFRINGENT_SCAN_RANGE K)
                       (BIREFRINGENT_SCAN_STEP K) = Some (positions d))
  /\ (forall fuel st d st',
         thin_etalon_scan K fuel st = (Ok d, st') ->
         exists center,
           0 < center - THIN_ETALON_SCAN_RANGE K
           /\ center + THIN_ETALON_SCAN_RANGE K < THIN_ETALON_UPPER_LIMIT K
           /\ Py.range (center - THIN_ETALON_SCAN_RANGE K)
                       (center + THIN_ETALON_SCAN_RANGE K)
                       (THIN_ETALON_SCAN_STEP K) = Some (positions d))
  /\ (forall fuel st s0 center s1,
         ensure_target st = (Ok tt, s0) ->
         read_center (bifi_kind K) fuel s0 = (Ok center, s1) ->
         center - BIREFRINGENT_SCAN_RANGE K <= 0
         \/ BIREFRINGENT_FILTER_UPPER_LIMIT K <= center + BIREFRINGENT_SCAN_RANGE K ->
         birefringent_filter_scan K fuel st
         = (Raise (AssertionError (invalid (bifi_kind K))), s1)
         /\ trace s1 = trace s0 ++ [Query "MOTBI:POS?"]
         /\ (trace s0 = trace st \/ trace s0 = trace st ++ [Wavelength]))
  /\ (forall fuel st s0 center s1,
         ensure_target st = (Ok tt, s0) ->
         read_center (thin_etalon_kind K) fuel s0 = (Ok center, s1) ->
         center - THIN_ETALON_SCAN_RANGE K <= 0
         \/ THIN_ETALON_UPPER_LIMIT K <= center + THIN_ETALON_SCAN_RANGE K ->
         thin_etalon_scan K fuel st
         = (Raise (AssertionError (invalid (thin_etalon_kind K))), s1)
         /\ trace s1 = trace s0 ++ [Query "MOTTE:POS?"]
         /\ (trace s0 = trace st \/ trace s0 = trace st ++ [Wavelength])).
Proof.
  assert (A : forall center range step upper,
             0 < step -> 0 < center - range -> center + range < upper ->
             exists positions,
               Py.range (center - range) (center + range) step = Some positions
               /\ (forall i p, nth_error positions i = Some p ->
                               p = center - range + Z.of_nat i * step)
               /\ (forall p, In p positions
                             <-> center - range <= p < center + range
                                 /\ (p - (center - range)) mod step = 0)
               /\ StronglySorted Z.lt positions
               /\ (forall p, In p positions -> 0 < p < upper)).
  { intros center range step upper Hs Hlo Hhi.
    destruct (range_positive_step (center - range) (center + range) step Hs)
      as (positions & Hr & Hn & Hin & Hsorted).
    exists positions. repeat (split; [assumption |]).
    intros p Hp. apply Hin in Hp. lia. }
  assert (S : forall k fuel st d st',
             extremum_scan K k fuel st = (Ok d, st') ->
             exists center,
               0 < center - scan_range k
               /\ center + scan_range k < upper_limit (scan_motor k)
               /\ Py.range (center - scan_range k) (center + scan_range k)
                           (scan_step k) = Some (positions d)).
  { intros k fuel st d st' H. apply extremum_scan_Ok in H.
    destruct H as (center & candidates & i & chosen & s3 & s4 & s0 & x & s1 & s2
                   & _ & _ & _ & Hw & Hrange & _).
    apply window_ok_true in Hw. exists center. intuition. }
  assert (R : forall k fuel st s0 center s1,
             ensure_target st = (Ok tt, s0) ->
             read_center k fuel s0 = (Ok center, s1) ->
             center - scan_range k <= 0
             \/ upper_limit (scan_motor k) <= center + scan_range k ->
             extremum_scan K k fuel st = (Raise (AssertionError (invalid k)), s1)
             /\ trace s1 = trace s0 ++ [Query (pos_query k)]
             /\ (trace s0 = trace st \/ trace s0 = trace st ++ [Wavelength])).
  { intros k fuel st s0 center s1 H0 Hc Hbad.
    split; [| split].
    - eapply extremum_scan_window_refused; eauto using window_ok_false.
    - eapply read_center_trace, Hc.
    - apply ensure_target_trace, H0. }
  split; [exact A |]. split.
  { destruct (A 1000 400 4 5000 ltac:(lia) ltac:(lia) ltac:(lia))
      as (positions & Hr & _ & Hin & _).
    exists positions. split; [exact Hr |].
    assert (E : positions = map (fun i => 600 + 4 * Z.of_nat i) (seq 0 200)).
    { vm_compute in Hr. inversion Hr. vm_compute. reflexivity. }
    split; [exact E |]. split.
    - intros p. rewrite Hin.
      change (1000 - 400) with 600. change (1000 + 400) with 1400. lia.
    - rewrite E. split; reflexivity. }
  split.
  { intros fuel st d st' H. rewrite birefringent_filter_scan_eq in H.
    exact (S _ _ _ _ _ H). }
  split.
  { intros fuel st d st' H. rewrite thin_etalon_scan_eq in H.
    exact (S _ _ _ _ _ H). }
  split.
  - intros fuel st s0 center s1 H0 Hc Hbad. rewrite birefringent_filter_scan_eq.
    exact (R (bifi_kind K) _ _ _ _ _ H0 Hc Hbad).
  - intros fuel st s0 center s1 H0 Hc Hbad. rewrite thin_etalon_scan_eq.
    exact (R (thin_etalon_kind K) _ _ _ _ _ H0 Hc Hbad).
Qed.

End ScanClaims.

(** ** The stabilization loop *)

Section Stabilization.

Context {L : Lab} (K : Constants) (cfg : Config).

Lemma scan_action_Ok a e st st' :
  scan_action a e st = (Ok tt, st') ->
  trace st' = trace st ++ [e]
  /\ stabilization_auto_corrections st' = stabilization_auto_corrections st.
Proof.
  unfold scan_action. destruct (scan_control a (world st)) as [[x |] w];
    intros H; inversion H. split; reflexivity.
Qed.

Lemma scan_action_frame a e : keeps frame (scan_action a e).
Proof.
  intros st r st'. unfold scan_action.
  destruct (scan_control a (world st)) as [[x |] w];
    intros H; inversion H; unfold frame; simpl; auto.
Qed.

Lemma emit_frame e : keeps frame (emit e).
Proof. intros st r st' H. inversion H. unfold frame. simpl. auto. Qed.

Lemma report_event_frame name : keeps frame (report_event cfg name).
Proof.
  unfold report_event. destruct (REPORT_EVENTS cfg);
    [apply emit_frame | apply keeps_ret, frame_refl].
Qed.

Lemma report_event_Ok name st r st' :
  report_event cfg name st = (r, st') ->
  r = Ok tt
  /\ trace st' = trace st ++ reported cfg name
  /\ stabilization_auto_corrections st' = stabilization_auto_corrections st.
Proof.
  unfold report_event, reported. destruct (REPORT_EVENTS cfg); intros H; inversion H.
  - repeat split.
  - rewrite app_nil_r. repeat split.
Qed.

Lemma frame_corrections st st' :
  frame st st' ->
  stabilization_auto_corrections st' = stabilization_auto_corrections st.
Proof. intros (_ & _ & H & _). exact H. Qed.

Lemma reset_stabilization_piezos_Ok fuel st st' :
  reset_stabilization_piezos K fuel st = (Ok tt, st') ->
  trace st' = trace st
              ++ [Query ("PIEZOETALON:BASELINE "
                         ++ str_of_float (PIEZO_ETALON_CORRECTION_POS K))%string;
                  Query ("SLOWPIEZO:NOW "
                         ++ str_of_float (SLOW_PIEZO_CORRECTION_POS K))%string;
                  Query ("SCAN:NOW "
                         ++ str_of_float (REFCELL_CORRECTION_POS K))%string]
  /\ stabilization_auto_corrections st' = stabilization_auto_corrections st.
Proof.
  unfold reset_stabilization_piezos. intros H.
  apply bind_Ok in H. destruct H as (v1 & s1 & H1 & H).
  apply bind_Ok in H. destruct H as (v2 & s2 & H2 & H).
  apply bind_Ok in H. destruct H as (v3 & s3 & H3 & H).
  inversion H. subst s3. clear H.
  apply query_command_Ok in H1. destruct H1 as (r1 & H1).
  apply query_command_Ok in H2. destruct H2 as (r2 & H2).
  apply query_command_Ok in H3. destruct H3 as (r3 & H3).
  split.
  - rewrite (answered_trace _ _ _ _ H3), (answered_trace _ _ _ _ H2),
      (answered_trace _ _ _ _ H1), <- !app_assoc. reflexivity.
  - rewrite (frame_corrections _ _ (answered_frame _ _ _ _ H3)),
      (frame_corrections _ _ (answered_frame _ _ _ _ H2)).
    apply (frame_corrections _ _ (answered_frame _ _ _ _ H1)).
Qed.

(** The correction: the scan is stopped, the three piezos are sent to
    their correction positions and the counter goes up by one. *)
Lemma do_stabilization_correction_Ok fuel wavelength drift st st' :
  do_stabilization_correction K cfg fuel wavelength drift st = (Ok tt, st') ->
  trace st' = trace st ++ [StopScan] ++ reported cfg "stabilization_correction"
              ++ [Query ("PIEZOETALON:BASELINE "
                         ++ str_of_float (PIEZO_ETALON_CORRECTION_POS K))%string;
                  Query ("SLOWPIEZO:NOW "
                         ++ str_of_float (SLOW_PIEZO_CORRECTION_POS K))%string;
                  Query ("SCAN:NOW "
                         ++ str_of_float (REFCELL_CORRECTION_POS K))%string]
  /\ stabilization_auto_corrections st' = stabilization_auto_corrections st + 1.
Proof.
  unfold do_stabilization_correction. intros H.
  apply bind_Ok in H. destruct H as ([] & s1 & H1 & H).
  apply bind_Ok in H. destruct H as ([] & s2 & H2 & H).
  apply bind_Ok in H. destruct H as ([] & s3 & H3 & H).
  inversion H. subst st'. clear H. cbn [trace stabilization_auto_corrections with_corrections].
  apply scan_action_Ok in H1. destruct H1 as [T1 C1].
  apply report_event_Ok in H2. destruct H2 as (_ & T2 & C2).
  apply reset_stabilization_piezos_Ok in H3. destruct H3 as [T3 C3].
  split.
  - rewrite T3, T2, T1, <- !app_assoc. reflexivity.
  - rewrite C3, C2, C1. reflexivity.
Qed.

(** A turn of the loop with an empty queue and a target: the wavemeter
    is read, and the rest depends on the drift. *)
Lemma run_iteration_reads fuel st target :
  messages st = [] ->
  target_wavelength st = Some target ->
  run_iteration K cfg fuel st
  = (let current_wavelength := fst (get_wavelength (world st)) in
     let drift := drift_of cfg target current_wavelength in
     (if Py.Qltb (STABILIZATION_TOLERANCE cfg) (Qabs drift) then
        if Py.Qltb drift 0 then
          limit <- is_any_limit_reached K fuel ;;
          if negb limit then
            report_event cfg "wavelength_drift" ;;
            start_scan (SCAN_MODE_DOWN K)
          else do_stabilization_correction K cfg fuel current_wavelength drift
        else
          limit <- is_any_limit_reached K fuel ;;
          if negb limit then
            report_event cfg "wavelength_drift" ;;
            start_scan (SCAN_MODE_UP K)
          else do_stabilization_correction K cfg fuel current_wavelength drift
      else stop_scan) ;;
     emit (Sleep (STABILIZATION_DELAY cfg)) ;;
     ret true) (after_reading st).
Proof.
  intros Hm Ht. unfold run_iteration. rewrite Hm. cbn [List.length Nat.eqb].
  unfold bind at 1, wavemeter_wavelength, after_reading.
  destruct (get_wavelength (world st)) as [current w]. cbn [fst snd].
  unfold bind at 1, get_target. cbn [target_wavelength with_trace with_world].
  rewrite Ht. reflexivity.
Qed.

Lemma sleep_Ok (m : M unit) st again st' :
  (m ;; emit (Sleep (STABILIZATION_DELAY cfg)) ;; ret true) st = (Ok again, st') ->
  again = true
  /\ exists s, m st = (Ok tt, s)
               /\ trace st' = trace s ++ [Sleep (STABILIZATION_DELAY cfg)]
               /\ stabilization_auto_corrections st'
                  = stabilization_auto_corrections s.
Proof.
  intros H. apply bind_Ok in H. destruct H as ([] & s & Hm & H).
  cbn in H. inversion H. split; [reflexivity |]. exists s. repeat split. exact Hm.
Qed.

(** C1. A turn of the stabilization loop with no message in the queue
    reads the wavemeter and computes the drift, the target minus the reading
    rounded to the configured precision. When the turn completes: if the
    drift is within the tolerance it has stopped the continuous scan; if the
    drift exceeds the tolerance and the limit check finds no actuator at a
    limit, it has started the continuous scan downwards when the drift is
    negative and upwards when it is positive. Then it has slept for the
    configured delay, and the loop goes round again. *)
Theorem stabilization_turn fuel st target again st' :
  messages st = [] ->
  target_wavelength st = Some target ->
  run_iteration K cfg fuel st = (Ok again, st') ->
  let current := fst (get_wavelength (world st)) in
  let drift := Py.round (target - current) (WAVEMETER_PRECISION cfg) in
  again = true
  /\ ((Qabs drift <= STABILIZATION_TOLERANCE cfg)%Q ->
      trace st' = trace st
                  ++ [Wavelength; StopScan; Sleep (STABILIZATION_DELAY cfg)])
  /\ ((STABILIZATION_TOLERANCE cfg < Qabs drift)%Q ->
      forall s2,
        is_any_limit_reached K fuel (after_reading st) = (Ok false, s2) ->
        ((drift < 0)%Q ->
         trace st' = trace st
                     ++ [Wavelength; Query "SCAN:NOW?"; Query "SLOWPIEZO:NOW?";
                         Query "PIEZOETALON:BASELINE?"]
                     ++ reported cfg "wavelength_drift"
                     ++ [StartScan (SCAN_MODE_DOWN K);
                         Sleep (STABILIZATION_DELAY cfg)])
        /\ ((0 < drift)%Q ->
            trace st' = trace st
                        ++ [Wavelength; Query "SCAN:NOW?"; Query "SLOWPIEZO:NOW?";
                            Query "PIEZOETALON:BASELINE?"]
                        ++ reported cfg "wavelength_drift"
                        ++ [StartScan (SCAN_MODE_UP K);
                            Sleep (STABILIZATION_DELAY cfg)])).
Proof.
  intros Hm Ht H current drift.
  rewrite (run_iteration_reads fuel st target Hm Ht) in H.
  cbn zeta in H. fold current in H. unfold drift_of in H. fold drift in H.
  apply sleep_Ok in H. destruct H as (-> & s & H & Ts & _).
  split; [reflexivity |].
  assert (Started : forall direction s2,
             is_any_limit_reached K fuel (after_reading st) = (Ok false, s2) ->
             (limit <- is_any_limit_reached K fuel ;;
              if negb limit then
                report_event cfg "wavelength_drift" ;; start_scan direction
              else do_stabilization_correction K cfg fuel current drift)
               (after_reading st) = (Ok tt, s) ->
             trace st' = trace st
                         ++ [Wavelength; Query "SCAN:NOW?"; Query "SLOWPIEZO:NOW?";
                             Query "PIEZOETALON:BASELINE?"]
                         ++ reported cfg "wavelength_drift"
                         ++ [StartScan direction; Sleep (STABILIZATION_DELAY cfg)]).
  { intros direction s2 Hl Hb.
    rewrite (bind_run _ _ _ _ _ Hl) in Hb. cbn [negb] in Hb.
    apply bind_Ok in Hb. destruct Hb as ([] & s3 & Hr & Hs).
    apply report_event_Ok in Hr. destruct Hr as (_ & Tr & _).
    apply scan_action_Ok in Hs. destruct Hs as [T3 _].
    apply is_any_limit_reached_Ok in Hl.
    destruct Hl as (p1 & p2 & p3 & a & b & _ & _ & _ & _ & _ & _ & Tl & _).
    rewrite Ts, T3, Tr, Tl. unfold after_reading. cbn [trace with_trace].
    rewrite <- !app_assoc. reflexivity. }
  split.
  - intros Hin. apply Qltb_ge in Hin. rewrite Hin in H.
    apply scan_action_Ok in H. destruct H as [T _].
    rewrite Ts, T. unfold after_reading. cbn [trace with_trace].
    rewrite <- !app_assoc. reflexivity.
  - intros Hout s2 Hl. apply Qltb_lt in Hout. rewrite Hout in H. split.
    + intros Hneg. apply Qltb_lt in Hneg. rewrite Hneg in H.
      eapply Started; eassumption.
    + intros Hpos. apply Qlt_le_weak, Qltb_ge in Hpos. rewrite Hpos in H.
      eapply Started; eassumption.
Qed.

(** C4. When a turn of the stabilization loop that completes finds the
    drift above the tolerance and the limit check says that an actuator is at
    a limit, it has made a correction: stopped the continuous scan, sent the
    piezo etalon, the slow piezo and the reference cell to their configured
    correction positions, and raised the counter of automatic corrections by
    exactly one. This is what [do_stabilization_correction] does whenever it
    returns. *)
Theorem saturation_correction fuel st target again st' :
  messages st = [] ->
  target_wavelength st = Some target ->
  run_iteration K cfg fuel st = (Ok again, st') ->
  let current := fst (get_wavelength (world st)) in
  let drift := Py.round (target - current) (WAVEMETER_PRECISION cfg) in
  ((STABILIZATION_TOLERANCE cfg < Qabs drift)%Q ->
   forall s2,
     is_any_limit_reached K fuel (after_reading st) = (Ok true, s2) ->
     trace st' = trace st
                 ++ [Wavelength; Query "SCAN:NOW?"; Query "SLOWPIEZO:NOW?";
                     Query "PIEZOETALON:BASELINE?"]
                 ++ [StopScan] ++ reported cfg "stabilization_correction"
                 ++ [Query ("PIEZOETALON:BASELINE "
                            ++ str_of_float (PIEZO_ETALON_CORRECTION_POS K))%string;
                     Query ("SLOWPIEZO:NOW "
                            ++ str_of_float (SLOW_PIEZO_CORRECTION_POS K))%string;
                     Query ("SCAN:NOW "
                            ++ str_of_float (REFCELL_CORRECTION_POS K))%string]
                 ++ [Sleep (STABILIZATION_DELAY cfg)]
     /\ stabilization_auto_corrections st'
        = stabilization_auto_corrections st + 1)
  /\ (forall wavelength drift' s s',
         do_stabilization_correction K cfg fuel wavelength drift' s = (Ok tt, s') ->
         trace s' = trace s ++ [StopScan] ++ reported cfg "stabilization_correction"
                    ++ [Query ("PIEZOETALON:BASELINE "
                               ++ str_of_float (PIEZO_ETALON_CORRECTION_POS K))%string;
                        Query ("SLOWPIEZO:NOW "
                               ++ str_of_float (SLOW_PIEZO_CORRECTION_POS K))%string;
                        Query ("SCAN:NOW "
                               ++ str_of_float (REFCELL_CORRECTION_POS K))%string]
         /\ stabilization_auto_corrections s'
            = stabilization_auto_corrections s + 1).
Proof.
  intros Hm Ht H current drift.
  split; [| intros wavelength drift' s s'; apply do_stabilization_correction_Ok].
  intros Hout s2 Hl.
  rewrite (run_iteration_reads fuel st target Hm Ht) in H.
  cbn zeta in H. fold current in H. unfold drift_of in H. fold drift in H.
  apply sleep_Ok in H. destruct H as (_ & s & H & Ts & Cs).
  apply Qltb_lt in Hout. rewrite Hout in H.
  assert (Hc : do_stabilization_correction K cfg fuel current drift s2 = (Ok tt, s)).
  { destruct (Py.Qltb drift 0);
      rewrite (bind_run _ _ _ _ _ Hl) in H; exact H. }
  apply do_stabilization_correction_Ok in Hc. destruct Hc as [Tc Cc].
  apply is_any_limit_reached_Ok in Hl.
  destruct Hl as (p1 & p2 & p3 & a & b & _ & _ & _ & _ & _ & _ & Tl & _ & _ & Cl & _).
  split.
  - rewrite Ts, Tc, Tl. unfold after_reading. cbn [trace with_trace].
    rewrite <- !app_assoc. reflexivity.
  - rewrite Cs, Cc, Cl. reflexivity.
Qed.

End Stabilization.

(** ** The target wavelength *)

Section Target.

Context {L : Lab} (K : Constants) (cfg : Config).

Lemma target_kept_refl st : target_kept st st.
Proof. unfold target_kept. auto. Qed.

Lemma target_kept_trans a b c : target_kept a b -> target_kept b c -> target_kept a c.
Proof.
  unfold target_kept. intros [H1 H2] [G1 G2]. split; [congruence | auto].
Qed.

Lemma frame_target_kept st st' : frame st st' -> target_kept st st'.
Proof. intros (H1 & _ & _ & H4). split; assumption. Qed.

Lemma keeps_frame_target_kept {A} (m : M A) : keeps frame m -> keeps target_kept m.
Proof. intros H st r st' E. apply frame_target_kept. eapply H, E. Qed.

Lemma birefringent_filter_scan_frame fuel : keeps frame (birefringent_filter_scan K fuel).
Proof.
  intros st r st' H. rewrite birefringent_filter_scan_eq in H.
  eapply extremum_scan_frame, H.
Qed.

Lemma thin_etalon_scan_frame fuel : keeps frame (thin_etalon_scan K fuel).
Proof.
  intros st r st' H. rewrite thin_etalon_scan_eq in H.
  eapply extremum_scan_frame, H.
Qed.

Lemma set_bifi_wavelength_frame fuel value : keeps frame (set_bifi_wavelength K fuel value).
Proof.
  unfold set_bifi_wavelength.
  apply keeps_bind; [exact frame_trans | apply keeps_assert, frame_refl | intros _].
  apply keeps_bind;
    [exact frame_trans | apply (wait_until_idle_frame K (bifi_motor K)) | intros _].
  apply keeps_bind; [exact frame_trans | apply query_frame | intros _].
  apply (wait_until_idle_frame K (bifi_motor K)).
Qed.

(** After the assignment, nothing in [set_wavelength] touches the
    target. *)
Lemma set_wavelength_rest_frame fuel wavelength :
  keeps frame (set_bifi_wavelength K fuel wavelength ;;
               birefringent_filter_scan K fuel ;;
               thin_etalon_scan K fuel ;;
               ret tt).
Proof.
  apply keeps_bind; [exact frame_trans | apply set_bifi_wavelength_frame | intros _].
  apply keeps_bind; [exact frame_trans | apply birefringent_filter_scan_frame | intros _].
  apply keeps_bind; [exact frame_trans | apply thin_etalon_scan_frame | intros _].
  apply keeps_ret, frame_refl.
Qed.

Lemma set_wavelength_target fuel wavelength st r st' :
  set_wavelength K fuel wavelength st = (r, st') ->
  target_wavelength st' = Some wavelength
  /\ stabilization_thread st' = stabilization_thread st.
Proof.
  unfold set_wavelength. unfold bind at 1, set_target. intros H.
  apply set_wavelength_rest_frame in H. split.
  - eapply frame_target; [exact H | reflexivity].
  - destruct H as (H & _). exact H.
Qed.

(** A scan started without a target is the scan started after reading
    the wavemeter, with the reading as the target. *)
Lemma extremum_scan_unset k fuel st :
  target_wavelength st = None ->
  extremum_scan K k fuel st
  = extremum_scan K k fuel
      (with_target (Some (fst (get_wavelength (world st)))) (after_reading st)).
Proof.
  intros Hn. unfold extremum_scan.
  pose proof (ensure_target_run st) as R. rewrite Hn in R.
  rewrite (bind_run _ _ _ _ _ R).
  set (s0 := with_target _ (after_reading st)).
  pose proof (ensure_target_run s0) as R0. cbn [s0 target_wavelength with_target] in R0.
  rewrite (bind_run _ _ _ _ _ R0). reflexivity.
Qed.

Lemma extremum_scan_unset_target k fuel st r st' :
  target_wavelength st = None ->
  extremum_scan K k fuel st = (r, st') ->
  target_wavelength st' = Some (fst (get_wavelength (world st))).
Proof.
  intros Hn H. rewrite (extremum_scan_unset k fuel st Hn) in H.
  apply extremum_scan_frame in H. eapply frame_target; [exact H | reflexivity].
Qed.

Lemma thread_init_frame fuel : keeps frame (thread_init cfg fuel).
Proof.
  unfold thread_init.
  apply keeps_bind; [exact frame_trans | apply scan_action_frame | intros _].
  apply keeps_bind; [exact frame_trans | apply query_frame | intros _].
  apply keeps_bind; [exact frame_trans | apply query_frame | intros _].
  apply keeps_ret, frame_refl.
Qed.

Lemma thread_init_untouched fuel : keeps untouched (thread_init cfg fuel).
Proof.
  unfold thread_init.
  apply keeps_bind; [exact untouched_trans | | intros _].
  { intros st r st'. unfold stop_scan, scan_action.
    destruct (scan_control None (world st)) as [[x |] w];
      intros H; inversion H; unfold untouched; simpl; auto. }
  apply keeps_bind; [exact untouched_trans | apply query_untouched | intros _].
  apply keeps_bind; [exact untouched_trans | apply query_untouched | intros _].
  apply keeps_ret, untouched_refl.
Qed.

(** The stabilization thread keeps the target and the thread field. *)
Lemma is_any_limit_reached_target_kept fuel : keeps target_kept (is_any_limit_reached K fuel).
Proof. apply keeps_frame_target_kept, is_any_limit_reached_frame. Qed.

Lemma reset_stabilization_piezos_frame fuel : keeps frame (reset_stabilization_piezos K fuel).
Proof.
  unfold reset_stabilization_piezos.
  apply keeps_bind; [exact frame_trans | apply query_frame | intros _].
  apply keeps_bind; [exact frame_trans | apply query_frame | intros _].
  apply keeps_bind; [exact frame_trans | apply query_frame | intros _].
  apply keeps_ret, frame_refl.
Qed.

Lemma do_stabilization_correction_target_kept fuel wavelength drift :
  keeps target_kept (do_stabilization_correction K cfg fuel wavelength drift).
Proof.
  unfold do_stabilization_correction.
  apply keeps_bind;
    [exact target_kept_trans | apply keeps_frame_target_kept, scan_action_frame | intros _].
  apply keeps_bind;
    [exact target_kept_trans | apply keeps_frame_target_kept, report_event_frame | intros _].
  apply keeps_bind;
    [exact target_kept_trans
    | apply keeps_frame_target_kept, reset_stabilization_piezos_frame | intros _].
  intros st r st' H. inversion H. unfold target_kept. simpl. auto.
Qed.

Lemma run_iteration_target_kept fuel : keeps target_kept (run_iteration K cfg fuel).
Proof.
  intros st r st'. unfold run_iteration.
  destruct (List.length (messages st) =? 0)%nat.
  - revert st r st'. fold (keeps (A := bool) target_kept).
    apply keeps_bind;
      [exact target_kept_trans
      | apply keeps_frame_target_kept, wavemeter_wavelength_frame | intros current].
    apply keeps_bind;
      [exact target_kept_trans | apply keeps_frame_target_kept, get_target_frame | intros t].
    destruct t as [target |]; [| apply keeps_raise, target_kept_refl].
    apply keeps_bind; [exact target_kept_trans | | intros _].
    + destruct (Py.Qltb _ _); [| apply keeps_frame_target_kept, scan_action_frame].
      destruct (Py.Qltb _ _);
        (apply keeps_bind;
         [exact target_kept_trans | apply is_any_limit_reached_target_kept | intros limit]);
        (destruct (negb limit); [| apply do_stabilization_correction_target_kept]);
        (apply keeps_bind;
         [exact target_kept_trans | apply keeps_frame_target_kept, report_event_frame
         | intros _; apply keeps_frame_target_kept, scan_action_frame]).
    + apply keeps_bind;
        [exact target_kept_trans | apply keeps_frame_target_kept, emit_frame | intros _].
      apply keeps_ret, target_kept_refl.
  - revert st r st'. fold (keeps (A := bool) target_kept).
    apply keeps_bind;
      [exact target_kept_trans | apply keeps_frame_target_kept, scan_action_frame | intros _].
    apply keeps_ret, target_kept_refl.
Qed.

Lemma run_target_kept fuel n : keeps target_kept (run K cfg fuel n).
Proof.
  induction n as [| n IH]; cbn [run].
  - apply keeps_timeout, target_kept_refl.
  - apply keeps_bind;
      [exact target_kept_trans | apply run_iteration_target_kept | intros again].
    destruct again; [exact IH | apply keeps_ret, target_kept_refl].
Qed.

(** X24. The target is set before the scans use it: [set_wavelength] assigns
    the requested wavelength to the target before anything else; the rest of
    it runs from the state with the target assigned, nothing was sent before,
    and the target still has that value when it ends, however it ends. A
    birefringent or thin etalon scan started with no target is the same scan
    started after one reading of the wavemeter, with that reading as the
    target. *)
Theorem target_set_before_scans fuel :
  (forall wavelength st r st',
      set_wavelength K fuel wavelength st = (r, st') ->
      target_wavelength st' = Some wavelength
      /\ set_wavelength K fuel wavelength st
         = (set_bifi_wavelength K fuel wavelength ;;
            birefringent_filter_scan K fuel ;;
            thin_etalon_scan K fuel ;;
            ret tt) (with_target (Some wavelength) st))
  /\ (forall st r st',
         target_wavelength st = None ->
         birefringent_filter_scan K fuel st = (r, st') ->
         target_wavelength st' = Some (fst (get_wavelength (world st)))
         /\ birefringent_filter_scan K fuel st
            = birefringent_filter_scan K fuel
                (with_target (Some (fst (get_wavelength (world st))))
                   (after_reading st)))
  /\ (forall st r st',
         target_wavelength st = None ->
         thin_etalon_scan K fuel st = (r, st') ->
         target_wavelength st' = Some (fst (get_wavelength (world st)))
         /\ thin_etalon_scan K fuel st
            = thin_etalon_scan K fuel
                (with_target (Some (fst (get_wavelength (world st))))
                   (after_reading st))).
Proof.
  split.
  { intros wavelength st r st' H. split; [| reflexivity].
    apply set_wavelength_target in H. apply H. }
  split.
  { intros st r st' Hn H. split.
    - rewrite birefringent_filter_scan_eq in H.
      eapply extremum_scan_unset_target; eassumption.
    - rewrite !birefringent_filter_scan_eq. apply extremum_scan_unset, Hn. }
  intros st r st' Hn H. split.
  - rewrite thin_etalon_scan_eq in H.
    eapply extremum_scan_unset_target; eassumption.
  - rewrite !thin_etalon_scan_eq. apply extremum_scan_unset, Hn.
Qed.


End Target.

(** ** The nudge and the range of the thin etalon *)

Section Nudge.

Context {L : Lab} (K : Constants).

Lemma select_extremum_choice k fuel positions voltages st :
  select_extremum K k fuel positions voltages st
  = (cd <- choose_extremum K k fuel positions voltages ;;
     set_motor_pos K (scan_motor k) fuel (nudged k (fst cd)) ;;
     ret (snd cd)) st.
Proof.
  unfold select_extremum, choose_extremum.
  destruct (savgol_filter voltages (window_length k) 3) as [smoothed |];
    [| reflexivity].
  destruct (Np.index_all positions _) as [candidates |]; [| reflexivity].
  rewrite bind_assoc. apply bind_ext. intros diffs s.
  destruct (Np.argmin diffs) as [i |]; [| reflexivity].
  destruct (nth_error candidates i) as [chosen |]; reflexivity.
Qed.

(** A scan is its choice followed by the move to the position chosen,
    nudged. *)
Lemma extremum_scan_choice k fuel st :
  extremum_scan K k fuel st
  = (c <- scan_choice K k fuel ;;
     set_motor_pos K (scan_motor k) fuel (nudged k (snd (fst c))) ;;
     ret (snd c)) st.
Proof.
  unfold extremum_scan, scan_choice.
  rewrite bind_assoc. apply bind_ext. intros _ s0.
  rewrite bind_assoc. apply bind_ext. intros center s1.
  rewrite bind_assoc. apply bind_ext. intros pv s2.
  rewrite select_extremum_choice, bind_assoc. apply bind_ext. intros cd s3.
  rewrite bind_ret_l. reflexivity.
Qed.

(** If the position chosen plus the nudge is not inside the range of the
    motor, the thin etalon scan fails at its last move, whatever the
    window. *)
Lemma thin_etalon_scan_nudge_refused fuel st center chosen d :
  fst (scan_choice K (thin_etalon_kind K) fuel st) = Ok (center, chosen, d) ->
  chosen + THIN_ETALON_NUDGE K <= 0
  \/ THIN_ETALON_UPPER_LIMIT K <= chosen + THIN_ETALON_NUDGE K ->
  thin_etalon_scan K fuel st
  = (Raise (AssertionError "Target motor position out of range."),
     snd (scan_choice K (thin_etalon_kind K) fuel st)).
Proof.
  intros E Hout. rewrite thin_etalon_scan_eq, extremum_scan_choice.
  destruct (scan_choice K (thin_etalon_kind K) fuel st) as [r s4] eqn:Ec.
  cbn [fst snd] in *. subst r.
  rewrite (bind_run _ _ _ _ _ Ec). cbn [fst snd thin_etalon_kind nudged scan_motor].
  unfold bind.
  rewrite (set_motor_pos_refused K (thin_etalon_motor K)) by exact Hout.
  reflexivity.
Qed.

End Nudge.

#[local] Existing Instance Sim.lab.

(** C9. A thin etalon scan with a valid window can fail at its last
    move. On the bench with the default scan parameters (range 2000, step 20,
    nudge 50) and 50000 motor positions, with the thin etalon at 47999: the
    window [45999, 49999) passes the assertion, the scan samples it, finds
    the minimum at position 49959, measures the wavelength there and chooses
    it; adding the nudge gives 50009, not below the upper limit, so the final
    move fails its assertion and the scan raises after the choice. *)
Theorem nudge_can_leave_the_range :
  let K := Sim.constants in
  let st := Sim.aimed 750 Sim.edge_bench in
  exists center chosen d,
    fst (scan_choice K (thin_etalon_kind K) 10 st) = Ok (center, chosen, d)
    /\ center = 47999
    /\ 0 < center - THIN_ETALON_SCAN_RANGE K
    /\ center + THIN_ETALON_SCAN_RANGE K < THIN_ETALON_UPPER_LIMIT K
    /\ chosen = 49959
    /\ THIN_ETALON_UPPER_LIMIT K <= chosen + THIN_ETALON_NUDGE K
    /\ thin_etalon_scan K 10 st
       = (Raise (AssertionError "Target motor position out of range."),
          snd (scan_choice K (thin_etalon_kind K) 10 st)).
Proof.
  intros K st.
  assert (E : match fst (scan_choice K (thin_etalon_kind K) 10 st) with
              | Ok (center, chosen, _) => (center =? 47999) && (chosen =? 49959)
              | _ => false
              end = true).
  { vm_compute. reflexivity. }
  destruct (fst (scan_choice K (thin_etalon_kind K) 10 st))
    as [[[center chosen] d] | e |] eqn:E'; try discriminate E.
  apply andb_true_iff in E. destruct E as [Ec Eh].
  apply Z.eqb_eq in Ec. apply Z.eqb_eq in Eh. subst center chosen.
  rename E' into E.
  exists 47999, 49959, d.
  split; [reflexivity |]. split; [reflexivity |].
  split; [reflexivity |]. split; [reflexivity |]. split; [reflexivity |].
  split; [discriminate |].
  apply (thin_etalon_scan_nudge_refused K 10 st 47999 49959 d E).
  right. discriminate.
Qed.

(** ** The theorems at work on the bench *)

Lemma fst_ok {A} (run : result A * state) (r : result A) :
  fst run = r -> run = (r, snd run).
Proof. destruct run as [r' s]. cbn. intros ->. reflexivity. Defined.

Lemma returned_ok {A} (default : A) (run : result A * state) :
  Sim.is_ok run = true -> run = (Ok (Sim.returned default run), snd run).
Proof.
  unfold Sim.is_ok, Sim.returned. destruct run as [[a | e |] s]; cbn;
    intros H; try discriminate. reflexivity.
Defined.

(** On the bench aimed at 749.9 nm and reading 750 nm, a turn of the loop
    starts the scan downwards. *)
Lemma stabilization_turn_witness :
  let K := Sim.constants in
  let cfg := Sim.config in
  let st := Sim.aimed (7499 # 10) Sim.bench in
  trace (snd (run_iteration K cfg 10 st))
  = trace st
    ++ [Wavelength; Query "SCAN:NOW?"; Query "SLOWPIEZO:NOW?";
        Query "PIEZOETALON:BASELINE?"]
    ++ reported cfg "wavelength_drift"
    ++ [StartScan (SCAN_MODE_DOWN K); Sleep (STABILIZATION_DELAY cfg)].
Proof.
  intros K cfg st.
  assert (R : run_iteration K cfg 10 st
              = (Ok (Sim.returned false (run_iteration K cfg 10 st)),
                 snd (run_iteration K cfg 10 st))).
  { apply returned_ok. vm_compute. reflexivity. }
  assert (Lim : is_any_limit_reached K 10 (after_reading st)
                = (Ok false, snd (is_any_limit_reached K 10 (after_reading st)))).
  { apply fst_ok. vm_compute. reflexivity. }
  destruct (stabilization_turn K cfg 10 st (7499 # 10) _ _ eq_refl eq_refl R)
    as (_ & _ & H).
  apply (H ltac:(vm_compute; reflexivity) _ Lim).
  vm_compute. reflexivity.
Defined.


(** The window of the scenario, and a thin etalon at 1500, too low for a
    scan of range 2000. *)
Lemma scan_window_half_open_witness :
  (exists positions,
      Py.range (1000 - 400) (1000 + 400) 4 = Some positions
      /\ StronglySorted Z.lt positions
      /\ forall p, In p positions -> 0 < p < 5000)
  /\ fst (thin_etalon_scan Sim.constants 10 (Sim.aimed 750 Sim.low_bench))
     = Raise (AssertionError (invalid (thin_etalon_kind Sim.constants))).
Proof.
  pose proof (scan_window_half_open Sim.constants) as (A & _ & _ & _ & _ & R).
  split.
  - destruct (A 1000 400 4 5000 ltac:(lia) ltac:(lia) ltac:(lia))
      as (positions & H1 & _ & _ & H2 & H3).
    exists positions. split; [exact H1 |]. split; [exact H2 | exact H3].
  - set (st := Sim.aimed 750 Sim.low_bench).
    set (k := thin_etalon_kind Sim.constants).
    assert (C : read_center k 10 st = (Ok 1500, snd (read_center k 10 st))).
    { apply fst_ok. vm_compute. reflexivity. }
    destruct (R 10%nat st st 1500 _ eq_refl C ltac:(left; vm_compute; discriminate))
      as (H & _).
    rewrite H. reflexivity.
Defined.

(** On the bench with the reference cell at 0.98, a turn of the loop
    makes a correction. *)
Lemma saturation_correction_witness :
  let K := Sim.constants in
  let cfg := Sim.config in
  let st := Sim.aimed (7499 # 10) Sim.saturated_bench in
  stabilization_auto_corrections (snd (run_iteration K cfg 10 st))
  = stabilization_auto_corrections st + 1.
Proof.
  intros K cfg st.
  assert (R : run_iteration K cfg 10 st
              = (Ok (Sim.returned false (run_iteration K cfg 10 st)),
                 snd (run_iteration K cfg 10 st))).
  { apply returned_ok. vm_compute. reflexivity. }
  assert (Lim : is_any_limit_reached K 10 (after_reading st)
                = (Ok true, snd (is_any_limit_reached K 10 (after_reading st)))).
  { apply fst_ok. vm_compute. reflexivity. }
  destruct (saturation_correction K cfg 10 st (7499 # 10) _ _ eq_refl eq_refl R)
    as (H & _).
  apply (H ltac:(vm_compute; reflexivity) _ Lim).
Defined.

(** Moving the birefringent filter of the bench to 600. *)
Lemma set_motor_position_checked_witness :
  let K := Sim.constants in
  let st := Sim.fresh Sim.bench in
  exists n1 n2,
    trace (snd (set_bifi_motor_pos K 10 600 st))
    = trace st ++ repeat (Query "MOTBI:STATUS?") (S n1)
      ++ [Query ("MOTBI:POS " ++ Py.str_int 600)%string]
      ++ repeat (Query "MOTBI:STATUS?") (S n2).
Proof.
  intros K st.
  destruct (set_motor_position_checked K 10 600 st) as (_ & _ & H & _).
  destruct (H ltac:(vm_compute; split; reflexivity)
              (snd (set_bifi_motor_pos K 10 600 st))) as (_ & T).
  apply T. apply fst_ok. vm_compute. reflexivity.
Defined.

(** The thin etalon scan of the bench ends inside the range of the
    motor. *)
Lemma thin_etalon_scan_nudges_witness :
  let K := Sim.constants in
  let t := thin_etalon_scan K 10 (Sim.fresh Sim.bench) in
  exists chosen,
    best_pos (Sim.returned Sim.no_scan t) = chosen + THIN_ETALON_NUDGE K
    /\ 0 < best_pos (Sim.returned Sim.no_scan t) < THIN_ETALON_UPPER_LIMIT K.
Proof.
  intros K t.
  assert (T : t = (Ok (Sim.returned Sim.no_scan t), snd t)).
  { apply returned_ok. vm_compute. reflexivity. }
  destruct (thin_etalon_scan_nudges K 10 _ _ _ T)
    as (candidates & i & chosen & s4 & n1 & n2 & _ & _ & _ & H1 & H2 & _).
  exists chosen. split; [exact H1 | exact H2].
Defined.

(** The limit checker on the bench at rest: three reads, no limit. *)
Lemma limit_checker_spec_witness :
  let K := Sim.constants in
  let st := Sim.fresh Sim.bench in
  trace (snd (is_any_limit_reached K 10 st))
  = trace st ++ [Query "SCAN:NOW?"; Query "SLOWPIEZO:NOW?";
                 Query "PIEZOETALON:BASELINE?"].
Proof.
  intros K st.
  assert (R : is_any_limit_reached K 10 st
              = (Ok false, snd (is_any_limit_reached K 10 st))).
  { apply fst_ok. vm_compute. reflexivity. }
  destruct (limit_checker_spec K 10 st _ _ R)
    as (p1 & p2 & p3 & s1 & s2 & _ & _ & _ & _ & _ & _ & _ & T & _).
  exact T.
Defined.


(** A scan of the birefringent filter started on the bench with no target
    ends with the reading of the wavemeter as the target, and
    [set_wavelength 750] ends with 750 as the target. *)
Lemma target_set_before_scans_witness :
  let K := Script.short_scans in
  let st := Sim.fresh Sim.bench in
  target_wavelength (snd (set_wavelength K 10 750 st)) = Some 750%Q
  /\ target_wavelength (snd (birefringent_filter_scan K 10 st))
     = Some (fst (get_wavelength (world st))).
Proof.
  intros K st.
  destruct (target_set_before_scans K 10) as (H1 & H2 & _).
  split.
  - exact (proj1 (H1 750%Q st _ _ (surjective_pairing _))).
  - exact (proj1 (H2 st _ _ eq_refl (surjective_pairing _))).
Defined.

(** The faulty bench answers the position query by an error, which
    [query] hands back as it is when told not to raise. *)
Lemma query_error_response_not_converted_witness :
  let st := Sim.fresh Sim.faulty_bench in
  query 1 "MOTBI:POS?" true false st
  = (Ok (Str "!ERROR 5"),
     with_trace (trace st ++ [Query "MOTBI:POS?"]) (with_world Sim.faulty_bench st)).
Proof.
  intros st.
  apply (proj1 (proj2 (query_error_response_not_converted 0 "MOTBI:POS?" true st
                         "!ERROR 5" _
                         (ex_intro _ Sim.faulty_bench (conj eq_refl eq_refl)))));
    reflexivity.
Defined.

(** ** Where two sentences of the spec say more than the code does *)

(** C7 as stated fails. With the reference cell read at 1.5, past its
    upper limit 1, and the two other piezos at mid-range, the checker returns
    true although no position is at most 0.05 away from a limit. *)
Lemma limit_checker_beyond_limit :
  let K := Sim.constants in
  let st := Sim.fresh Sim.overshot_bench in
  exists s1 s2 st',
    reads "SCAN:NOW?" (3 # 2) st s1
    /\ reads "SLOWPIEZO:NOW?" (1 # 2) s1 s2
    /\ reads "PIEZOETALON:BASELINE?" (1 # 2) s2 st'
    /\ fst (is_any_limit_reached K 10 st) = Ok true
    /\ ~ ((Qabs ((3 # 2) - REFERENCE_CELL_LOWER_LIMIT K) <= 5 # 100
           \/ Qabs ((3 # 2) - REFERENCE_CELL_UPPER_LIMIT K) <= 5 # 100)%Q
          \/ (Qabs ((1 # 2) - SLOW_PIEZO_LOWER_LIMIT K) <= 5 # 100
              \/ Qabs ((1 # 2) - SLOW_PIEZO_UPPER_LIMIT K) <= 5 # 100)%Q
          \/ (Qabs ((1 # 2) - PIEZO_ETALON_LOWER_LIMIT K) <= 5 # 100
              \/ Qabs ((1 # 2) - PIEZO_ETALON_UPPER_LIMIT K) <= 5 # 100)%Q).
Proof.
  intros K st.
  assert (R : forall command answer token x s,
             world s = Sim.overshot_bench ->
             Sim.respond command Sim.overshot_bench = (Some answer, Sim.overshot_bench) ->
             Py.startswith (Py.strip answer) "!ERROR" = false ->
             nth_error (Py.split (Py.strip answer)) 1 = Some token ->
             Sim.parse_float token = Some x ->
             reads command x s
               (with_trace (trace s ++ [Query command])
                  (with_world Sim.overshot_bench s))).
  { intros command answer token x s Hw Hr He Ht Hx.
    exists answer, token. split; [| auto].
    exists Sim.overshot_bench. split; [| reflexivity].
    cbn [instrument_query Sim.lab]. rewrite Hw. exact Hr. }
  do 3 eexists.
  split; [eapply (R _ ":SCAN:NOW: 1.5" "1.5"); reflexivity |].
  split; [eapply (R _ ":SLOWPIEZO:NOW: 0.5" "0.5"); reflexivity |].
  split; [eapply (R _ ":PIEZOETALON:BASELINE: 0.5" "0.5"); reflexivity |].
  split; [vm_compute; reflexivity |].
  intros [[H | H] | [[H | H] | [H | H]]]; vm_compute in H; apply H; reflexivity.
Qed.

(** C10 as stated fails. Behind a link that ends every answer with a
    line feed, the instrument answers ['!ERROR 5'] and a line feed; the
    response starts with ['!ERROR'], [raise_on_error] is false, and [query]
    returns ['!ERROR 5'], which is not the response as it came. *)
Lemma query_error_response_is_stripped :
  let st := @initial Sim.line_lab Sim.faulty_bench in
  let r := ("!ERROR 5" ++ String (ascii_of_nat 10) "")%string in
  exists st',
    @answered Sim.line_lab "MOTBI:POS?" r st st'
    /\ Py.startswith r "!ERROR" = true
    /\ @query Sim.line_lab 1 "MOTBI:POS?" true false st = (Ok (Str "!ERROR 5"), st')
    /\ Str "!ERROR 5" <> Str r.
Proof.
  intros st r. eexists.
  split; [exists Sim.faulty_bench; split; reflexivity |].
  split; [reflexivity |].
  split; [reflexivity |].
  discriminate.
Qed.

(** * More of the code *)

(** ** The configuration *)

Section ConfigurationFacts.

Import Configuration.

Lemma split_on_not_nil sep s : PyStr.split_on sep s <> [].
Proof.
  destruct s as [| c s]; cbn [PyStr.split_on]; [discriminate |].
  destruct (Ascii.eqb c sep); [discriminate |].
  destruct (PyStr.split_on sep s); discriminate.
Qed.

Lemma split_on_app sep a b :
  PyStr.split_on sep (a ++ String sep b)%string
  = PyStr.split_on sep a ++ PyStr.split_on sep b.
Proof.
  induction a as [| c a IH]; cbn [String.append PyStr.split_on].
  - rewrite Ascii.eqb_refl. reflexivity.
  - destruct (Ascii.eqb c sep); [rewrite IH; reflexivity |].
    rewrite IH. pose proof (split_on_not_nil sep a) as N.
    destruct (PyStr.split_on sep a) as [| piece pieces]; [contradiction |].
    reflexivity.
Qed.

Lemma lookup_store_same key v items : lookup key (store key v items) = Some v.
Proof.
  induction items as [| [k old] items IH]; cbn [store lookup].
  - rewrite String.eqb_refl. reflexivity.
  - destruct (String.eqb key k) eqn:E; cbn [lookup]; rewrite E; [reflexivity | exact IH].
Qed.

Lemma lookup_store_other key key' v items :
  key <> key' -> lookup key' (store key v items) = lookup key' items.
Proof.
  intros N. induction items as [| [k old] items IH]; cbn [store lookup].
  - destruct (String.eqb_spec key' key) as [-> | _]; [contradiction | reflexivity].
  - destruct (String.eqb_spec key k) as [-> | Nk]; cbn [lookup].
    + destruct (String.eqb_spec key' k) as [-> | _]; [contradiction | reflexivity].
    + rewrite IH. reflexivity.
Qed.

Lemma reduce_getitem_app keys keys' node :
  reduce_getitem (keys ++ keys') node
  = match reduce_getitem keys node with
    | inr child => reduce_getitem keys' child
    | inl e => inl e
    end.
Proof.
  revert node. induction keys as [| key keys IH]; intros node; cbn [app reduce_getitem].
  - reflexivity.
  - destruct (getitem node key) as [e | child]; [reflexivity | apply IH].
Qed.

Lemma assign_Null keys last v : exists e, assign keys last v Null = inl e.
Proof. destruct keys; cbn; eauto. Qed.

(** After the assignment, the path leads to the value. *)
Lemma assign_then_reduce keys : forall last v node node',
  assign keys last v node = inr node' ->
  reduce_getitem (keys ++ [last]) node' = inr v.
Proof.
  induction keys as [| key keys IH]; intros last v node node' H;
    cbn [assign] in H; destruct node as [| ? | ? | ? | ? | items]; try discriminate.
  - inversion H. subst. cbn. rewrite lookup_store_same. reflexivity.
  - destruct (assign keys last v _) as [e | child'] eqn:E; [discriminate |].
    inversion H. subst. cbn [app reduce_getitem getitem].
    rewrite lookup_store_same. eapply IH, E.
Qed.

(** The assignment goes through exactly when the keys before the last
    lead to a dictionary. *)
Lemma assign_succeeds keys : forall last v node,
  (exists node', assign keys last v node = inr node')
  <-> exists items, reduce_getitem keys node = inr (Dict items).
Proof.
  induction keys as [| key keys IH]; intros last v node; cbn [assign reduce_getitem].
  - destruct node as [| ? | ? | ? | ? | items]; split;
      try (intros (? & HH); discriminate HH);
      intros _; eexists; reflexivity.
  - destruct node as [| ? | ? | ? | ? | items]; cbn [getitem];
      try (split; intros (? & HH); discriminate HH).
    destruct (lookup key items) as [child |].
    + rewrite <- (IH last v child). split.
      * intros (node' & H).
        destruct (assign keys last v child) as [e | child']; [discriminate | eauto].
      * intros (child' & E). rewrite E. eauto.
    + split.
      * intros (node' & H). destruct (assign_Null keys last v) as (e & E).
        rewrite E in H. discriminate.
      * intros (? & HH). discriminate.
Qed.

(** A path that parts from the assigned one leads where it led before. *)
Lemma assign_other_path prefix : forall keys last v node node' k1 r1 k2 r2,
  assign keys last v node = inr node' ->
  keys ++ [last] = prefix ++ k1 :: r1 ->
  k1 <> k2 ->
  reduce_getitem (prefix ++ k2 :: r2) node'
  = reduce_getitem (prefix ++ k2 :: r2) node.
Proof.
  induction prefix as [| a prefix IH];
    intros keys last v node node' k1 r1 k2 r2 H Hp N.
  - cbn [app] in *. destruct keys as [| key keys]; cbn [assign] in H;
      destruct node as [| ? | ? | ? | ? | items]; try discriminate.
    + inversion Hp. subst. inversion H. subst.
      cbn [reduce_getitem getitem]. rewrite lookup_store_other by exact N. reflexivity.
    + destruct (assign keys last v _) as [e | child']; [discriminate |].
      inversion Hp. subst. inversion H. subst.
      cbn [reduce_getitem getitem]. rewrite lookup_store_other by exact N. reflexivity.
  - destruct keys as [| key keys].
    + cbn [app] in Hp. inversion Hp. destruct prefix; discriminate.
    + cbn [app] in Hp. inversion Hp. subst a.
      cbn [assign] in H. destruct node as [| ? | ? | ? | ? | items]; try discriminate.
      destruct (lookup key items) as [child |] eqn:El.
      * destruct (assign keys last v child) as [e | child'] eqn:E; [discriminate |].
        inversion H. subst. cbn [app reduce_getitem getitem].
        rewrite lookup_store_same, El. eapply IH; eassumption.
      * destruct (assign_Null keys last v) as (e & E). rewrite E in H. discriminate.
Qed.

Lemma keys_removelast_last name :
  removelast (PyStr.split_on "." name) ++ [last (PyStr.split_on "." name) EmptyString]
  = PyStr.split_on "." name.
Proof. symmetry. apply app_removelast_last, split_on_not_nil. Qed.

Lemma get_parent_then_last name conf :
  get name conf
  = match reduce_getitem (removelast (PyStr.split_on "." name)) conf with
    | inr parent => getitem parent (last (PyStr.split_on "." name) EmptyString)
    | inl e => inl e
    end.
Proof.
  unfold get. rewrite <- keys_removelast_last at 1.
  rewrite reduce_getitem_app.
  destruct (reduce_getitem _ conf) as [e | parent]; [reflexivity |].
  cbn. destruct (getitem parent _); reflexivity.
Qed.

(** After [set(name, v)] has gone through, [get(name)] gives [v]. *)
Theorem get_after_set name v conf conf' :
  set name v conf = inr conf' -> get name conf' = inr v.
Proof.
  unfold set, get. intros H. rewrite <- keys_removelast_last.
  eapply assign_then_reduce, H.
Qed.

(** [set(name, v)] changes nothing under a name that parts from [name]
    at some key; the key where they part may be the last of either. *)
Theorem set_leaves_other_names name name' v conf conf' prefix k1 r1 k2 r2 :
  PyStr.split_on "." name = prefix ++ k1 :: r1 ->
  PyStr.split_on "." name' = prefix ++ k2 :: r2 ->
  k1 <> k2 ->
  set name v conf = inr conf' ->
  get name' conf' = get name' conf.
Proof.
  unfold set, get. intros H1 H2 N H. rewrite H2.
  eapply assign_other_path; [exact H | | exact N].
  rewrite keys_removelast_last. exact H1.
Qed.

(** [set] needs the parent and makes the leaf; [get] needs both.
    [set(name, v)] goes through exactly when the keys of [name] before the
    last lead to a dictionary; it raises otherwise, and never makes a
    missing parent. When the parent is there and has no item under the last
    key, [get(name)] raises [KeyError] with that key, and [set(name, v)] adds
    the item. *)
Theorem set_needs_parent_only name v conf :
  ((exists conf', set name v conf = inr conf')
   <-> exists items,
         reduce_getitem (removelast (PyStr.split_on "." name)) conf
         = inr (Dict items))
  /\ (forall items,
         reduce_getitem (removelast (PyStr.split_on "." name)) conf
         = inr (Dict items) ->
         lookup (last (PyStr.split_on "." name) EmptyString) items = None ->
         get name conf
         = inl (KeyError (last (PyStr.split_on "." name) EmptyString))
         /\ exists conf', set name v conf = inr conf' /\ get name conf' = inr v).
Proof.
  split; [apply assign_succeeds |].
  intros items Hp Hl. split.
  - rewrite get_parent_then_last, Hp. cbn. rewrite Hl. reflexivity.
  - destruct (proj2 (assign_succeeds _ (last (PyStr.split_on "." name) EmptyString)
                       v conf) (ex_intro _ items Hp)) as (conf' & H).
    exists conf'. split; [exact H |].
    unfold get. rewrite <- keys_removelast_last.
    eapply assign_then_reduce, H.
Qed.

(** [get] of a dotted name is [get] of what is before a dot, then [get]
    of what is after it, from there. *)
Theorem get_dotted_name a b conf :
  get (a ++ String "." b)%string conf
  = match get a conf with
    | inr node => get b node
    | inl e => inl e
    end.
Proof.
  unfold get. rewrite split_on_app. apply reduce_getitem_app.
Qed.

End ConfigurationFacts.

(** The wavemeter precision of the defaults set to 4 and read back. *)
Lemma get_after_set_witness :
  exists conf',
    Configuration.set "wavemeter.precision" (Configuration.Num 4)
                      Configuration.DEFAULTS = inr conf'
    /\ Configuration.get "wavemeter.precision" conf' = inr (Configuration.Num 4).
Proof.
  destruct (Configuration.set "wavemeter.precision" (Configuration.Num 4)
                              Configuration.DEFAULTS) as [e | conf'] eqn:E.
  - vm_compute in E. discriminate E.
  - exists conf'. split; [reflexivity |].
    exact (get_after_set "wavemeter.precision" (Configuration.Num 4)
                         Configuration.DEFAULTS conf' E).
Defined.

(** Setting the stabilization delay leaves the tolerance as it was. *)
Lemma set_leaves_other_names_witness :
  exists conf',
    Configuration.set "matisse.stabilization.delay" (Configuration.Num 1)
                      Configuration.DEFAULTS = inr conf'
    /\ Configuration.get "matisse.stabilization.tolerance" conf'
       = Configuration.get "matisse.stabilization.tolerance" Configuration.DEFAULTS.
Proof.
  destruct (Configuration.set "matisse.stabilization.delay" (Configuration.Num 1)
                              Configuration.DEFAULTS) as [e | conf'] eqn:E.
  - vm_compute in E. discriminate E.
  - exists conf'. split; [reflexivity |].
    apply (set_leaves_other_names
             "matisse.stabilization.delay" "matisse.stabilization.tolerance"
             (Configuration.Num 1) Configuration.DEFAULTS conf'
             ["matisse"; "stabilization"] "delay" [] "tolerance" []).
    + reflexivity.
    + reflexivity.
    + discriminate.
    + exact E.
Defined.

(** The defaults have a [gui] dictionary with nothing in it: a new item
    can be set there, but not under a dictionary that is not there. *)
Lemma set_needs_parent_only_witness :
  Configuration.get "gui.theme" Configuration.DEFAULTS
  = inl (Configuration.KeyError "theme")
  /\ (exists conf',
         Configuration.set "gui.theme" (Configuration.Text "dark")
                           Configuration.DEFAULTS = inr conf'
         /\ Configuration.get "gui.theme" conf' = inr (Configuration.Text "dark"))
  /\ ~ (exists conf',
           Configuration.set "plot.theme" (Configuration.Text "dark")
                             Configuration.DEFAULTS = inr conf').
Proof.
  pose proof (set_needs_parent_only "gui.theme" (Configuration.Text "dark")
                                    Configuration.DEFAULTS) as [_ H].
  destruct (H [] eq_refl eq_refl) as [G S].
  split; [exact G |]. split; [exact S |].
  intros Hs.
  apply (proj1 (set_needs_parent_only "plot.theme" (Configuration.Text "dark")
                                      Configuration.DEFAULTS)) in Hs.
  destruct Hs as (items & Hi). vm_compute in Hi. discriminate Hi.
Defined.

(** ** The instrument link: errors *)

Section QueryErrors.

Context {L : Lab}.

Lemma query_S fuel command numeric_result raise_on_error :
  query (S fuel) command numeric_result raise_on_error
  = (r <- visa_query command ;;
     if Py.startswith (Py.strip r) "!ERROR" then
       if raise_on_error then
         err_codes <- query fuel "ERROR:CODE?" false true ;;
         query fuel "ERROR:CLEAR" false true ;;
         match err_codes with
         | Str codes =>
             raise (RuntimeError ("Error executing Matisse command '"
                                  ++ command ++ "' " ++ codes)%string)
         | Num _ => raise TypeError
         end
       else ret (Str (Py.strip r))
     else if numeric_result then
       match nth_error (Py.split (Py.strip r)) 1 with
       | None => raise IndexError
       | Some token =>
           match float_of_str token with
           | None => raise ValueError
           | Some x => ret (Num x)
           end
       end
     else ret (Str (Py.strip r))).
Proof. reflexivity. Qed.

(** A command answered without error returns the answer, stripped. *)
Lemma query_command_run fuel command raise_on_error st r st' :
  answered command r st st' ->
  Py.startswith (Py.strip r) "!ERROR" = false ->
  query (S fuel) command false raise_on_error st = (Ok (Str (Py.strip r)), st').
Proof.
  intros Ha He. apply visa_query_Ok in Ha.
  rewrite query_S, (bind_run _ _ _ _ _ Ha), He. reflexivity.
Qed.

(** A query that is not numeric returns a string. *)
Lemma query_command_Str fuel command raise_on_error st v st' :
  query fuel command false raise_on_error st = (Ok v, st') ->
  exists s, v = Str s.
Proof.
  intros H. apply query_Ok in H. destruct H as (r & _ & H).
  destruct (Py.startswith (Py.strip r) "!ERROR").
  - destruct H as [_ ->]. eauto.
  - eauto.
Qed.

Lemma visa_query_raises command st e st' :
  visa_query command st = (Raise e, st') -> e = IOError.
Proof.
  unfold visa_query. destruct (instrument_query command (world st)) as [[s |] w];
    intros H; inversion H; reflexivity.
Qed.

(** The kinds of exception [query] raises. *)
Lemma query_raise_kinds fuel : forall command numeric_result raise_on_error st e st',
  query fuel command numeric_result raise_on_error st = (Raise e, st') ->
  e = IOError
  \/ (raise_on_error = true /\ exists msg, e = RuntimeError msg)
  \/ (numeric_result = true /\ (e = IndexError \/ e = ValueError)).
Proof.
  induction fuel as [| fuel IH]; intros command numeric_result raise_on_error st e st' H;
    [discriminate H |].
  rewrite query_S in H.
  destruct (bind_cases _ _ _ _ _ H) as [(r & s1 & _ & H1) | [(e' & H1 & E) | (_ & E)]];
    [| inversion E; subst e'; left; eapply visa_query_raises, H1 | discriminate E].
  clear H. destruct (Py.startswith (Py.strip r) "!ERROR").
  - destruct raise_on_error; [| discriminate H1].
    destruct (bind_cases _ _ _ _ _ H1) as [(c & s2 & Hc & H2) | [(e' & H2 & E) | (_ & E)]];
      [| inversion E; subst e' | discriminate E].
    + destruct (query_command_Str _ _ _ _ _ _ Hc) as (codes & ->).
      destruct (bind_cases _ _ _ _ _ H2) as [(c' & s3 & _ & H3) | [(e' & H3 & E) | (_ & E)]];
        [| inversion E; subst e' | discriminate E].
      * inversion H3. right. left. split; [reflexivity |]. eauto.
      * destruct (IH _ _ _ _ _ _ H3) as [-> | [(_ & msg & ->) | (F & _)]];
          [left; reflexivity | right; left; eauto | discriminate F].
    + destruct (IH _ _ _ _ _ _ H2) as [-> | [(_ & msg & ->) | (F & _)]];
        [left; reflexivity | right; left; eauto | discriminate F].
  - destruct numeric_result; [| discriminate H1].
    destruct (nth_error (Py.split (Py.strip r)) 1) as [token |].
    + destruct (float_of_str token); [discriminate H1 |].
      inversion H1. right. right. auto.
    + inversion H1. right. right. auto.
Qed.

(** X1. An error answer with [raise_on_error] set: [query] asks the
    instrument for the error codes, clears them, and raises a [RuntimeError]
    that names the command and carries the answer to ['ERROR:CODE?'],
    stripped. Three exchanges are made, in this order, whatever
    [numeric_result] is. *)
Theorem query_error_is_reported
    fuel command numeric_result st r s1 codes s2 cleared s3 :
  answered command r st s1 ->
  Py.startswith (Py.strip r) "!ERROR" = true ->
  answered "ERROR:CODE?" codes s1 s2 ->
  Py.startswith (Py.strip codes) "!ERROR" = false ->
  answered "ERROR:CLEAR" cleared s2 s3 ->
  Py.startswith (Py.strip cleared) "!ERROR" = false ->
  query (S (S fuel)) command numeric_result true st
  = (Raise (RuntimeError (error_message command (Py.strip codes))), s3)
  /\ trace s3
     = trace st ++ [Query command; Query "ERROR:CODE?"; Query "ERROR:CLEAR"].
Proof.
  intros Ha He Hc Hce Hl Hle. split.
  - pose proof (proj2 (visa_query_Ok _ _ _ _) Ha) as Hv.
    rewrite query_S, (bind_run _ _ _ _ _ Hv), He.
    rewrite (bind_run _ _ _ _ _ (query_command_run fuel _ true _ _ _ Hc Hce)).
    rewrite (bind_run _ _ _ _ _ (query_command_run fuel _ true _ _ _ Hl Hle)).
    reflexivity.
  - rewrite (answered_trace _ _ _ _ Hl), (answered_trace _ _ _ _ Hc),
      (answered_trace _ _ _ _ Ha), <- !app_assoc. reflexivity.
Qed.

(** X2. An instrument that answers every command with an error, the
    request for the error codes included: [query] with [raise_on_error] calls
    itself for ['ERROR:CODE?'] again and again and never gets to its [raise].
    However deep the recursion may go ([fuel]), it is used up, and what has
    been sent is the command and then ['ERROR:CODE?'] at every level below. *)
Theorem query_error_storm :
  (forall command w, exists r w',
      instrument_query command w = (Some r, w')
      /\ Py.startswith (Py.strip r) "!ERROR" = true) ->
  forall fuel command numeric_result st,
    fst (query fuel command numeric_result true st) = Timeout
    /\ trace (snd (query fuel command numeric_result true st))
       = trace st ++ match fuel with
                     | O => []
                     | S depth => Query command :: repeat (Query "ERROR:CODE?") depth
                     end.
Proof.
  intros Hall. induction fuel as [| fuel IH]; intros command numeric_result st.
  - cbn. rewrite app_nil_r. auto.
  - destruct (Hall command (world st)) as (r & w' & E & He).
    assert (Hv : visa_query command st
                 = (Ok r, with_trace (trace st ++ [Query command]) (with_world w' st))).
    { unfold visa_query. rewrite E. reflexivity. }
    rewrite query_S, (bind_run _ _ _ _ _ Hv), He.
    set (s1 := with_trace (trace st ++ [Query command]) (with_world w' st)).
    destruct (IH "ERROR:CODE?" false s1) as [Ht Htr].
    unfold bind.
    destruct (query fuel "ERROR:CODE?" false true s1) as [[c | e |] s2];
      cbn [fst snd] in *; try discriminate Ht.
    split; [reflexivity |]. rewrite Htr. cbn [s1 trace with_trace].
    rewrite <- app_assoc. destruct fuel; reflexivity.
Qed.

(** What [query] raises, and whom the [RuntimeError] names. *)
Lemma query_raise_cases fuel :
  forall command numeric_result raise_on_error st e st',
  query fuel command numeric_result raise_on_error st = (Raise e, st') ->
  e = IOError
  \/ (raise_on_error = true
      /\ exists named codes,
           e = RuntimeError (error_message named codes)
           /\ (named = command \/ named = "ERROR:CODE?" \/ named = "ERROR:CLEAR"))
  \/ (numeric_result = true /\ (e = IndexError \/ e = ValueError)).
Proof.
  induction fuel as [| fuel IH]; intros command numeric_result raise_on_error st e st' H;
    [discriminate H |].
  rewrite query_S in H.
  destruct (bind_cases _ _ _ _ _ H) as [(r & s1 & _ & H1) | [(e' & H1 & E) | (_ & E)]];
    [| inversion E; subst e'; left; eapply visa_query_raises, H1 | discriminate E].
  clear H. destruct (Py.startswith (Py.strip r) "!ERROR").
  - destruct raise_on_error; [| discriminate H1].
    assert (Inner : forall c s e0 s',
               query fuel c false true s = (Raise e0, s') ->
               c = "ERROR:CODE?" \/ c = "ERROR:CLEAR" ->
               e0 = IOError
               \/ (true = true
                   /\ exists named codes,
                        e0 = RuntimeError (error_message named codes)
                        /\ (named = command \/ named = "ERROR:CODE?"
                            \/ named = "ERROR:CLEAR"))
               \/ (numeric_result = true /\ (e0 = IndexError \/ e0 = ValueError))).
    { intros c s e0 s' Hq Hc.
      destruct (IH _ _ _ _ _ _ Hq) as [-> | [(_ & named & codes & -> & Hn) | (F & _)]];
        [left; reflexivity | | discriminate F].
      right. left. split; [reflexivity |]. exists named, codes.
      split; [reflexivity |]. destruct Hn as [-> | Hn]; [| auto].
      destruct Hc as [-> | ->]; auto. }
    destruct (bind_cases _ _ _ _ _ H1) as [(c & s2 & Hc & H2) | [(e' & H2 & E) | (_ & E)]];
      [| inversion E; subst e'; eapply Inner; [exact H2 | auto] | discriminate E].
    destruct (query_command_Str _ _ _ _ _ _ Hc) as (codes & ->).
    destruct (bind_cases _ _ _ _ _ H2) as [(c' & s3 & _ & H3) | [(e' & H3 & E) | (_ & E)]];
      [| inversion E; subst e'; eapply Inner; [exact H3 | auto] | discriminate E].
    inversion H3. right. left. split; [reflexivity |]. exists command, codes. auto.
  - destruct numeric_result; [| discriminate H1].
    destruct (nth_error (Py.split (Py.strip r)) 1) as [token |].
    + destruct (float_of_str token); [discriminate H1 |].
      inversion H1. right. right. auto.
    + inversion H1. right. right. auto.
Qed.

(** X3. How [query] ends. It returns, or it raises one of these: an
    [IOError] when the instrument is out of reach; with [raise_on_error], a
    [RuntimeError] whose message names the command, or ['ERROR:CODE?'] or
    ['ERROR:CLEAR'] when it is one of these two that was answered with an
    error; with [numeric_result], an [IndexError] or a [ValueError] from the
    conversion. Or else its recursion runs out of depth, which is Python's
    [RecursionError] and the exhausted [fuel] here: that comes only with
    [raise_on_error] and after an error answer to the command; without
    [raise_on_error], [query] does not call itself. *)
Theorem query_ends_only_these_ways fuel command numeric_result raise_on_error st :
  (forall e st',
      query fuel command numeric_result raise_on_error st = (Raise e, st') ->
      e = IOError
      \/ (raise_on_error = true
          /\ exists named codes,
               e = RuntimeError (error_message named codes)
               /\ (named = command \/ named = "ERROR:CODE?" \/ named = "ERROR:CLEAR"))
      \/ (numeric_result = true /\ (e = IndexError \/ e = ValueError)))
  /\ (forall st',
         query (S fuel) command numeric_result raise_on_error st = (Timeout, st') ->
         raise_on_error = true
         /\ exists r s1,
              answered command r st s1
              /\ Py.startswith (Py.strip r) "!ERROR" = true
              /\ trace_grows s1 st').
Proof.
  split.
  - intros e st'. apply query_raise_cases.
  - intros st' H. rewrite query_S in H.
    destruct (bind_cases _ _ _ _ _ H) as [(r & s1 & H1 & H2) | [(e & _ & E) | (H1 & _)]].
    + apply visa_query_Ok in H1.
      destruct (Py.startswith (Py.strip r) "!ERROR") eqn:He.
      * destruct raise_on_error; [| discriminate H2].
        split; [reflexivity |]. exists r, s1.
        split; [exact H1 |]. split; [exact He |].
        assert (G : keeps trace_grows
                      (err_codes <- query fuel "ERROR:CODE?" false true ;;
                       query fuel "ERROR:CLEAR" false true ;;
                       match err_codes with
                       | Str codes =>
                           raise (RuntimeError ("Error executing Matisse command '"
                                                ++ command ++ "' " ++ codes)%string)
                       | Num _ => raise TypeError
                       end : M pyval)).
        { apply keeps_bind; [exact trace_grows_trans | apply query_trace_grows |].
          intros c.
          apply keeps_bind; [exact trace_grows_trans | apply query_trace_grows |].
          intros _. destruct c; apply keeps_raise, trace_grows_refl. }
        eapply G, H2.
      * destruct numeric_result; [| discriminate H2].
        destruct (nth_error (Py.split (Py.strip r)) 1) as [token |];
          [| discriminate H2].
        destruct (float_of_str token); discriminate H2.
    + discriminate E.
    + exfalso. unfold visa_query in H1.
      destruct (instrument_query command (world st)) as [[x |] w]; discriminate H1.
Qed.

(** X4. The conversion errors of a numeric query. [query] raises
    [IndexError] exactly when [numeric_result] is set and the answer is not an
    error and has no second token, and [ValueError] exactly when the second
    token is there and is not a float; one exchange has been made then. An
    error answer, or a query that is not numeric, never raises either. *)
Theorem query_conversion_errors
    fuel command numeric_result raise_on_error st r s1 st' :
  answered command r st s1 ->
  (query (S fuel) command numeric_result raise_on_error st = (Raise IndexError, st')
   <-> st' = s1 /\ numeric_result = true
       /\ Py.startswith (Py.strip r) "!ERROR" = false
       /\ nth_error (Py.split (Py.strip r)) 1 = None)
  /\ (query (S fuel) command numeric_result raise_on_error st = (Raise ValueError, st')
      <-> st' = s1 /\ numeric_result = true
          /\ Py.startswith (Py.strip r) "!ERROR" = false
          /\ exists token,
               nth_error (Py.split (Py.strip r)) 1 = Some token
               /\ float_of_str token = None).
Proof.
  intros Ha. apply visa_query_Ok in Ha.
  rewrite query_S, (bind_run _ _ _ _ _ Ha).
  assert (Err : forall e, e = IndexError \/ e = ValueError ->
            (err_codes <- query fuel "ERROR:CODE?" false true ;;
             query fuel "ERROR:CLEAR" false true ;;
             match err_codes with
             | Str codes =>
                 raise (RuntimeError ("Error executing Matisse command '"
                                      ++ command ++ "' " ++ codes)%string)
             | Num _ => raise TypeError
             end) s1 <> (@Raise pyval e, st')).
  { intros e He H.
    assert (Inner : forall c s e0 s',
               query fuel c false true s = (Raise e0, s') ->
               e0 <> IndexError /\ e0 <> ValueError).
    { intros c s e0 s' Hq.
      destruct (query_raise_kinds _ _ _ _ _ _ _ Hq) as [-> | [(_ & msg & ->) | (F & _)]];
        [split; discriminate | split; discriminate | discriminate F]. }
    destruct (bind_cases _ _ _ _ _ H) as [(c & s2 & _ & H2) | [(e' & H2 & E) | (_ & E)]];
      [| inversion E; subst e'; destruct (Inner _ _ _ _ H2); destruct He; contradiction
       | discriminate E].
    destruct (bind_cases _ _ _ _ _ H2) as [(c' & s3 & _ & H3) | [(e' & H3 & E) | (_ & E)]];
      [| inversion E; subst e'; destruct (Inner _ _ _ _ H3); destruct He; contradiction
       | discriminate E].
    destruct c; inversion H3; subst e; destruct He; discriminate. }
  destruct (Py.startswith (Py.strip r) "!ERROR").
  - destruct raise_on_error.
    + split; split; intros H.
      * exfalso. eapply Err; [| exact H]. auto.
      * destruct H as (_ & _ & F & _). discriminate F.
      * exfalso. eapply Err; [| exact H]. auto.
      * destruct H as (_ & _ & F & _). discriminate F.
    + split; split; intros H; try discriminate H;
        destruct H as (_ & _ & F & _); discriminate F.
  - destruct numeric_result.
    + destruct (nth_error (Py.split (Py.strip r)) 1) as [token |].
      * destruct (float_of_str token) as [x |] eqn:Ex; split; split; intros H;
          try discriminate H.
        -- destruct H as (_ & _ & _ & F). discriminate F.
        -- destruct H as (_ & _ & _ & t & Ht & Hf). inversion Ht. subst t. congruence.
        -- destruct H as (_ & _ & _ & F). discriminate F.
        -- inversion H. repeat split. eauto.
        -- destruct H as (-> & _). reflexivity.
      * split; split; intros H; try discriminate H.
        -- inversion H. auto.
        -- destruct H as (-> & _). reflexivity.
        -- destruct H as (_ & _ & _ & t & Ht & _). discriminate Ht.
    + split; split; intros H; try discriminate H;
        destruct H as (_ & F & _); discriminate F.
Qed.

End QueryErrors.

(** The bench that refuses ['MOTBI:POS?'] answers ['OK'] to the request
    for the error codes. *)
Lemma query_error_is_reported_witness :
  fst (query 2 "MOTBI:POS?" true true (Sim.fresh Sim.faulty_bench))
  = Raise (RuntimeError "Error executing Matisse command 'MOTBI:POS?' OK").
Proof.
  set (st := Sim.fresh Sim.faulty_bench).
  set (s1 := with_trace (trace st ++ [Query "MOTBI:POS?"]) (with_world (world st) st)).
  set (s2 := with_trace (trace s1 ++ [Query "ERROR:CODE?"]) (with_world (world s1) s1)).
  set (s3 := with_trace (trace s2 ++ [Query "ERROR:CLEAR"]) (with_world (world s2) s2)).
  assert (A1 : answered "MOTBI:POS?" "!ERROR 5" st s1).
  { exists (world st). split; reflexivity. }
  assert (A2 : answered "ERROR:CODE?" "OK" s1 s2).
  { exists (world s1). split; reflexivity. }
  assert (A3 : answered "ERROR:CLEAR" "OK" s2 s3).
  { exists (world s2). split; reflexivity. }
  destruct (query_error_is_reported 0 "MOTBI:POS?" true st "!ERROR 5" s1 "OK" s2 "OK" s3
              A1 eq_refl A2 eq_refl A3 eq_refl) as [H _].
  rewrite H. reflexivity.
Defined.

(** Five levels of recursion on the instrument that answers everything
    with an error. *)
Lemma query_error_storm_witness :
  fst (@query Script.deaf 5 "MOTBI:POS?" true true (@initial Script.deaf tt)) = Timeout
  /\ trace (snd (@query Script.deaf 5 "MOTBI:POS?" true true (@initial Script.deaf tt)))
     = [Query "MOTBI:POS?"; Query "ERROR:CODE?"; Query "ERROR:CODE?";
        Query "ERROR:CODE?"; Query "ERROR:CODE?"].
Proof.
  apply (@query_error_storm Script.deaf).
  intros command w. exists "!ERROR 9", w. split; reflexivity.
Defined.

(** The error the bench raises for the refused ['MOTBI:POS?'] is a
    [RuntimeError] that names the command. *)
Lemma query_ends_only_these_ways_witness :
  exists named codes,
    RuntimeError "Error executing Matisse command 'MOTBI:POS?' OK"
    = RuntimeError (error_message named codes)
    /\ (named = "MOTBI:POS?" \/ named = "ERROR:CODE?" \/ named = "ERROR:CLEAR").
Proof.
  assert (H : query 2 "MOTBI:POS?" true true (Sim.fresh Sim.faulty_bench)
              = (Raise (RuntimeError "Error executing Matisse command 'MOTBI:POS?' OK"),
                 snd (query 2 "MOTBI:POS?" true true (Sim.fresh Sim.faulty_bench)))).
  { apply fst_ok. vm_compute. reflexivity. }
  destruct (proj1 (query_ends_only_these_ways 2 _ _ _ _) _ _ H)
    as [F | [(_ & G) | (_ & [F | F])]].
  - discriminate F.
  - exact G.
  - discriminate F.
  - discriminate F.
Defined.

(** An answer of one word to a numeric query. *)
Lemma query_conversion_errors_witness :
  fst (@query Script.lab 1 "MOTBI:POS?" true true (@initial Script.lab ["OK"]))
  = Raise IndexError.
Proof.
  set (st := @initial Script.lab ["OK"]).
  set (s1 := with_trace (trace st ++ [Query "MOTBI:POS?"]) (@with_world Script.lab [] st)).
  assert (A : @answered Script.lab "MOTBI:POS?" "OK" st s1).
  { exists []. split; reflexivity. }
  destruct (@query_conversion_errors Script.lab 0 "MOTBI:POS?" true true st "OK" s1 s1 A)
    as [[_ H] _].
  rewrite H; [reflexivity |]. repeat split.
Defined.

(** ** The motors: status and coarse wavelength *)

Section MotorFacts.

Context {L : Lab} (K : Constants).

Lemma low_byte z : Z.land z 255 = z mod 256 /\ 0 <= Z.land z 255 < 256.
Proof.
  change 255 with (Z.ones 8). rewrite Z.land_ones by lia.
  change (2 ^ 8) with 256. split; [reflexivity | apply Z.mod_pos_bound; lia].
Qed.

(** X5. The status of a motor is the low byte of its status register:
    what [bifi_motor_status] and [thin_etalon_motor_status] return is the
    register read, cut to an integer, modulo 256, a number from 0 to 255
    whatever the register holds (a negative one included). *)
Theorem motor_status_low_byte fuel st s st' :
  (bifi_motor_status fuel st = (Ok s, st') ->
   exists x, reads "MOTBI:STATUS?" x st st'
             /\ s = Py.int_of_float x mod 256 /\ 0 <= s < 256)
  /\ (thin_etalon_motor_status fuel st = (Ok s, st') ->
      exists x, reads "MOTTE:STATUS?" x st st'
                /\ s = Py.int_of_float x mod 256 /\ 0 <= s < 256).
Proof.
  split; intros H.
  - apply bind_Ok in H. destruct H as (v & s1 & Hq & H).
    apply query_reads in Hq. destruct Hq as (x & -> & Hr).
    cbn in H. inversion H. subst. exists x.
    destruct (low_byte (Py.int_of_float x)) as [E B]. rewrite E in *. auto.
  - apply bind_Ok in H. destruct H as (v & s1 & Hq & H).
    apply query_reads in Hq. destruct Hq as (x & -> & Hr).
    cbn in H. inversion H. subst. exists x.
    destruct (low_byte (Py.int_of_float x)) as [E B]. rewrite E in *. auto.
Qed.

(** X6. [set_bifi_wavelength] refuses a wavelength of 720 nm or less, or
    of 800 nm or more, by a failed assertion, with nothing sent and nothing
    changed. For a wavelength between them it returns exactly when the motor
    was polled until idle, ['MOTBI:WAVELENGTH <value>'] was then answered
    without error, and the motor was polled until idle again. *)
Theorem set_bifi_wavelength_checked fuel value st :
  ((value <= 720 \/ 800 <= value)%Q ->
   set_bifi_wavelength K fuel value st
   = (Raise (AssertionError "Target wavelength out of range."), st))
  /\ ((720 < value /\ value < 800)%Q ->
      forall st',
        set_bifi_wavelength K fuel value st = (Ok tt, st')
        <-> exists n1 n2 s1 s2 r,
              (n1 <= fuel)%nat /\ (n2 <= fuel)%nat
              /\ idle_after K (bifi_motor K) fuel n1 st s1
              /\ answered ("MOTBI:WAVELENGTH " ++ str_of_float value)%string r s1 s2
              /\ Py.startswith (Py.strip r) "!ERROR" = false
              /\ idle_after K (bifi_motor K) fuel n2 s2 st'
              /\ trace st'
                 = trace st ++ repeat (Query "MOTBI:STATUS?") n1
                   ++ [Query ("MOTBI:WAVELENGTH " ++ str_of_float value)%string]
                   ++ repeat (Query "MOTBI:STATUS?") n2).
Proof.
  unfold set_bifi_wavelength.
  change (bifi_motor_status fuel) with (motor_status (bifi_motor K) fuel).
  split.
  - intros H.
    replace (Py.Qltb 720 value && Py.Qltb value 800) with false; [reflexivity |].
    symmetry. apply andb_false_iff. rewrite !Qltb_ge. tauto.
  - intros [Hlo Hhi] st'.
    replace (Py.Qltb 720 value && Py.Qltb value 800) with true
      by (symmetry; apply andb_true_iff; rewrite !Qltb_lt; auto).
    split.
    + intros H.
      apply bind_Ok in H. destruct H as ([] & s0 & H0 & H). inversion H0. subst s0.
      apply bind_Ok in H. destruct H as ([] & s1 & H1 & H).
      apply bind_Ok in H. destruct H as (v & s2 & H2 & H).
      apply wait_until_idle_Ok in H1. destruct H1 as (n1 & Hn1 & H1).
      apply wait_until_idle_Ok in H. destruct H as (n2 & Hn2 & H3).
      apply query_Ok in H2. destruct H2 as (r & Ha & H2).
      exists n1, n2, s1, s2, r.
      split; [exact Hn1 |]. split; [exact Hn2 |]. split; [exact H1 |].
      split; [exact Ha |]. split; [| split; [exact H3 |]].
      * destruct (Py.startswith (Py.strip r) "!ERROR"); [| reflexivity].
        destruct H2. discriminate.
      * rewrite (idle_after_trace _ _ _ _ _ _ H3), (answered_trace _ _ _ _ Ha),
          (idle_after_trace _ _ _ _ _ _ H1), <- !app_assoc. reflexivity.
    + intros (n1 & n2 & s1 & s2 & r & Hn1 & Hn2 & H1 & Ha & He & H3 & _).
      cbn [assert]. rewrite (bind_run _ _ _ tt st eq_refl).
      assert (W1 : wait_until_idle K (motor_status (bifi_motor K) fuel) fuel st
                   = (Ok tt, s1))
        by (apply wait_until_idle_Ok; eauto).
      rewrite (bind_run _ _ _ _ _ W1).
      pose proof (idle_after_fuel _ _ _ _ _ _ H1) as Hf.
      destruct fuel as [| fuel']; [lia |].
      rewrite (bind_run _ _ _ _ _ (query_command_run fuel' _ true _ _ _ Ha He)).
      apply wait_until_idle_Ok. eauto.
Qed.

(** X7. [set_wavelength] with a wavelength that [set_bifi_wavelength]
    refuses raises the failed assertion with nothing sent, but the target
    wavelength has been assigned by then and stays: the controller is left
    aimed at the wavelength it has refused. *)
Theorem set_wavelength_refused_keeps_target fuel wavelength st :
  (wavelength <= 720 \/ 800 <= wavelength)%Q ->
  set_wavelength K fuel wavelength st
  = (Raise (AssertionError "Target wavelength out of range."),
     with_target (Some wavelength) st)
  /\ trace (snd (set_wavelength K fuel wavelength st)) = trace st
  /\ target_wavelength (snd (set_wavelength K fuel wavelength st)) = Some wavelength.
Proof.
  intros H.
  assert (E : set_wavelength K fuel wavelength st
              = (Raise (AssertionError "Target wavelength out of range."),
                 with_target (Some wavelength) st)).
  { unfold set_wavelength. unfold bind at 1, set_target.
    unfold bind at 1. unfold set_bifi_wavelength.
    replace (Py.Qltb 720 wavelength && Py.Qltb wavelength 800) with false;
      [reflexivity |].
    symmetry. apply andb_false_iff. rewrite !Qltb_ge. tauto. }
  rewrite E. auto.
Qed.

End MotorFacts.

(** The register of the bench reads 259 while the motor moves: status 3. *)
Lemma motor_status_low_byte_witness :
  0 <= Sim.returned 0 (bifi_motor_status 10 (Sim.fresh Sim.bench)) < 256.
Proof.
  assert (R : bifi_motor_status 10 (Sim.fresh Sim.bench)
              = (Ok (Sim.returned 0 (bifi_motor_status 10 (Sim.fresh Sim.bench))),
                 snd (bifi_motor_status 10 (Sim.fresh Sim.bench)))).
  { apply returned_ok. vm_compute. reflexivity. }
  destruct (proj1 (motor_status_low_byte 10 _ _ _) R) as (x & _ & _ & H).
  exact H.
Defined.

(** 700 nm is refused; 750 nm is set on the bench after two polls, with
    the motor idle at once afterwards. *)
Lemma set_bifi_wavelength_checked_witness :
  set_bifi_wavelength Sim.constants 10 700 (Sim.fresh Sim.bench)
  = (Raise (AssertionError "Target wavelength out of range."), Sim.fresh Sim.bench)
  /\ exists n1 n2,
       trace (snd (set_bifi_wavelength Sim.constants 10 750 (Sim.fresh Sim.bench)))
       = repeat (Query "MOTBI:STATUS?") n1
         ++ [Query "MOTBI:WAVELENGTH 750.0"]
         ++ repeat (Query "MOTBI:STATUS?") n2.
Proof.
  split.
  - apply (proj1 (set_bifi_wavelength_checked Sim.constants 10 700 (Sim.fresh Sim.bench))).
    left. unfold Qle. cbn. lia.
  - assert (R : set_bifi_wavelength Sim.constants 10 750 (Sim.fresh Sim.bench)
                = (Ok tt, snd (set_bifi_wavelength Sim.constants 10 750
                                 (Sim.fresh Sim.bench)))).
    { apply fst_ok. vm_compute. reflexivity. }
    assert (In_range : (720 < 750 /\ 750 < 800)%Q).
    { unfold Qlt. cbn. lia. }
    destruct (proj1 (proj2 (set_bifi_wavelength_checked Sim.constants 10 750
                              (Sim.fresh Sim.bench)) In_range _) R)
      as (n1 & n2 & s1 & s2 & r & _ & _ & _ & _ & _ & _ & H).
    exists n1, n2. exact H.
Defined.

(** 900 nm is refused and stays as the target. *)
Lemma set_wavelength_refused_keeps_target_witness :
  fst (set_wavelength Sim.constants 10 900 (Sim.fresh Sim.bench))
  = Raise (AssertionError "Target wavelength out of range.")
  /\ target_wavelength (snd (set_wavelength Sim.constants 10 900 (Sim.fresh Sim.bench)))
     = Some 900%Q.
Proof.
  assert (Out : (900 <= 720 \/ 800 <= 900)%Q).
  { right. unfold Qle. cbn. lia. }
  destruct (set_wavelength_refused_keeps_target Sim.constants 10 900
              (Sim.fresh Sim.bench) Out) as (E & _ & T).
  split; [rewrite E; reflexivity | exact T].
Defined.

(** ** The scans: the data and the position chosen *)

Lemma range_some_nth lower upper step ps j p :
  lower < upper ->
  Py.range lower upper step = Some ps ->
  nth_error ps j = Some p ->
  0 < step /\ p = lower + Z.of_nat j * step /\ p < upper.
Proof.
  intros Hlu Hr Hn. unfold Py.range in Hr.
  destruct (Z.eqb_spec step 0) as [? | Hne]; [discriminate |].
  inversion Hr. subst ps. clear Hr.
  assert (Hj : (j < Z.to_nat (Py.range_len lower upper step))%nat).
  { assert (Hsome : nth_error (Py.range_up (Z.to_nat (Py.range_len lower upper step))
                                lower step) j <> None) by congruence.
    apply nth_error_Some in Hsome. rewrite range_up_length in Hsome. exact Hsome. }
  assert (Hs : 0 < step).
  { destruct (Z.ltb_spec 0 step) as [? | Hle]; [assumption |].
    exfalso. unfold Py.range_len in Hj.
    destruct (Z.ltb_spec 0 step); [lia |].
    destruct (Z.ltb_spec upper lower); [lia |]. cbn in Hj. lia. }
  rewrite range_up_nth in Hn by exact Hj. inversion Hn.
  split; [exact Hs |]. split; [reflexivity |].
  apply range_len_spec; [exact Hs | lia].
Qed.

Lemma range_length lower upper step ps :
  lower < upper -> 0 < step ->
  Py.range lower upper step = Some ps ->
  Z.of_nat (List.length ps) = (upper - lower - 1) / step + 1.
Proof.
  intros Hlu Hs Hr. unfold Py.range in Hr.
  destruct (Z.eqb_spec step 0); [lia |]. inversion Hr.
  rewrite range_up_length. unfold Py.range_len.
  destruct (Z.ltb_spec 0 step); [| lia]. destruct (Z.ltb_spec lower upper); [| lia].
  assert (0 <= (upper - lower - 1) / step) by (apply Z.div_pos; lia). lia.
Qed.

(** Indexing a window by an array of indices gives the positions at
    these indices. *)
Lemma index_all_range lower upper step ps idx : forall cs,
  lower < upper -> Py.range lower upper step = Some ps ->
  Np.index_all ps idx = Some cs ->
  cs = map (fun j => lower + Z.of_nat j * step) idx.
Proof.
  induction idx as [| j idx IH]; intros cs Hlu Hr H; cbn [Np.index_all] in H.
  - inversion H. reflexivity.
  - destruct (nth_error ps j) as [p |] eqn:Ej; [| discriminate].
    destruct (Np.index_all ps idx) as [cs' |]; [| discriminate].
    inversion H. cbn [map]. f_equal.
    + eapply range_some_nth; eassumption.
    + apply IH; auto.
Qed.









Section ScanData.

Context {L : Lab} (K : Constants).

Lemma sample_scan_length (move : Z -> M unit) (read : M pyval) ps :
  forall acc st vs st',
    sample_scan move read ps acc st = (Ok vs, st') ->
    List.length vs = (List.length acc + List.length ps)%nat.
Proof.
  induction ps as [| pos ps IH]; intros acc st vs st' H; cbn [sample_scan] in H.
  - inversion H. cbn. lia.
  - apply bind_Ok in H. destruct H as ([] & s1 & _ & H).
    apply bind_Ok in H. destruct H as (v & s2 & _ & H).
    apply bind_Ok in H. destruct H as (x & s3 & _ & H).
    apply IH in H. rewrite H, length_app. cbn. lia.
Qed.

(** Where the position chosen lies, in a scan that has returned. *)
Lemma scanned_geometry k fuel st d st' center candidates i chosen s3 s4 :
  scanned K k fuel st d st' center candidates i chosen s3 s4 ->
  (forall x, comparator k x x = false) ->
  Py.range (center - scan_range k) (center + scan_range k) (scan_step k)
  = Some (positions d)
  /\ candidates
     = map (fun j => center - scan_range k + Z.of_nat j * scan_step k) (extrema d)
  /\ 0 < scan_step k
  /\ 0 < center - scan_range k
  /\ center + scan_range k < upper_limit (scan_motor k)
  /\ 0 < scan_range k
  /\ exists j,
       nth_error (extrema d) i = Some j
       /\ (1 <= j)%nat
       /\ nth_error (positions d) j = Some chosen
       /\ chosen = center - scan_range k + Z.of_nat j * scan_step k
       /\ chosen < center + scan_range k.
Proof.
  intros (s0 & x & s1 & s2 & H0 & Hr & Hc & Hw & Hrange & Hs & Hback & Hsg & Hex
          & Hidx & Hm & Ha & Hn & Hb & Hf) Hirr.
  destruct (window_ok_true _ _ Hw) as (Hlo & Hhi & Hpos).
  assert (Hlu : center - scan_range k < center + scan_range k) by lia.
  destruct (index_all_spec _ _ _ Hidx) as [_ Hnth].
  destruct (Hnth _ _ Hn) as (j & Hj & Hp).
  destruct (range_some_nth _ _ _ _ _ _ Hlu Hrange Hp) as (Hstep & Hval & Hup).
  split; [exact Hrange |].
  split; [eapply index_all_range; eassumption |].
  split; [exact Hstep |]. split; [exact Hlo |]. split; [exact Hhi |].
  split; [exact Hpos |].
  exists j. split; [exact Hj |]. split; [| auto].
  assert (Hin : In j (Np.argrelextrema (smoothed_data d) (comparator k) 5)).
  { rewrite <- Hex. eapply nth_error_In, Hj. }
  apply argrelextrema_In in Hin. destruct Hin as [Hlen Hrel].
  apply relextremum_strict in Hrel; [| exact Hirr | lia | exact Hlen]. lia.
Qed.

Lemma extremum_scan_geometry k fuel st d st' :
  (forall x, comparator k x x = false) ->
  extremum_scan K k fuel st = (Ok d, st') ->
  exists center j chosen,
    best_pos d = nudged k chosen
    /\ Py.range (center - scan_range k) (center + scan_range k) (scan_step k)
       = Some (positions d)
    /\ 0 < scan_step k
    /\ In j (extrema d)
    /\ (1 <= j)%nat
    /\ nth_error (positions d) j = Some chosen
    /\ chosen = center - scan_range k + Z.of_nat j * scan_step k
    /\ center - scan_range k < chosen < center + scan_range k
    /\ 0 < chosen < upper_limit (scan_motor k).
Proof.
  intros Hirr H. apply extremum_scan_Ok in H.
  destruct H as (center & candidates & i & chosen & s3 & s4 & H).
  destruct (scanned_geometry _ _ _ _ _ _ _ _ _ _ _ H Hirr)
    as (Hrange & _ & Hstep & Hlo & Hhi & _ & j & Hj & H1 & Hp & Hv & Hup).
  destruct H as (s0 & x & s1 & s2 & _ & _ & _ & _ & _ & _ & _ & _ & _ & _ & _ & _ & _
                 & Hb & _).
  exists center, j, chosen.
  split; [exact Hb |]. split; [exact Hrange |]. split; [exact Hstep |].
  split; [eapply nth_error_In, Hj |]. split; [exact H1 |]. split; [exact Hp |].
  split; [exact Hv |]. split; nia.
Qed.

(** X8. In a scan that has returned, the position chosen (for the thin
    etalon: the final position less the nudge) is one of the positions
    sampled and never the first of them: it is [center - range + j * step]
    for an index [j >= 1] of the window, strictly inside
    [(center - range, center + range)] and inside the range of the motor.
    A scan returns only with a positive step. *)
Theorem scan_choice_inside_window fuel st d st' :
  (birefringent_filter_scan K fuel st = (Ok d, st') ->
   exists center j,
     Py.range (center - BIREFRINGENT_SCAN_RANGE K) (center + BIREFRINGENT_SCAN_RANGE K)
              (BIREFRINGENT_SCAN_STEP K) = Some (positions d)
     /\ 0 < BIREFRINGENT_SCAN_STEP K
     /\ In j (extrema d) /\ (1 <= j)%nat
     /\ nth_error (positions d) j = Some (best_pos d)
     /\ best_pos d
        = center - BIREFRINGENT_SCAN_RANGE K + Z.of_nat j * BIREFRINGENT_SCAN_STEP K
     /\ center - BIREFRINGENT_SCAN_RANGE K < best_pos d
        < center + BIREFRINGENT_SCAN_RANGE K
     /\ 0 < best_pos d < BIREFRINGENT_FILTER_UPPER_LIMIT K)
  /\ (thin_etalon_scan K fuel st = (Ok d, st') ->
      exists center j,
        Py.range (center - THIN_ETALON_SCAN_RANGE K) (center + THIN_ETALON_SCAN_RANGE K)
                 (THIN_ETALON_SCAN_STEP K) = Some (positions d)
        /\ 0 < THIN_ETALON_SCAN_STEP K
        /\ In j (extrema d) /\ (1 <= j)%nat
        /\ nth_error (positions d) j = Some (best_pos d - THIN_ETALON_NUDGE K)
        /\ best_pos d - THIN_ETALON_NUDGE K
           = center - THIN_ETALON_SCAN_RANGE K + Z.of_nat j * THIN_ETALON_SCAN_STEP K
        /\ center - THIN_ETALON_SCAN_RANGE K < best_pos d - THIN_ETALON_NUDGE K
           < center + THIN_ETALON_SCAN_RANGE K
        /\ 0 < best_pos d - THIN_ETALON_NUDGE K < THIN_ETALON_UPPER_LIMIT K).
Proof.
  split; intros H.
  - rewrite birefringent_filter_scan_eq in H.
    apply extremum_scan_geometry in H; [| exact greater_irrefl].
    destruct H as (center & j & chosen & Hb & H).
    cbn [bifi_kind nudged scan_range scan_step scan_motor bifi_motor upper_limit] in *.
    subst chosen. exists center, j. exact H.
  - rewrite thin_etalon_scan_eq in H.
    apply extremum_scan_geometry in H; [| exact less_irrefl].
    destruct H as (center & j & chosen & Hb & H).
    cbn [thin_etalon_kind nudged scan_range scan_step scan_motor thin_etalon_motor
         upper_limit] in *.
    replace (best_pos d - THIN_ETALON_NUDGE K) with chosen by lia.
    exists center, j. exact H.
Qed.

Lemma extremum_scan_shapes k fuel st d st' :
  (forall x, comparator k x x = false) ->
  extremum_scan K k fuel st = (Ok d, st') ->
  List.length (voltages d) = List.length (positions d)
  /\ Z.of_nat (List.length (positions d)) = (2 * scan_range k - 1) / scan_step k + 1
  /\ List.length (wavelength_differences d) = List.length (extrema d)
  /\ (1 <= List.length (extrema d))%nat.
Proof.
  intros Hirr H.
  destruct (extremum_scan_selects K _ _ _ _ _ Hirr H)
    as (_ & _ & candidates' & target & ws & s3' & s4' & i' & chosen' & Hidx' & _ & _
        & Hms & Hd & _).
  apply extremum_scan_Ok in H.
  destruct H as (center & candidates & i & chosen & s3 & s4 & H).
  destruct (scanned_geometry _ _ _ _ _ _ _ _ _ _ _ H Hirr)
    as (Hrange & _ & Hstep & Hlo & Hhi & Hpos & j & Hj & _).
  destruct H as (s0 & x & s1 & s2 & _ & _ & _ & _ & _ & Hs & _ & _ & _ & Hidx & _).
  split; [apply sample_scan_length in Hs; exact Hs |].
  split.
  { assert (Hlu : center - scan_range k < center + scan_range k) by lia.
    rewrite (range_length _ _ _ _ Hlu Hstep Hrange).
    f_equal. f_equal. lia. }
  split.
  { rewrite Hd, length_map, (measured_length _ _ _ _ _ Hms).
    apply (index_all_spec _ _ _ Hidx'). }
  assert (Hlt : (i < List.length (extrema d))%nat).
  { apply nth_error_Some. congruence. }
  lia.
Qed.

(** X9. The arrays of a scan that has returned: one signal sample for
    every position of the window, [(2 * range - 1) / step + 1] positions, and
    one wavelength difference for every extremum, of which there is at least
    one. *)
Theorem scan_data_shapes fuel st d st' :
  (birefringent_filter_scan K fuel st = (Ok d, st') ->
   List.length (voltages d) = List.length (positions d)
   /\ Z.of_nat (List.length (positions d))
      = (2 * BIREFRINGENT_SCAN_RANGE K - 1) / BIREFRINGENT_SCAN_STEP K + 1
   /\ List.length (wavelength_differences d) = List.length (extrema d)
   /\ (1 <= List.length (extrema d))%nat)
  /\ (thin_etalon_scan K fuel st = (Ok d, st') ->
      List.length (voltages d) = List.length (positions d)
      /\ Z.of_nat (List.length (positions d))
         = (2 * THIN_ETALON_SCAN_RANGE K - 1) / THIN_ETALON_SCAN_STEP K + 1
      /\ List.length (wavelength_differences d) = List.length (extrema d)
      /\ (1 <= List.length (extrema d))%nat).
Proof.
  split; intros H.
  - rewrite birefringent_filter_scan_eq in H.
    exact (extremum_scan_shapes (bifi_kind K) _ _ _ _ greater_irrefl H).
  - rewrite thin_etalon_scan_eq in H.
    exact (extremum_scan_shapes (thin_etalon_kind K) _ _ _ _ less_irrefl H).
Qed.

End ScanData.

(** ** The scans: the candidates *)




Section ScanCandidates.

Context {L : Lab} (K : Constants).






End ScanCandidates.

(** ** The scans: how they fail *)

Section ScanFailures.

Context {L : Lab} (K : Constants).

Lemma raises_only_bind {A B} (P : exn -> Prop) (m : M A) (k : A -> M B) :
  raises_only P m -> (forall a, raises_only P (k a)) ->
  raises_only P (x <- m ;; k x).
Proof.
  intros Hm Hk st e st' H.
  destruct (bind_cases _ _ _ _ _ H) as [(a & s1 & _ & H2) | [(e' & H1 & E) | (_ & E)]].
  - eapply Hk, H2.
  - inversion E. subst e'. eapply Hm, H1.
  - discriminate E.
Qed.

Lemma raises_only_ret {A} (P : exn -> Prop) (a : A) : raises_only P (ret a).
Proof. intros st e st' H. discriminate H. Qed.

Lemma raises_only_raise {A} (P : exn -> Prop) (e : exn) :
  P e -> raises_only P (@raise L A e).
Proof. intros He st e' st' H. inversion H. subst e'. exact He. Qed.

Lemma raises_only_timeout {A} (P : exn -> Prop) : raises_only P (@timeout L A).
Proof. intros st e st' H. discriminate H. Qed.

Lemma query_not_assertion fuel command numeric_result raise_on_error :
  raises_only not_assertion (query fuel command numeric_result raise_on_error).
Proof.
  intros st e st' H msg.
  destruct (query_raise_kinds _ _ _ _ _ _ _ H)
    as [-> | [(_ & m & ->) | (_ & [-> | ->])]]; discriminate.
Qed.

Lemma as_float_not_assertion v : raises_only not_assertion (as_float v).
Proof.
  destruct v; [apply raises_only_raise; intros msg; discriminate | apply raises_only_ret].
Qed.

Lemma motor_status_not_assertion m fuel :
  raises_only not_assertion (motor_status m fuel).
Proof.
  unfold motor_status.
  apply raises_only_bind; [apply query_not_assertion | intros v].
  apply raises_only_bind; [apply as_float_not_assertion | intros x].
  apply raises_only_ret.
Qed.

Lemma wait_until_idle_not_assertion m fuel n :
  raises_only not_assertion (wait_until_idle K (motor_status m fuel) n).
Proof.
  induction n as [| n IH]; cbn [wait_until_idle]; [apply raises_only_timeout |].
  apply raises_only_bind; [apply motor_status_not_assertion | intros s].
  destruct (s =? MOTOR_STATUS_IDLE K); [apply raises_only_ret | exact IH].
Qed.

(** A move to a position in range fails no assertion. *)
Lemma set_motor_pos_not_assertion m fuel pos :
  0 < pos < upper_limit m ->
  raises_only not_assertion (set_motor_pos K m fuel pos).
Proof.
  intros Hpos. unfold set_motor_pos.
  replace ((0 <? pos) && (pos <? upper_limit m)) with true
    by (symmetry; apply andb_true_iff; rewrite !Z.ltb_lt; lia).
  apply raises_only_bind; [apply raises_only_ret | intros _].
  apply raises_only_bind; [apply wait_until_idle_not_assertion | intros _].
  apply raises_only_bind; [apply query_not_assertion | intros _].
  apply wait_until_idle_not_assertion.
Qed.

Lemma sample_scan_not_assertion m fuel (read : M pyval) ps :
  raises_only not_assertion read ->
  Forall (fun p => 0 < p < upper_limit m) ps ->
  forall acc, raises_only not_assertion (sample_scan (set_motor_pos K m fuel) read ps acc).
Proof.
  intros Hr. induction 1 as [| p ps Hp _ IH]; intros acc; cbn [sample_scan].
  - apply raises_only_ret.
  - apply raises_only_bind; [apply set_motor_pos_not_assertion, Hp | intros _].
    apply raises_only_bind; [exact Hr | intros v].
    apply raises_only_bind; [apply as_float_not_assertion | intros x].
    apply IH.
Qed.

Lemma wavemeter_wavelength_not_assertion : raises_only not_assertion wavemeter_wavelength.
Proof.
  intros st e st' H. unfold wavemeter_wavelength in H.
  destruct (get_wavelength (world st)). discriminate H.
Qed.

Lemma measure_extrema_not_assertion m fuel ps :
  Forall (fun p => 0 < p < upper_limit m) ps ->
  forall acc, raises_only not_assertion (measure_extrema (set_motor_pos K m fuel) ps acc).
Proof.
  induction 1 as [| p ps Hp _ IH]; intros acc; cbn [measure_extrema].
  - apply raises_only_ret.
  - apply raises_only_bind; [apply set_motor_pos_not_assertion, Hp | intros _].
    apply raises_only_bind; [apply wavemeter_wavelength_not_assertion | intros w].
    apply raises_only_bind; [intros st e st' H; discriminate H | intros t].
    destruct t; [apply IH | apply raises_only_raise; intros msg; discriminate].
Qed.

Lemma ensure_target_not_assertion : raises_only not_assertion ensure_target.
Proof.
  intros st e st' H. pose proof (ensure_target_run st) as R.
  destruct (target_wavelength st); rewrite R in H; discriminate H.
Qed.

Lemma bind_assertion {A B} (m : M A) (k : A -> M B) st msg st' :
  raises_only not_assertion m ->
  (x <- m ;; k x) st = (Raise (AssertionError msg), st') ->
  exists a s1, m st = (Ok a, s1) /\ k a s1 = (Raise (AssertionError msg), st').
Proof.
  intros Hm H.
  destruct (bind_cases _ _ _ _ _ H) as [(a & s1 & H1 & H2) | [(e' & H1 & E) | (_ & E)]].
  - eauto.
  - inversion E. subst e'. exfalso. exact (Hm _ _ _ H1 msg eq_refl).
  - discriminate E.
Qed.

Lemma range_in_window lower upper step ps :
  lower < upper -> Py.range lower upper step = Some ps ->
  Forall (fun p => lower <= p < upper) ps.
Proof.
  intros Hlu Hr. apply Forall_forall. intros p Hp.
  apply In_nth_error in Hp. destruct Hp as (j & Hj).
  destruct (range_some_nth _ _ _ _ _ _ Hlu Hr Hj) as (Hs & -> & Hup). nia.
Qed.

Lemma index_all_Forall {A} (P : A -> Prop) (a : list A) idx : forall xs,
  Forall P a -> Np.index_all a idx = Some xs -> Forall P xs.
Proof.
  intros xs Ha H. apply Forall_forall. intros x Hx.
  apply In_nth_error in Hx. destruct Hx as (j & Hj).
  destruct (index_all_spec _ _ _ H) as [_ Hn].
  destruct (Hn _ _ Hj) as (i & _ & Hi).
  rewrite Forall_forall in Ha. eapply Ha, nth_error_In, Hi.
Qed.

(** A failed assertion in a scan is that of the window or that of the
    last move: then everything before the last move has returned, and the
    position chosen, which is inside the window, is out of the range of the
    motor once nudged. *)
Lemma extremum_scan_assertion k fuel st msg st' :
  extremum_scan K k fuel st = (Raise (AssertionError msg), st') ->
  msg = invalid k
  \/ (msg = "Target motor position out of range."
      /\ exists s0 x s1 ps vs s2 s3 sm candidates diffs i chosen,
           ensure_target st = (Ok tt, s0)
           /\ query fuel (pos_query k) true true s0 = (Ok (Num x), s1)
           /\ window_ok k (Py.int_of_float x) = true
           /\ Py.range (Py.int_of_float x - scan_range k)
                       (Py.int_of_float x + scan_range k) (scan_step k) = Some ps
           /\ sample_scan (set_motor_pos K (scan_motor k) fuel)
                 (query fuel (signal_query k) true true) ps [] s1 = (Ok vs, s2)
           /\ set_motor_pos K (scan_motor k) fuel (Py.int_of_float x) s2 = (Ok tt, s3)
           /\ savgol_filter vs (window_length k) 3 = Some sm
           /\ Np.index_all ps (Np.argrelextrema sm (comparator k) 5) = Some candidates
           /\ measure_extrema (set_motor_pos K (scan_motor k) fuel) candidates [] s3
              = (Ok diffs, st')
           /\ Np.argmin diffs = Some i
           /\ nth_error candidates i = Some chosen
           /\ Py.int_of_float x - scan_range k <= chosen
              < Py.int_of_float x + scan_range k
           /\ (nudged k chosen <= 0
               \/ upper_limit (scan_motor k) <= nudged k chosen)).
Proof.
  rewrite extremum_scan_unfold. intros H.
  apply bind_assertion in H; [| apply ensure_target_not_assertion].
  destruct H as ([] & s0 & H0 & H).
  apply bind_assertion in H; [| apply query_not_assertion].
  destruct H as (v & s1 & Hq & H).
  apply bind_assertion in H; [| apply as_float_not_assertion].
  destruct H as (x & s1' & Hx & H).
  destruct v as [text | x']; [discriminate Hx |].
  cbn in Hx. injection Hx as Ex Es. subst x' s1'.
  set (center := Py.int_of_float x) in *.
  unfold assert in H. destruct (window_ok k center) eqn:Hw;
    [| inversion H; left; reflexivity].
  rewrite bind_ret_l in H.
  destruct (window_ok_true _ _ Hw) as (Hlo & Hhi & Hpos).
  assert (Hlu : center - scan_range k < center + scan_range k) by lia.
  destruct (Py.range _ _ _) as [ps |] eqn:Hr; [| discriminate H].
  pose proof (range_in_window _ _ _ _ Hlu Hr) as Hwin.
  assert (Hin : Forall (fun p => 0 < p < upper_limit (scan_motor k)) ps).
  { eapply Forall_impl; [| exact Hwin]. cbn. intros p Hp. lia. }
  apply bind_assertion in H;
    [| apply sample_scan_not_assertion; [apply query_not_assertion | exact Hin]].
  destruct H as (vs & s2 & Hs & H).
  apply bind_assertion in H; [| apply set_motor_pos_not_assertion; lia].
  destruct H as ([] & s3 & Hb & H).
  unfold select_extremum in H.
  destruct (savgol_filter vs (window_length k) 3) as [sm |] eqn:Hsg; [| discriminate H].
  destruct (Np.index_all ps _) as [candidates |] eqn:Hidx; [| discriminate H].
  pose proof (index_all_Forall _ _ _ _ Hwin Hidx) as Hcw.
  assert (Hcin : Forall (fun p => 0 < p < upper_limit (scan_motor k)) candidates).
  { eapply Forall_impl; [| exact Hcw]. cbn. intros p Hp. lia. }
  apply bind_assertion in H; [| apply measure_extrema_not_assertion; exact Hcin].
  destruct H as (diffs & s4 & Hm & H).
  destruct (Np.argmin diffs) as [i |] eqn:Ha; [| discriminate H].
  destruct (nth_error candidates i) as [chosen |] eqn:Hn; [| discriminate H].
  assert (Hc : center - scan_range k <= chosen < center + scan_range k).
  { rewrite Forall_forall in Hcw. eapply Hcw, nth_error_In, Hn. }
  assert (Hout : 0 < nudged k chosen < upper_limit (scan_motor k)
                 \/ (nudged k chosen <= 0
                     \/ upper_limit (scan_motor k) <= nudged k chosen)) by lia.
  destruct Hout as [Hinside | Hout].
  - apply bind_assertion in H; [| apply set_motor_pos_not_assertion; exact Hinside].
    destruct H as ([] & s5 & _ & H). discriminate H.
  - unfold bind in H. rewrite set_motor_pos_refused in H by exact Hout.
    inversion H. subst msg s4. right. split; [reflexivity |].
    exists s0, x, s1, ps, vs, s2, s3, sm, candidates, diffs, i, chosen.
    repeat (split; [first [assumption | reflexivity] |]). exact Hout.
Qed.

(** The other way round: when all has returned up to the choice and the
    position chosen, nudged, is out of the range of the motor, the scan fails
    at its last move, in the state the choice was made in. *)
Lemma extremum_scan_last_move k fuel st s0 x s1 ps vs s2 s3 sm candidates diffs i
    chosen st' :
  ensure_target st = (Ok tt, s0) ->
  query fuel (pos_query k) true true s0 = (Ok (Num x), s1) ->
  window_ok k (Py.int_of_float x) = true ->
  Py.range (Py.int_of_float x - scan_range k) (Py.int_of_float x + scan_range k)
           (scan_step k) = Some ps ->
  sample_scan (set_motor_pos K (scan_motor k) fuel)
    (query fuel (signal_query k) true true) ps [] s1 = (Ok vs, s2) ->
  set_motor_pos K (scan_motor k) fuel (Py.int_of_float x) s2 = (Ok tt, s3) ->
  savgol_filter vs (window_length k) 3 = Some sm ->
  Np.index_all ps (Np.argrelextrema sm (comparator k) 5) = Some candidates ->
  measure_extrema (set_motor_pos K (scan_motor k) fuel) candidates [] s3
  = (Ok diffs, st') ->
  Np.argmin diffs = Some i ->
  nth_error candidates i = Some chosen ->
  nudged k chosen <= 0 \/ upper_limit (scan_motor k) <= nudged k chosen ->
  extremum_scan K k fuel st
  = (Raise (AssertionError "Target motor position out of range."), st').
Proof.
  intros H0 Hq Hw Hr Hs Hb Hsg Hidx Hm Ha Hn Hout.
  rewrite extremum_scan_unfold.
  rewrite (bind_run _ _ _ _ _ H0), (bind_run _ _ _ _ _ Hq).
  cbn [as_float]. rewrite bind_ret_l, Hw. cbn [assert]. rewrite bind_ret_l, Hr.
  rewrite (bind_run _ _ _ _ _ Hs), (bind_run _ _ _ _ _ Hb).
  unfold select_extremum. rewrite Hsg, Hidx.
  rewrite (bind_run _ _ _ _ _ Hm), Ha, Hn.
  unfold bind. rewrite set_motor_pos_refused by exact Hout. reflexivity.
Qed.

(** X12. The assertions a scan can fail. A birefringent scan fails no
    assertion but that of its window: every position it moves the motor to is
    in the range of the motor. A thin etalon scan can also fail the range
    assertion of the positioner, and it does so exactly at its last move:
    the position was read and the window fits, the window was sampled, the
    motor went back to the position read, the candidates were measured, and
    the candidate chosen, which is inside the window, is taken out of the
    range of the motor by the nudge. The scan ends in the state the
    candidates were measured in: the refused move sends nothing. *)
Theorem scan_assertions fuel st msg st' :
  (birefringent_filter_scan K fuel st = (Raise (AssertionError msg), st') ->
   msg = ("Conditions for BiFi scan invalid. Motor position must be between "
          ++ Py.str_int (BIREFRINGENT_SCAN_RANGE K) ++ " and "
          ++ Py.str_int (BIREFRINGENT_FILTER_UPPER_LIMIT K
                         - BIREFRINGENT_SCAN_RANGE K))%string)
  /\ (thin_etalon_scan K fuel st = (Raise (AssertionError msg), st') ->
      msg = ("Conditions for thin etalon scan invalid. Motor position must be between "
             ++ Py.str_int (THIN_ETALON_SCAN_RANGE K) ++ " and "
             ++ Py.str_int (THIN_ETALON_UPPER_LIMIT K - THIN_ETALON_SCAN_RANGE K))%string
      \/ msg = "Target motor position out of range.")
  /\ (thin_etalon_scan K fuel st
      = (Raise (AssertionError "Target motor position out of range."), st')
      <-> exists s0 x s1 ps vs s2 s3 sm candidates diffs i chosen,
            ensure_target st = (Ok tt, s0)
            /\ query fuel "MOTTE:POS?" true true s0 = (Ok (Num x), s1)
            /\ window_ok (thin_etalon_kind K) (Py.int_of_float x) = true
            /\ Py.range (Py.int_of_float x - THIN_ETALON_SCAN_RANGE K)
                        (Py.int_of_float x + THIN_ETALON_SCAN_RANGE K)
                        (THIN_ETALON_SCAN_STEP K) = Some ps
            /\ sample_scan (set_thin_etalon_motor_pos K fuel)
                  (query fuel "TE:DC?" true true) ps [] s1 = (Ok vs, s2)
            /\ set_thin_etalon_motor_pos K fuel (Py.int_of_float x) s2 = (Ok tt, s3)
            /\ savgol_filter vs 41 3 = Some sm
            /\ Np.index_all ps (Np.argrelextrema sm Np.less 5) = Some candidates
            /\ measure_extrema (set_thin_etalon_motor_pos K fuel) candidates [] s3
               = (Ok diffs, st')
            /\ Np.argmin diffs = Some i
            /\ nth_error candidates i = Some chosen
            /\ Py.int_of_float x - THIN_ETALON_SCAN_RANGE K <= chosen
               < Py.int_of_float x + THIN_ETALON_SCAN_RANGE K
            /\ (chosen + THIN_ETALON_NUDGE K <= 0
                \/ THIN_ETALON_UPPER_LIMIT K <= chosen + THIN_ETALON_NUDGE K)).
Proof.
  split; [| split].
  - intros H. rewrite birefringent_filter_scan_eq in H.
    apply extremum_scan_assertion in H.
    destruct H as [-> | (_ & s0 & x & s1 & ps & vs & s2 & s3 & sm & candidates & diffs
                         & i & chosen & _ & _ & Hw & _ & _ & _ & _ & _ & _ & _ & _
                         & Hc & Hout)];
      [reflexivity |].
    exfalso. destruct (window_ok_true _ _ Hw) as (Hlo & Hhi & _).
    cbn [bifi_kind nudged scan_range scan_motor bifi_motor upper_limit] in *. lia.
  - intros H. rewrite thin_etalon_scan_eq in H.
    apply extremum_scan_assertion in H.
    destruct H as [-> | (-> & _)]; [left; reflexivity | right; reflexivity].
  - split.
    + intros H. rewrite thin_etalon_scan_eq in H.
      apply extremum_scan_assertion in H.
      destruct H as [F | (_ & H)]; [discriminate F | exact H].
    + intros (s0 & x & s1 & ps & vs & s2 & s3 & sm & candidates & diffs & i & chosen
              & H0 & Hq & Hw & Hr & Hs & Hb & Hsg & Hidx & Hm & Ha & Hn & _ & Hout).
      rewrite thin_etalon_scan_eq.
      exact (extremum_scan_last_move (thin_etalon_kind K) _ _ _ _ _ _ _ _ _ _ _ _ _ _ _
               H0 Hq Hw Hr Hs Hb Hsg Hidx Hm Ha Hn Hout).
Qed.

Lemma extremum_scan_no_extremum k fuel st s0 x s1 ps vs s2 s3 sm :
  ensure_target st = (Ok tt, s0) ->
  query fuel (pos_query k) true true s0 = (Ok (Num x), s1) ->
  window_ok k (Py.int_of_float x) = true ->
  Py.range (Py.int_of_float x - scan_range k) (Py.int_of_float x + scan_range k)
           (scan_step k) = Some ps ->
  sample_scan (set_motor_pos K (scan_motor k) fuel)
    (query fuel (signal_query k) true true) ps [] s1 = (Ok vs, s2) ->
  set_motor_pos K (scan_motor k) fuel (Py.int_of_float x) s2 = (Ok tt, s3) ->
  savgol_filter vs (window_length k) 3 = Some sm ->
  Np.argrelextrema sm (comparator k) 5 = [] ->
  extremum_scan K k fuel st = (Raise ValueError, s3).
Proof.
  intros H0 Hq Hw Hr Hs Hb Hsg Hnone.
  rewrite extremum_scan_unfold.
  rewrite (bind_run _ _ _ _ _ H0), (bind_run _ _ _ _ _ Hq).
  cbn [as_float]. rewrite bind_ret_l, Hw. cbn [assert]. rewrite bind_ret_l, Hr.
  rewrite (bind_run _ _ _ _ _ Hs), (bind_run _ _ _ _ _ Hb).
  unfold select_extremum. rewrite Hsg, Hnone. reflexivity.
Qed.

(** X13. A signal with no extremum. When the smoothed samples of a scan
    have no local extremum of order 5 (a signal that rises or falls all along
    the window, say), the scan raises [ValueError], from [np.argmin] on an
    empty array: it does so after it has sampled the whole window and put the
    motor back where it was, and it moves the motor no further. *)
Theorem scan_without_extremum fuel st s0 x s1 ps vs s2 s3 sm :
  ensure_target st = (Ok tt, s0) ->
  (query fuel "MOTBI:POS?" true true s0 = (Ok (Num x), s1) ->
   window_ok (bifi_kind K) (Py.int_of_float x) = true ->
   Py.range (Py.int_of_float x - BIREFRINGENT_SCAN_RANGE K)
            (Py.int_of_float x + BIREFRINGENT_SCAN_RANGE K)
            (BIREFRINGENT_SCAN_STEP K) = Some ps ->
   sample_scan (set_bifi_motor_pos K fuel) (query fuel "DPOW:DC?" true true) ps [] s1
   = (Ok vs, s2) ->
   set_bifi_motor_pos K fuel (Py.int_of_float x) s2 = (Ok tt, s3) ->
   savgol_filter vs 31 3 = Some sm ->
   Np.argrelextrema sm Np.greater 5 = [] ->
   birefringent_filter_scan K fuel st = (Raise ValueError, s3))
  /\ (query fuel "MOTTE:POS?" true true s0 = (Ok (Num x), s1) ->
      window_ok (thin_etalon_kind K) (Py.int_of_float x) = true ->
      Py.range (Py.int_of_float x - THIN_ETALON_SCAN_RANGE K)
               (Py.int_of_float x + THIN_ETALON_SCAN_RANGE K)
               (THIN_ETALON_SCAN_STEP K) = Some ps ->
      sample_scan (set_thin_etalon_motor_pos K fuel) (query fuel "TE:DC?" true true)
                  ps [] s1 = (Ok vs, s2) ->
      set_thin_etalon_motor_pos K fuel (Py.int_of_float x) s2 = (Ok tt, s3) ->
      savgol_filter vs 41 3 = Some sm ->
      Np.argrelextrema sm Np.less 5 = [] ->
      thin_etalon_scan K fuel st = (Raise ValueError, s3)).
Proof.
  intros H0. split; intros Hq Hw Hr Hs Hb Hsg Hnone.
  - rewrite birefringent_filter_scan_eq.
    exact (extremum_scan_no_extremum (bifi_kind K) _ _ _ _ _ _ _ _ _ _
             H0 Hq Hw Hr Hs Hb Hsg Hnone).
  - rewrite thin_etalon_scan_eq.
    exact (extremum_scan_no_extremum (thin_etalon_kind K) _ _ _ _ _ _ _ _ _ _
             H0 Hq Hw Hr Hs Hb Hsg Hnone).
Qed.

End ScanFailures.

(** The short birefringent scan on the bench returns. *)
Lemma short_birefringent_scan_returns :
  let b := birefringent_filter_scan Script.short_scans 10 (Sim.aimed 750 Sim.bench) in
  b = (Ok (Sim.returned Sim.no_scan b), snd b).
Proof. intros b. apply returned_ok. vm_compute. reflexivity. Qed.

(** On the bench, the position chosen is at an index of the window past
    the first. *)
Lemma scan_choice_inside_window_witness :
  let b := birefringent_filter_scan Script.short_scans 10 (Sim.aimed 750 Sim.bench) in
  exists center j,
    (1 <= j)%nat
    /\ best_pos (Sim.returned Sim.no_scan b) = center - 124 + Z.of_nat j * 4
    /\ 0 < best_pos (Sim.returned Sim.no_scan b) < 50000.
Proof.
  intros b.
  destruct (proj1 (scan_choice_inside_window Script.short_scans 10 _ _ _)
              short_birefringent_scan_returns)
    as (center & j & _ & _ & _ & H1 & _ & H2 & _ & H3).
  exists center, j. split; [exact H1 |]. split; [exact H2 | exact H3].
Defined.

(** The short scan has 62 positions and as many samples. *)
Lemma scan_data_shapes_witness :
  let b := birefringent_filter_scan Script.short_scans 10 (Sim.aimed 750 Sim.bench) in
  List.length (voltages (Sim.returned Sim.no_scan b))
  = List.length (positions (Sim.returned Sim.no_scan b))
  /\ Z.of_nat (List.length (positions (Sim.returned Sim.no_scan b))) = 62.
Proof.
  intros b.
  destruct (proj1 (scan_data_shapes Script.short_scans 10 _ _ _)
              short_birefringent_scan_returns) as (H1 & H2 & _).
  split; [exact H1 | exact H2].
Defined.



(** A thin etalon at 1500 is too low for a scan of range 2000: the
    assertion failed is that of the window. *)
Lemma scan_assertions_witness :
  let msg := invalid (thin_etalon_kind Sim.constants) in
  msg = "Conditions for thin etalon scan invalid. Motor position must be between 2000 and 48000"
  \/ msg = "Target motor position out of range.".
Proof.
  intros msg.
  assert (H : thin_etalon_scan Sim.constants 10 (Sim.aimed 750 Sim.low_bench)
              = (Raise (AssertionError msg),
                 snd (thin_etalon_scan Sim.constants 10 (Sim.aimed 750 Sim.low_bench)))).
  { apply fst_ok. vm_compute. reflexivity. }
  exact (proj1 (proj2 (scan_assertions Sim.constants 10 _ msg _)) H).
Defined.

(** The reflex of the ramp bench falls all along the window: the thin
    etalon scan raises [ValueError]. *)
Lemma scan_without_extremum_witness :
  fst (thin_etalon_scan Script.short_scans 10 (Sim.aimed 750 Script.ramp_bench))
  = Raise ValueError.
Proof.
  set (K := Script.short_scans).
  set (st := Sim.aimed 750 Script.ramp_bench).
  set (q := query 10 "MOTTE:POS?" true true st).
  set (ps := Py.range_up (Z.to_nat (Py.range_len 24580 25420 20)) 24580 20).
  set (sc := sample_scan (set_thin_etalon_motor_pos K 10) (query 10 "TE:DC?" true true)
               ps [] (snd q)).
  set (vs := Sim.returned [] sc).
  set (bk := set_thin_etalon_motor_pos K 10 (Py.int_of_float 25000) (snd sc)).
  set (sm := match savgol_filter vs 41 3 with Some sm => sm | None => [] end).
  assert (Hq : q = (Ok (Num 25000), snd q)).
  { apply fst_ok. vm_compute. reflexivity. }
  assert (Hs : sc = (Ok vs, snd sc)).
  { apply returned_ok. vm_compute. reflexivity. }
  assert (Hb : bk = (Ok tt, snd bk)).
  { apply fst_ok. vm_compute. reflexivity. }
  assert (Hsg : savgol_filter vs 41 3 = Some sm).
  { unfold sm. destruct (savgol_filter vs 41 3) eqn:E; [reflexivity |].
    exfalso. vm_compute in E. discriminate E. }
  assert (Hnone : Np.argrelextrema sm Np.less 5 = []).
  { vm_compute. reflexivity. }
  rewrite (proj2 (scan_without_extremum K 10 st st 25000 (snd q) ps vs (snd sc) (snd bk) sm
                    eq_refl) Hq eq_refl eq_refl Hs Hb Hsg Hnone).
  reflexivity.
Defined.

(** ** The stabilization thread: its loop, its start and its end *)

Section ThreadFacts.

Context {L : Lab} (K : Constants) (cfg : Config).

Lemma frame_turn_kept a b : frame a b -> turn_kept a b.
Proof. intros (_ & Hm & Hc & _). split; [exact Hm | left; exact Hc]. Qed.

Lemma turn_kept_after_frame a b c : frame a b -> turn_kept b c -> turn_kept a c.
Proof.
  intros (_ & Hm & Hc & _) (Gm & Gc). split; [congruence |].
  rewrite Hc in Gc. exact Gc.
Qed.

Lemma turn_kept_before_frame a b c : turn_kept a b -> frame b c -> turn_kept a c.
Proof.
  intros (Gm & Gc) (_ & Hm & Hc & _). split; [congruence |].
  rewrite Hc. exact Gc.
Qed.

Lemma keeps_frame_then {A B} (m : M A) (k : A -> M B) :
  keeps frame m -> (forall a, keeps turn_kept (k a)) ->
  keeps turn_kept (x <- m ;; k x).
Proof.
  intros Hm Hk st r st' H.
  destruct (bind_cases _ _ _ _ _ H) as [(a & s1 & H1 & H2) | [(e & H1 & _) | (H1 & _)]].
  - eapply turn_kept_after_frame; [eapply Hm, H1 | eapply Hk, H2].
  - eapply frame_turn_kept, Hm, H1.
  - eapply frame_turn_kept, Hm, H1.
Qed.

Lemma keeps_then_frame {A B} (m : M A) (k : A -> M B) :
  keeps turn_kept m -> (forall a, keeps frame (k a)) ->
  keeps turn_kept (x <- m ;; k x).
Proof.
  intros Hm Hk st r st' H.
  destruct (bind_cases _ _ _ _ _ H) as [(a & s1 & H1 & H2) | [(e & H1 & _) | (H1 & _)]].
  - eapply turn_kept_before_frame; [eapply Hm, H1 | eapply Hk, H2].
  - eapply Hm, H1.
  - eapply Hm, H1.
Qed.

Lemma keeps_frame_turn_kept {A} (m : M A) : keeps frame m -> keeps turn_kept m.
Proof. intros H st r st' E. eapply frame_turn_kept, H, E. Qed.

Lemma do_stabilization_correction_turn fuel wavelength drift :
  keeps turn_kept (do_stabilization_correction K cfg fuel wavelength drift).
Proof.
  unfold do_stabilization_correction.
  apply keeps_frame_then; [apply scan_action_frame | intros _].
  apply keeps_frame_then; [apply report_event_frame | intros _].
  apply keeps_frame_then; [apply reset_stabilization_piezos_frame | intros _].
  intros st r st' H. inversion H. split; [reflexivity | right; reflexivity].
Qed.

Lemma run_iteration_turn fuel : keeps turn_kept (run_iteration K cfg fuel).
Proof.
  intros st r st'. unfold run_iteration.
  destruct (List.length (messages st) =? 0)%nat.
  - revert st r st'. fold (keeps (A := bool) turn_kept).
    apply keeps_frame_then; [apply wavemeter_wavelength_frame | intros current].
    apply keeps_frame_then; [apply get_target_frame | intros t].
    destruct t as [target |]; [| apply keeps_frame_turn_kept, keeps_raise, frame_refl].
    apply keeps_then_frame.
    + destruct (Py.Qltb _ _); [| apply keeps_frame_turn_kept, scan_action_frame].
      destruct (Py.Qltb _ _);
        (apply keeps_frame_then; [apply is_any_limit_reached_frame | intros limit]);
        (destruct (negb limit); [| apply do_stabilization_correction_turn]);
        apply keeps_frame_turn_kept;
        (apply keeps_bind;
         [exact frame_trans | apply report_event_frame
         | intros _; apply scan_action_frame]).
    + intros _. apply keeps_bind; [exact frame_trans | apply emit_frame | intros _].
      apply keeps_ret, frame_refl.
  - revert st r st'. fold (keeps (A := bool) turn_kept).
    apply keeps_frame_turn_kept.
    apply keeps_bind; [exact frame_trans | apply scan_action_frame | intros _].
    apply keeps_ret, frame_refl.
Qed.

Lemma run_counts fuel n : forall st r st',
  run K cfg fuel n st = (r, st') ->
  messages st' = messages st
  /\ stabilization_auto_corrections st <= stabilization_auto_corrections st'
     <= stabilization_auto_corrections st + Z.of_nat n.
Proof.
  induction n as [| n IH]; intros st r st' H; cbn [run] in H.
  - inversion H. split; [reflexivity | lia].
  - destruct (bind_cases _ _ _ _ _ H)
      as [(again & s1 & H1 & H2) | [(e & H1 & _) | (H1 & _)]];
      apply run_iteration_turn in H1; destruct H1 as (Hm & Hc).
    + destruct again.
      * apply IH in H2. destruct H2 as (Gm & Gc). split; [congruence | lia].
      * inversion H2. subst s1. split; [exact Hm | lia].
    + split; [exact Hm | lia].
    + split; [exact Hm | lia].
Qed.

(** X17. The counter of automatic corrections. A turn of the loop leaves
    [stabilization_auto_corrections] as it was or adds one to it, and leaves
    the queue as it was; so over [n] turns, however the loop ends, the
    counter never goes down and goes up by [n] at most, and nothing is put
    in the queue or taken from it by the thread itself. *)
Theorem corrections_counted fuel n st r st' :
  (run_iteration K cfg fuel st = (r, st') ->
   messages st' = messages st
   /\ (stabilization_auto_corrections st' = stabilization_auto_corrections st
       \/ stabilization_auto_corrections st' = stabilization_auto_corrections st + 1))
  /\ (forall r', run K cfg fuel n st = (r', st') ->
      messages st' = messages st
      /\ stabilization_auto_corrections st <= stabilization_auto_corrections st'
         <= stabilization_auto_corrections st + Z.of_nat n).
Proof.
  split.
  - apply run_iteration_turn.
  - intros r'. apply run_counts.
Qed.

(** With nothing in the queue, a turn that returns says to go on. *)
Lemma run_iteration_quiet fuel st again st' :
  messages st = [] ->
  run_iteration K cfg fuel st = (Ok again, st') -> again = true.
Proof.
  intros Hm. unfold run_iteration. rewrite Hm. cbn [List.length Nat.eqb].
  intros H.
  apply bind_Ok in H. destruct H as (current & s1 & _ & H).
  apply bind_Ok in H. destruct H as (t & s2 & _ & H).
  destruct t as [target |]; [| discriminate H].
  apply bind_Ok in H. destruct H as ([] & s3 & _ & H).
  apply bind_Ok in H. destruct H as ([] & s4 & _ & H).
  inversion H. reflexivity.
Qed.

Lemma run_quiet fuel n : forall st st',
  messages st = [] -> run K cfg fuel n st <> (Ok tt, st').
Proof.
  induction n as [| n IH]; intros st st' Hm H; cbn [run] in H; [discriminate H |].
  apply bind_Ok in H. destruct H as (again & s1 & H1 & H2).
  pose proof (run_iteration_quiet _ _ _ _ Hm H1). subst again.
  apply run_iteration_turn in H1. destruct H1 as (Hm1 & _).
  eapply IH; [| exact H2]. congruence.
Qed.

(** With something in the queue, the loop is one [stop_scan]. *)
Lemma run_with_message fuel n st :
  messages st <> [] -> run K cfg fuel (S n) st = stop_scan st.
Proof.
  intros Hm. cbn [run]. unfold bind at 1. unfold run_iteration.
  destruct (messages st) as [| m ms] eqn:E; [contradiction |].
  cbn [List.length Nat.eqb]. unfold bind, ret.
  destruct (stop_scan st) as [[[] | e |] s]; reflexivity.
Qed.

Lemma stop_scan_effect st :
  trace (snd (stop_scan st)) = trace st ++ [StopScan]
  /\ untouched st (snd (stop_scan st))
  /\ world (snd (stop_scan st)) = snd (scan_control None (world st))
  /\ fst (stop_scan st) <> Timeout.
Proof.
  unfold stop_scan, scan_action.
  destruct (scan_control None (world st)) as [[e |] w]; cbn;
    (split; [reflexivity |]); (split; [unfold untouched; cbn; auto |]);
    (split; [reflexivity | discriminate]).
Qed.

(** X16. The loop of the thread ends on a message and on nothing else.
    With an empty queue, [run] never returns, however many turns it is given:
    it goes on, or an exception ends it. With something in the queue, [run]
    is a single [stop_scan]: the scan is stopped, nothing else is sent, and
    the message is left in the queue. *)
Theorem run_ends_on_message_only fuel n st :
  (messages st = [] -> forall st', run K cfg fuel n st <> (Ok tt, st'))
  /\ (messages st <> [] ->
      run K cfg fuel (S n) st = stop_scan st
      /\ trace (snd (run K cfg fuel (S n) st)) = trace st ++ [StopScan]
      /\ messages (snd (run K cfg fuel (S n) st)) = messages st).
Proof.
  split.
  - intros Hm st'. apply run_quiet, Hm.
  - intros Hm. rewrite (run_with_message fuel n st Hm).
    destruct (stop_scan_effect st) as (Ht & (_ & Hq & _) & _).
    split; [reflexivity |]. split; [exact Ht | exact Hq].
Qed.

(** X14. [stabilize_off] while no thread is alive does nothing. While
    the thread is alive it puts ['stop'] in the queue and joins the thread,
    and it returns with the thread dead and the message in the queue. A
    thread that was at the head of its loop ends after one [stop_scan], even
    when [stop_scan] has raised in it: nothing else is sent, and the target
    and the counter of corrections are as they were. A thread caught in a
    turn goes through that turn first, which may start a scan or make a
    correction and add one to the counter: if the turn returns, the thread
    ends after one [stop_scan] more; if it raises, the thread ends there. A
    target that was set is kept in both cases. *)
Theorem stabilize_off_stops_thread fuel st :
  (forall in_flight,
      is_stabilizing st = false ->
      stabilize_off K cfg fuel in_flight st = (Ok tt, st))
  /\ (is_stabilizing st = true ->
      exists st',
        stabilize_off K cfg (S fuel) false st = (Ok tt, st')
        /\ is_stabilizing st' = false
        /\ messages st' = messages st ++ ["stop"]
        /\ trace st' = trace st ++ [StopScan]
        /\ world st' = snd (scan_control None (world st))
        /\ target_wavelength st' = target_wavelength st
        /\ stabilization_auto_corrections st' = stabilization_auto_corrections st)
  /\ (is_stabilizing st = true ->
      forall r s1,
        run_iteration K cfg (S fuel) (with_messages [] st) = (r, s1) ->
        r <> Timeout ->
        exists st',
          stabilize_off K cfg (S fuel) true st = (Ok tt, st')
          /\ is_stabilizing st' = false
          /\ messages st' = messages st ++ ["stop"]
          /\ trace st'
             = trace s1 ++ match r with
                           | Ok _ => [StopScan]
                           | _ => []
                           end
          /\ (stabilization_auto_corrections st' = stabilization_auto_corrections st
              \/ stabilization_auto_corrections st'
                 = stabilization_auto_corrections st + 1)
          /\ (forall t, target_wavelength st = Some t ->
                        target_wavelength st' = Some t)).
Proof.
  split; [| split].
  - intros in_flight Hs. unfold stabilize_off. rewrite Hs. reflexivity.
  - intros Hs. unfold stabilize_off. rewrite Hs.
    set (s1 := with_messages (messages st ++ ["stop"]) st).
    assert (Hm : messages s1 <> []).
    { cbn. destruct (messages st); discriminate. }
    cbv zeta. fold s1.
    rewrite (run_with_message (S fuel) fuel s1 Hm).
    destruct (stop_scan_effect s1) as (Ht & (_ & Hq & Hc & Htg) & Hw & Hn).
    destruct (stop_scan s1) as [[[] | e |] s2]; cbn [fst snd] in *;
      [| | contradiction];
      (eexists; split; [reflexivity |]; cbn; repeat split; assumption).
  - intros Hs r s1 Hturn Hr. unfold stabilize_off. rewrite Hs. cbv zeta.
    rewrite Hturn.
    pose proof (run_iteration_turn (S fuel) _ _ _ Hturn) as (Hm1 & Hc1).
    pose proof (run_iteration_target_kept K cfg (S fuel) _ _ _ Hturn) as (_ & Ht1).
    cbn [messages with_messages stabilization_auto_corrections target_wavelength]
      in Hm1, Hc1, Ht1.
    destruct r as [[|] | e |]; [| | | contradiction].
    + set (s2 := with_messages (messages st ++ ["stop"]) s1).
      assert (Hm : messages s2 <> []).
      { cbn. destruct (messages st); discriminate. }
      rewrite (run_with_message (S fuel) fuel s2 Hm).
      destruct (stop_scan_effect s2) as (Htr & (_ & Hq & Hc & Htg) & _ & Hn).
      destruct (stop_scan s2) as [[[] | e |] s3]; cbn [fst snd] in *;
        [| | contradiction];
        (eexists; split; [reflexivity |]; cbn;
         split; [reflexivity |]; split; [exact Hq |]; split; [exact Htr |];
         split; [rewrite Hc; exact Hc1 |];
         intros t Ht; rewrite Htg; apply Ht1, Ht).
    + exfalso.
      pose proof (run_iteration_quiet (S fuel) (with_messages [] st) _ _ eq_refl Hturn).
      discriminate.
    + eexists. split; [reflexivity |]. cbn.
      split; [reflexivity |]. split; [reflexivity |].
      split; [symmetry; apply app_nil_r |]. split; [exact Hc1 | exact Ht1].
Qed.

Lemma thread_init_Ok fuel st s1 :
  thread_init cfg fuel st = (Ok tt, s1) ->
  trace s1
  = trace st
    ++ [StopScan;
        Query ("SCAN:RISINGSPEED "
               ++ str_of_float (STABILIZATION_RISING_SPEED cfg))%string;
        Query ("SCAN:FALLINGSPEED "
               ++ str_of_float (STABILIZATION_FALLING_SPEED cfg))%string].
Proof.
  unfold thread_init. intros H.
  apply bind_Ok in H. destruct H as ([] & a & H1 & H).
  apply bind_Ok in H. destruct H as (v2 & b & H2 & H).
  apply bind_Ok in H. destruct H as (v3 & c & H3 & H).
  inversion H. subst c. clear H.
  apply scan_action_Ok in H1. destruct H1 as (H1 & _).
  apply query_command_Ok in H2. destruct H2 as (r2 & H2).
  apply query_command_Ok in H3. destruct H3 as (r3 & H3).
  rewrite (answered_trace _ _ _ _ H3), (answered_trace _ _ _ _ H2), H1, <- !app_assoc.
  reflexivity.
Qed.


End ThreadFacts.

(** ** The control loops and the lock *)

Section ControlLoopFacts.

Context {L : Lab}.

(** One status query of the chain: the loop runs and the chain goes on,
    or it does not and the chain ends. *)
Lemma status_step {B} fuel command (k : bool -> M B) st r st' :
  (a <- query fuel command false true ;; s <- found_in "RUN" a ;; k s) st = (Ok r, st') ->
  exists s1,
    (runs command st s1 /\ k true s1 = (Ok r, st'))
    \/ (halted command st s1 /\ k false s1 = (Ok r, st')).
Proof.
  intros H.
  apply bind_Ok in H. destruct H as (a & s1 & Hq & H).
  apply query_Ok in Hq. destruct Hq as (answer & Ha & Hv).
  destruct (Py.startswith (Py.strip answer) "!ERROR") eqn:He;
    [destruct Hv as [F _]; discriminate F |].
  subst a. cbn [found_in] in H. rewrite bind_ret_l in H.
  exists s1. destruct (PyStr.contains "RUN" (Py.strip answer)) eqn:Ec.
  - left. split; [| exact H]. exists answer. auto.
  - right. split; [| exact H]. exists answer. auto.
Qed.

Lemma runs_trace command st st' :
  runs command st st' -> trace st' = trace st ++ [Query command].
Proof. intros (r & Ha & _). eapply answered_trace, Ha. Qed.

Lemma runs_step {B} fuel command (k : bool -> M B) st s1 :
  runs command st s1 ->
  (a <- query (S fuel) command false true ;; s <- found_in "RUN" a ;; k s) st = k true s1.
Proof.
  intros (r & Ha & He & Hc).
  rewrite (bind_run _ _ _ _ _ (query_command_run fuel _ true _ _ _ Ha He)).
  cbn [found_in]. rewrite bind_ret_l, Hc. reflexivity.
Qed.

Lemma halted_step {B} fuel command (k : bool -> M B) st s1 :
  halted command st s1 ->
  (a <- query (S fuel) command false true ;; s <- found_in "RUN" a ;; k s) st = k false s1.
Proof.
  intros (r & Ha & He & Hc).
  rewrite (bind_run _ _ _ _ _ (query_command_run fuel _ true _ _ _ Ha He)).
  cbn [found_in]. rewrite bind_ret_l, Hc. reflexivity.
Qed.

Lemma all_control_loops_on_Ok fuel st b st' :
  all_control_loops_on fuel st = (Ok b, st') ->
  (b = true
   /\ exists s1 s2 s3,
        runs "SLOWPIEZO:CONTROLSTATUS?" st s1
        /\ runs "THINETALON:CONTROLSTATUS?" s1 s2
        /\ runs "PIEZOETALON:CONTROLSTATUS?" s2 s3
        /\ runs "FASTPIEZO:CONTROLSTATUS?" s3 st')
  \/ (b = false
      /\ (halted "SLOWPIEZO:CONTROLSTATUS?" st st'
          \/ (exists s1,
                 runs "SLOWPIEZO:CONTROLSTATUS?" st s1
                 /\ halted "THINETALON:CONTROLSTATUS?" s1 st')
          \/ (exists s1 s2,
                 runs "SLOWPIEZO:CONTROLSTATUS?" st s1
                 /\ runs "THINETALON:CONTROLSTATUS?" s1 s2
                 /\ halted "PIEZOETALON:CONTROLSTATUS?" s2 st')
          \/ (exists s1 s2 s3,
                 runs "SLOWPIEZO:CONTROLSTATUS?" st s1
                 /\ runs "THINETALON:CONTROLSTATUS?" s1 s2
                 /\ runs "PIEZOETALON:CONTROLSTATUS?" s2 s3
                 /\ halted "FASTPIEZO:CONTROLSTATUS?" s3 st'))).
Proof.
  unfold all_control_loops_on. intros H.
  apply status_step in H. destruct H as (s1 & [[R1 H] | [H1 H]]); cbn [negb] in H;
    [| inversion H; subst; right; split; [reflexivity | left; exact H1]].
  apply status_step in H. destruct H as (s2 & [[R2 H] | [H2 H]]); cbn [negb] in H;
    [| inversion H; subst; right; split; [reflexivity | right; left; eauto]].
  apply status_step in H. destruct H as (s3 & [[R3 H] | [H3 H]]); cbn [negb] in H;
    [| inversion H; subst; right; split; [reflexivity | right; right; left; eauto]].
  assert (H' : (a <- query fuel "FASTPIEZO:CONTROLSTATUS?" false true ;;
                s <- found_in "RUN" a ;; ret s) s3 = (Ok b, st')).
  { rewrite <- H. apply bind_ext. intros a s. unfold bind.
    destruct (found_in "RUN" a s) as [[x | e |] s']; reflexivity. }
  apply status_step in H'. destruct H' as (s4 & [[R4 H4] | [H4 H5]]).
  - inversion H4. subst. left. split; [reflexivity |]. eauto 8.
  - inversion H5. subst. right. split; [reflexivity |]. right. right. right. eauto 8.
Qed.

(** X18. [all_control_loops_on] asks the slow piezo, the thin etalon, the
    piezo etalon and the fast piezo for their control status, in this order,
    and stops asking at the first whose answer does not contain ['RUN']: it
    returns true exactly when all four were asked and all four answers
    contain ['RUN'], and false after one to four exchanges, the last of
    which is the one without ['RUN']. *)
Theorem all_control_loops_on_spec fuel st b st' :
  all_control_loops_on fuel st = (Ok b, st') ->
  (b = true
   /\ trace st'
      = trace st ++ [Query "SLOWPIEZO:CONTROLSTATUS?"; Query "THINETALON:CONTROLSTATUS?";
                     Query "PIEZOETALON:CONTROLSTATUS?"; Query "FASTPIEZO:CONTROLSTATUS?"]
   /\ exists s1 s2 s3,
        runs "SLOWPIEZO:CONTROLSTATUS?" st s1
        /\ runs "THINETALON:CONTROLSTATUS?" s1 s2
        /\ runs "PIEZOETALON:CONTROLSTATUS?" s2 s3
        /\ runs "FASTPIEZO:CONTROLSTATUS?" s3 st')
  \/ (b = false
      /\ (halted "SLOWPIEZO:CONTROLSTATUS?" st st'
          \/ (exists s1,
                 runs "SLOWPIEZO:CONTROLSTATUS?" st s1
                 /\ halted "THINETALON:CONTROLSTATUS?" s1 st')
          \/ (exists s1 s2,
                 runs "SLOWPIEZO:CONTROLSTATUS?" st s1
                 /\ runs "THINETALON:CONTROLSTATUS?" s1 s2
                 /\ halted "PIEZOETALON:CONTROLSTATUS?" s2 st')
          \/ (exists s1 s2 s3,
                 runs "SLOWPIEZO:CONTROLSTATUS?" st s1
                 /\ runs "THINETALON:CONTROLSTATUS?" s1 s2
                 /\ runs "PIEZOETALON:CONTROLSTATUS?" s2 s3
                 /\ halted "FASTPIEZO:CONTROLSTATUS?" s3 st'))).
Proof.
  intros H. apply all_control_loops_on_Ok in H.
  destruct H as [(Hb & s1 & s2 & s3 & R1 & R2 & R3 & R4) | H]; [left | right; exact H].
  split; [exact Hb |]. split; [| eauto 8].
  rewrite (runs_trace _ _ _ R4), (runs_trace _ _ _ R3), (runs_trace _ _ _ R2),
    (runs_trace _ _ _ R1), <- !app_assoc. reflexivity.
Qed.

(** X19. [laser_locked] is true exactly when the four control loops
    answer ['RUN'] and the answer to ['FASTPIEZO:LOCK?'], asked after them,
    contains ['TRUE']. When a loop does not run, [laser_locked] returns false
    with the lock never asked: the exchanges are those of
    [all_control_loops_on]. *)
Theorem laser_locked_spec fuel st st' :
  (laser_locked (S fuel) st = (Ok true, st')
   <-> exists s1 s2 s3 s4 r,
         runs "SLOWPIEZO:CONTROLSTATUS?" st s1
         /\ runs "THINETALON:CONTROLSTATUS?" s1 s2
         /\ runs "PIEZOETALON:CONTROLSTATUS?" s2 s3
         /\ runs "FASTPIEZO:CONTROLSTATUS?" s3 s4
         /\ answered "FASTPIEZO:LOCK?" r s4 st'
         /\ Py.startswith (Py.strip r) "!ERROR" = false
         /\ PyStr.contains "TRUE" (Py.strip r) = true)
  /\ (all_control_loops_on fuel st = (Ok false, st') ->
      laser_locked fuel st = (Ok false, st')).
Proof.
  split; [split |].
  - intros H. unfold laser_locked in H.
    apply bind_Ok in H. destruct H as (loops & s4 & Hl & H).
    destruct loops; [| discriminate H].
    apply all_control_loops_on_Ok in Hl.
    destruct Hl as [(_ & s1 & s2 & s3 & R1 & R2 & R3 & R4) | (F & _)];
      [| discriminate F].
    unfold fast_piezo_locked in H.
    apply bind_Ok in H. destruct H as (v & s5 & Hq & H).
    apply query_Ok in Hq. destruct Hq as (r & Ha & Hv).
    destruct (Py.startswith (Py.strip r) "!ERROR") eqn:He;
      [destruct Hv as [F _]; discriminate F |].
    subst v. cbn [found_in] in H. unfold ret in H. injection H as Hc Hs.
    subst s5. exists s1, s2, s3, s4, r. auto 10.
  - intros (s1 & s2 & s3 & s4 & r & R1 & R2 & R3 & R4 & Ha & He & Hc).
    assert (Hl : all_control_loops_on (S fuel) st = (Ok true, s4)).
    { unfold all_control_loops_on.
      rewrite (runs_step fuel _ _ _ _ R1). cbn [negb].
      rewrite (runs_step fuel _ _ _ _ R2). cbn [negb].
      rewrite (runs_step fuel _ _ _ _ R3). cbn [negb].
      destruct R4 as (r4 & Ha4 & He4 & Hc4).
      rewrite (bind_run _ _ _ _ _ (query_command_run fuel _ true _ _ _ Ha4 He4)).
      cbn [found_in]. rewrite Hc4. reflexivity. }
    unfold laser_locked. rewrite (bind_run _ _ _ _ _ Hl).
    unfold fast_piezo_locked.
    rewrite (bind_run _ _ _ _ _ (query_command_run fuel _ true _ _ _ Ha He)).
    cbn [found_in]. rewrite Hc. reflexivity.
  - intros H. unfold laser_locked. rewrite (bind_run _ _ _ _ _ H). reflexivity.
Qed.

End ControlLoopFacts.

(** The thread of the bench, alive and at the head of its loop, is
    stopped by [stabilize_off]. *)
Lemma stabilize_off_stops_thread_witness :
  let st := with_thread (Some true) (Sim.aimed 750 Sim.bench) in
  exists st',
    stabilize_off Sim.constants Sim.config 1 false st = (Ok tt, st')
    /\ is_stabilizing st' = false
    /\ messages st' = ["stop"]
    /\ trace st' = [StopScan].
Proof.
  intros st.
  destruct (proj1 (proj2 (stabilize_off_stops_thread Sim.constants Sim.config 0 st))
              eq_refl)
    as (st' & H1 & H2 & H3 & H4 & _).
  exists st'. split; [exact H1 |]. split; [exact H2 |]. split; [exact H3 | exact H4].
Defined.


(** On the bench with an empty queue, three turns of the loop do not
    end it. *)
Lemma run_ends_on_message_only_witness :
  run Sim.constants Sim.config 10 3 (Sim.aimed 750 Sim.bench)
  <> (Ok tt, snd (run Sim.constants Sim.config 10 3 (Sim.aimed 750 Sim.bench))).
Proof.
  exact (proj1 (run_ends_on_message_only Sim.constants Sim.config 10 3
                  (Sim.aimed 750 Sim.bench)) eq_refl _).
Defined.

(** A turn on the saturated bench, aimed above its reading. *)
Lemma corrections_counted_witness :
  let turn := run_iteration Sim.constants Sim.config 10
                (Sim.aimed 751 Sim.saturated_bench) in
  stabilization_auto_corrections (snd turn) = 0
  \/ stabilization_auto_corrections (snd turn) = 0 + 1.
Proof.
  intros turn.
  exact (proj2 (proj1 (corrections_counted Sim.constants Sim.config 10 0
                         (Sim.aimed 751 Sim.saturated_bench) (fst turn) (snd turn))
                  (surjective_pairing turn))).
Defined.

Lemma fst_ok_in (L : Lab) {A} (run : result A * @state L) (r : result A) :
  fst run = r -> run = (r, snd run).
Proof. destruct run as [r' s]. cbn. intros ->. reflexivity. Defined.

(** The slow piezo runs and the thin etalon does not: two exchanges. *)
Lemma all_control_loops_on_spec_witness :
  let st := @initial Script.lab [":SLOWPIEZO:CONTROLSTATUS: RUN";
                                 ":THINETALON:CONTROLSTATUS: STOP"] in
  exists st',
    @all_control_loops_on Script.lab 1 st = (Ok false, st')
    /\ (halted "SLOWPIEZO:CONTROLSTATUS?" st st'
        \/ (exists s1,
               runs "SLOWPIEZO:CONTROLSTATUS?" st s1
               /\ halted "THINETALON:CONTROLSTATUS?" s1 st')
        \/ (exists s1 s2,
               runs "SLOWPIEZO:CONTROLSTATUS?" st s1
               /\ runs "THINETALON:CONTROLSTATUS?" s1 s2
               /\ halted "PIEZOETALON:CONTROLSTATUS?" s2 st')
        \/ (exists s1 s2 s3,
               runs "SLOWPIEZO:CONTROLSTATUS?" st s1
               /\ runs "THINETALON:CONTROLSTATUS?" s1 s2
               /\ runs "PIEZOETALON:CONTROLSTATUS?" s2 s3
               /\ halted "FASTPIEZO:CONTROLSTATUS?" s3 st')).
Proof.
  intros st.
  assert (R : @all_control_loops_on Script.lab 1 st
              = (Ok false, snd (@all_control_loops_on Script.lab 1 st))).
  { apply (fst_ok_in Script.lab). vm_compute. reflexivity. }
  exists (snd (@all_control_loops_on Script.lab 1 st)). split; [exact R |].
  destruct (@all_control_loops_on_spec Script.lab 1 st _ _ R) as [(F & _) | (_ & H)].
  - discriminate F.
  - exact H.
Defined.

(** Four loops that run and a lock that holds. *)
Lemma laser_locked_spec_witness :
  let st := @initial Script.lab [":SLOWPIEZO:CONTROLSTATUS: RUN";
                                 ":THINETALON:CONTROLSTATUS: RUN";
                                 ":PIEZOETALON:CONTROLSTATUS: RUN";
                                 ":FASTPIEZO:CONTROLSTATUS: RUN";
                                 ":FASTPIEZO:LOCK: TRUE"] in
  exists r s4 st',
    @answered Script.lab "FASTPIEZO:LOCK?" r s4 st'
    /\ PyStr.contains "TRUE" (Py.strip r) = true.
Proof.
  intros st.
  assert (R : @laser_locked Script.lab 1 st
              = (Ok true, snd (@laser_locked Script.lab 1 st))).
  { apply (fst_ok_in Script.lab). vm_compute. reflexivity. }
  destruct (proj1 (proj1 (@laser_locked_spec Script.lab 0 st _)) R)
    as (s1 & s2 & s3 & s4 & r & _ & _ & _ & _ & Ha & _ & Hc).
  exists r, s4, (snd (@laser_locked Script.lab 1 st)). split; [exact Ha | exact Hc].
Defined.
